(** * Usage quotas and image delivery of the gemini-25-image-openrouter plugin

    A shallow embedding of [main.py] (class [MyPlugin]) and the proofs of
    the properties its specification states about it.

    Conventions of the embedding.
    - The plugin instance ([self]) is the record [plugin]; every method is a
      computation in the monad [M], which threads the instance, accumulates
      the trace of calls made to collaborators, and either returns a value or
      raises a Python exception.
    - Collaborators that live outside the repository (the generation client,
      the file-transfer helper, the host's configuration stores, the clock)
      are the fields of the record [host]: what each call answers is an input
      of the model, and the fact that the call was made is an entry of the
      trace.
    - Values read from the JSON configuration and from the records file
      have the types the specification gives them (integers for limits,
      intervals, counts and timestamps, strings for identifiers); the
      dynamic checks that the code performs itself ([isinstance(.., list)],
      [isinstance(.., dict)], [dict.get] with a default, truthiness of
      strings) are kept.
    - Calls to [logger] are not part of the model.  The constructor and the
      [/banana] commands are embedded after the handlers; the file system
      behind the records file and the writes to the host's global store
      are inputs and calls of the same kind ([disk], [store],
      [command_effect]).
    - The elapsed minutes of the rate limiter are embedded twice: as the
      exact quotient ([time_since_last_draw], [_check_and_update_limit],
      [pic_gen], [figure_transform]) and as the binary64 float that the
      code computes (the same names in the module [Binary64]).  The two
      coincide when the stored timestamp is less than 2^53 seconds away
      from the clock ([check_agrees], [handlers_agree]); only with the
      float can the check raise. *)

From Stdlib Require Import QArith.
From stdpp Require Import gmap strings list pretty.

Set Warnings "-register-all".
Open Scope Z_scope.

(** ** Python values and exceptions *)

(** The classes the [except] clauses of the code tell apart.  [IOError] is
    an alias of [OSError]; [ConnectionError] and [TimeoutError] are
    subclasses of it.  Every class below derives from [Exception]: signals
    that only derive from [BaseException] (task cancellation, interpreter
    exit) are outside the model. *)
Inductive exn_class :=
| OSError
| ConnectionError
| TimeoutError
| OtherException.

Record exn := { exn_type : exn_class; exn_str : string }.

Inductive outcome (A : Type) :=
| Ok (a : A)
| Raise (e : exn).
Arguments Ok {A} a.
Arguments Raise {A} e.

(** [isinstance(e, (IOError, OSError))]. *)
Definition is_os_error (c : exn_class) : bool :=
  match c with
  | OSError | ConnectionError | TimeoutError => true
  | OtherException => false
  end.

(** [isinstance(e, (ConnectionError, TimeoutError))]. *)
Definition is_network_error (c : exn_class) : bool :=
  match c with
  | ConnectionError | TimeoutError => true
  | _ => false
  end.

(** Truthiness of a value that is [None] or a [str]. *)
Definition truthy (v : option string) : bool :=
  match v with
  | Some s => negb (String.eqb s "")
  | None => false
  end.

(** ** Data model *)

(** One value of [usage_records]: a dict [{"timestamp": .., "count": ..}].
    The code reads the timestamp with [.get("timestamp", 0)] and the count
    with ["count"]: a stored dict without the key ["count"], at which line
    139 raises [KeyError], is not a value of the model. *)
Record usage_record := {
  timestamp : option Z;
  count : Z
}.

(** A dict of [user_limits] or [group_limits], by its keys.  An identifier
    that is not a [str] never compares equal to the sender's or the group's
    identifier, and is represented like a missing key. *)
Record limit_entry := {
  item_user_id : option string;
  item_group_id : option string;
  item_limit : option Z
}.

Inductive limit_item :=
| NotADict
| Entry (e : limit_entry).

(** The value under ["user_limits"] or ["group_limits"]. *)
Inductive limit_list :=
| NotAList
| LimitList (items : list limit_item).

(** [config["rate_limit"]]; a field is [None] when the key is missing. *)
Record rate_limit := {
  enabled : option bool;
  default_limit : option Z;
  user_limits : option limit_list;
  group_limits : option limit_list;
  reset_interval_minutes : option Z
}.

(** [limit_type]: "用户" or "群组". *)
Inductive limit_kind :=
| UserLimit
| GroupLimit.

(** Modelled from the spec: the chat-message component abstraction of the
    host framework (image by file, image by URL, plain text, quoted reply),
    which the repository imports from [astrbot].  A received image carries
    what its [convert_to_base64] answers. *)
Inductive Image :=
| fromFileSystem (path : string)
| fromURL (url : string).

Inductive component :=
| ImageComp (convert_to_base64 : outcome string)
| Reply (chain : list component)
| OtherComp.

Inductive reply_component :=
| ImageOut (image : Image)
| Plain (text : string).

(** What a handler yields: [event.plain_result] or [event.chain_result]. *)
Inductive MessageEventResult :=
| plain_result (message : string)
| chain_result (chain : list reply_component).

(** The part of [AstrMessageEvent] the plugin reads.  [message] is [None]
    when the event has no (truthy) [message_obj] with a [message]. *)
Record AstrMessageEvent := {
  get_sender_id : string;
  get_group_id : option string;
  message : option (list component)
}.

(** The arguments of one call of [generate_image_openrouter]. *)
Record generation_request := {
  req_prompt : string;
  req_api_keys : list string;
  req_model : string;
  req_input_images : list string;
  req_api_base : option string;
  req_max_retry_attempts : Z
}.

(** The dict stored under the plugin's name in the host's global store. *)
Record global_config := {
  global_custom_api_base : option string;
  global_model_name : option string
}.

(** The instance fields of [MyPlugin]. *)
Record plugin := {
  openrouter_api_keys : list string;
  custom_api_base : string;
  model_name : string;
  max_retry_attempts : Z;
  nap_server_address : option string;
  nap_server_port : option Z;
  rate_limit_config : rate_limit;
  usage_records : gmap string usage_record;
  _global_config_loaded : bool
}.

(** The answers of the collaborators during one handler run. *)
Record host := {
  clock : Z;
  global_get : outcome global_config;
  generate_image_openrouter :
    generation_request -> outcome (option string * option string);
  send_file : string -> string -> option Z -> outcome string;
  callback_api_base : option string;
  convert_to_web_link : string -> outcome string
}.

(** Calls that leave the plugin, in the order they are made. *)
Inductive effect :=
| SaveRecords (records : gmap string usage_record)
| GlobalGet
| Generate (request : generation_request)
| SendFile (path host_name : string) (port : option Z)
| NewImage (image : Image)
| ConvertToWebLink (path : string)
| Yield (result : MessageEventResult).

(** ** The monad of methods *)

Definition M (A : Type) : Type := plugin -> outcome A * plugin * list effect.

Definition ret {A} (a : A) : M A := fun self => (Ok a, self, []).

Definition bind {A B} (m : M A) (k : A -> M B) : M B := fun self =>
  match m self with
  | (Ok a, self1, t1) =>
      let '(r, self2, t2) := k a self1 in (r, self2, t1 ++ t2)
  | (Raise e, self1, t1) => (Raise e, self1, t1)
  end.

Definition raise {A} (e : exn) : M A := fun self => (Raise e, self, []).

(** [try: body except Exception as e: handler e]. *)
Definition try_except {A} (body : M A) (handler : exn -> M A) : M A :=
  fun self =>
  match body self with
  | (Ok a, self1, t1) => (Ok a, self1, t1)
  | (Raise e, self1, t1) =>
      let '(r, self2, t2) := handler e self1 in (r, self2, t1 ++ t2)
  end.

Definition emit (e : effect) : M unit := fun self => (Ok tt, self, [e]).
Definition get_self : M plugin := fun self => (Ok self, self, []).
Definition put_self (self' : plugin) : M unit := fun _ => (Ok tt, self', []).

Definition modify (f : plugin -> plugin) : M unit :=
  fun self => (Ok tt, f self, []).

(** The answer of a collaborator, returned or raised. *)
Definition await {A} (o : outcome A) : M A :=
  match o with
  | Ok a => ret a
  | Raise e => raise e
  end.

Notation "x <- m ;; k" := (bind m (fun x => k))
  (at level 100, m at next level, right associativity).
Notation "m ;;; k" := (bind m (fun _ => k))
  (at level 100, right associativity).

Definition result_of {A} (r : outcome A * plugin * list effect) : outcome A :=
  r.1.1.
Definition self_of {A} (r : outcome A * plugin * list effect) : plugin :=
  r.1.2.
Definition trace_of {A} (r : outcome A * plugin * list effect) : list effect :=
  r.2.

(** ** Usage records *)

Definition set_usage_records (m : gmap string usage_record) (self : plugin)
  : plugin :=
  {| openrouter_api_keys := openrouter_api_keys self;
     custom_api_base := custom_api_base self;
     model_name := model_name self;
     max_retry_attempts := max_retry_attempts self;
     nap_server_address := nap_server_address self;
     nap_server_port := nap_server_port self;
     rate_limit_config := rate_limit_config self;
     usage_records := m;
     _global_config_loaded := _global_config_loaded self |}.

(** [_save_usage_records]: dumps the in-memory mapping to the records file.
    A failure of the write is logged and swallowed, so the method always
    returns; the trace entry records the call and the mapping it dumps. *)
Definition _save_usage_records : M unit :=
  self <- get_self ;;
  emit (SaveRecords (usage_records self)).

(** ** The rate limiter, [_check_and_update_limit] *)

(** The generator condition of line 109. *)
Definition user_item_matches (user_id : string) (it : limit_item) : bool :=
  match it with
  | Entry e => bool_decide (item_user_id e = Some user_id)
  | NotADict => false
  end.

(** The generator condition of line 119. *)
Definition group_item_matches (group_id : string) (it : limit_item) : bool :=
  match it with
  | Entry e => bool_decide (item_group_id e = Some group_id)
  | NotADict => false
  end.

(** [self.rate_limit_config.get("default_limit", 10)]. *)
Definition get_default_limit (cfg : rate_limit) : Z :=
  default 10 (default_limit cfg).

(** Lines 111 and 121: [item.get("limit", default_limit)]. *)
Definition entry_limit (cfg : rate_limit) (e : limit_entry) : Z :=
  default (get_default_limit cfg) (item_limit e).

(** Lines 107-114.  A dict that has the key ["user_id"] is not empty, so the
    test [if user_limit_config] succeeds on every item the search returns. *)
Definition user_limit_of (cfg : rate_limit) (user_id : string)
  : option (Z * limit_kind) :=
  match default (LimitList []) (user_limits cfg) with
  | LimitList items =>
      match List.find (user_item_matches user_id) items with
      | Some (Entry user_limit_config) =>
          Some (entry_limit cfg user_limit_config, UserLimit)
      | _ => None
      end
  | NotAList => None
  end.

(** Lines 117-124, entered when [group_id] is truthy. *)
Definition group_limit_of (cfg : rate_limit) (group_id : string)
  : option (Z * limit_kind) :=
  match default (LimitList []) (group_limits cfg) with
  | LimitList items =>
      match List.find (group_item_matches group_id) items with
      | Some (Entry group_limit_config) =>
          Some (entry_limit cfg group_limit_config, GroupLimit)
      | _ => None
      end
  | NotAList => None
  end.

(** Lines 104-124: the pair [(limit, limit_type)], [None] when [limit_type]
    is still [None] at line 126. *)
Definition resolve_limit (cfg : rate_limit) (event : AstrMessageEvent)
  : option (Z * limit_kind) :=
  let user_id := get_sender_id event in
  let group_id := get_group_id event in
  match user_limit_of cfg user_id with
  | Some found => Some found
  | None =>
      if truthy group_id
      then group_limit_of cfg (default ""%string group_id)
      else None
  end.

(** Line 131. *)
Definition record_key (event : AstrMessageEvent) : string :=
  if truthy (get_group_id event)
  then "group_" +:+ default ""%string (get_group_id event)
  else "user_" +:+ get_sender_id event.

(** Line 135: the elapsed minutes, as the exact quotient.  The code computes
    the quotient as a binary64 float and compares it with the integer
    interval; [Binary64.time_since_last_draw] embeds that float.  The two
    compare with the interval the same way when the elapsed time is below
    2^53 seconds in absolute value ([true_divide_60], [check_agrees]), and
    differ beyond: the float is rounded, and the division raises
    [OverflowError] past the range of the floats. *)
Definition time_since_last_draw (current_timestamp : Z) (r : usage_record)
  : Q :=
  (current_timestamp - default 0 (timestamp r)) # 60.

(** Lines 133-137: the record the limit is compared with. *)
Definition current_record (reset_interval current_timestamp : Z)
    (stored : option usage_record) : usage_record :=
  let fresh := {| timestamp := Some current_timestamp; count := 0 |} in
  let user_record := default fresh stored in
  if Qlt_le_dec (inject_Z reset_interval)
       (time_since_last_draw current_timestamp user_record)
  then fresh
  else user_record.

Definition denial_message (limit : Z) : string :=
  "您已达到绘图次数上限（" +:+ pretty limit +:+ "次），请稍后再试。".

Definition success_message (kind : limit_kind) (user_id : string)
    (remaining : Z) : string :=
  match kind with
  | UserLimit =>
      "用户(" +:+ user_id +:+ ")绘图成功！您还剩余 " +:+ pretty remaining
        +:+ " 次绘图机会。"
  | GroupLimit =>
      "绘图成功！您还剩余 " +:+ pretty remaining +:+ " 次绘图机会。"
  end.

(** Lines 139-154, run on the record that lines 133-137 computed.  The
    record fetched at line 133 is the object stored in the mapping; it is
    only mutated at lines 142-143, right before it is stored under the same
    key at line 144, so updating the mapping at the key is all the mutation
    amounts to. *)
Definition charge_draw (event : AstrMessageEvent)
    (current_timestamp limit : Z) (limit_type : limit_kind)
    (user_record : usage_record) : M (bool * string) :=
  if bool_decide (limit <= count user_record)
  then ret (false, denial_message limit)
  else
    let user_record :=
      {| timestamp := Some current_timestamp;
         count := count user_record + 1 |} in
    modify (fun self =>
              set_usage_records
                (<[record_key event := user_record]> (usage_records self))
                self) ;;;
    _save_usage_records ;;;
    let remaining := limit - count user_record in
    ret (true, success_message limit_type (get_sender_id event) remaining).

(** Lines 94-154.  [current_timestamp] is the reading of the clock at line
    130. *)
Definition _check_and_update_limit (event : AstrMessageEvent)
    (current_timestamp : Z) : M (bool * string) :=
  self <- get_self ;;
  let cfg := rate_limit_config self in
  if negb (default false (enabled cfg)) then ret (true, ""%string)
  else
    match resolve_limit cfg event with
    | None => ret (true, ""%string)
    | Some (limit, limit_type) =>
        let reset_interval := default 1440 (reset_interval_minutes cfg) in
        let user_record :=
          current_record reset_interval current_timestamp
            (usage_records self !! record_key event) in
        charge_draw event current_timestamp limit limit_type user_record
    end.

(** ** Output delivery, [send_image_with_callback_api] *)

(** A call of [Image.fromFileSystem] or [Image.fromURL]. *)
Definition new_image (image : Image) : M Image :=
  emit (NewImage image) ;;; ret image.

(** Lines 156-185.  The three [except] clauses are tried in order; they
    differ in what they log. *)
Definition send_image_with_callback_api (env : host) (image_path : string)
  : M Image :=
  if negb (truthy (callback_api_base env))
  then new_image (fromFileSystem image_path)
  else
    try_except
      (image_component <- new_image (fromFileSystem image_path) ;;
       emit (ConvertToWebLink image_path) ;;;
       download_url <- await (convert_to_web_link env image_path) ;;
       new_image (fromURL download_url))
      (fun e =>
         if is_os_error (exn_type e)
         then new_image (fromFileSystem image_path)
         else if is_network_error (exn_type e)
         then new_image (fromFileSystem image_path)
         else new_image (fromFileSystem image_path)).

(** ** Global configuration, [_load_global_config] *)

Definition set_custom_api_base (v : string) (self : plugin) : plugin :=
  {| openrouter_api_keys := openrouter_api_keys self;
     custom_api_base := v;
     model_name := model_name self;
     max_retry_attempts := max_retry_attempts self;
     nap_server_address := nap_server_address self;
     nap_server_port := nap_server_port self;
     rate_limit_config := rate_limit_config self;
     usage_records := usage_records self;
     _global_config_loaded := _global_config_loaded self |}.

Definition set_model_name (v : string) (self : plugin) : plugin :=
  {| openrouter_api_keys := openrouter_api_keys self;
     custom_api_base := custom_api_base self;
     model_name := v;
     max_retry_attempts := max_retry_attempts self;
     nap_server_address := nap_server_address self;
     nap_server_port := nap_server_port self;
     rate_limit_config := rate_limit_config self;
     usage_records := usage_records self;
     _global_config_loaded := _global_config_loaded self |}.

Definition set_global_config_loaded (v : bool) (self : plugin) : plugin :=
  {| openrouter_api_keys := openrouter_api_keys self;
     custom_api_base := custom_api_base self;
     model_name := model_name self;
     max_retry_attempts := max_retry_attempts self;
     nap_server_address := nap_server_address self;
     nap_server_port := nap_server_port self;
     rate_limit_config := rate_limit_config self;
     usage_records := usage_records self;
     _global_config_loaded := v |}.

(** Lines 47-62. *)
Definition _load_global_config (env : host) : M unit :=
  self <- get_self ;;
  if _global_config_loaded self then ret tt
  else
    try_except
      (emit GlobalGet ;;;
       plugin_config <- await (global_get env) ;;
       match global_custom_api_base plugin_config with
       | Some v => modify (set_custom_api_base v)
       | None => ret tt
       end ;;;
       match global_model_name plugin_config with
       | Some v => modify (set_model_name v)
       | None => ret tt
       end ;;;
       modify (set_global_config_loaded true))
      (fun e => modify (set_global_config_loaded true)).

(** ** Reference images *)

(** Lines 238-243 (and 359-364): the images of a quoted message whose
    conversion succeeds. *)
Definition reply_images (chain : list component) : list string :=
  flat_map (fun reply_comp =>
              match reply_comp with
              | ImageComp (Ok data) => [data]
              | _ => []
              end) chain.

(** Lines 230-243 (and 351-364). *)
Definition reference_images (event : AstrMessageEvent) : list string :=
  match message event with
  | Some comps =>
      flat_map (fun comp =>
                  match comp with
                  | ImageComp (Ok data) => [data]
                  | ImageComp (Raise _) => []
                  | Reply chain => reply_images chain
                  | OtherComp => []
                  end) comps
  | None => []
  end.

(** ** The generation entry points *)

(** [self.custom_api_base or None]. *)
Definition api_base_or_none (base : string) : option string :=
  if String.eqb base "" then None else Some base.

Definition generation_request_of (self : plugin) (prompt : string)
    (input_images : list string) : generation_request :=
  {| req_prompt := prompt;
     req_api_keys := openrouter_api_keys self;
     req_model := model_name self;
     req_input_images := input_images;
     req_api_base := api_base_or_none (custom_api_base self);
     req_max_retry_attempts := max_retry_attempts self |}.

(** Lines 261-262 (and 405-406): the path handed to the delivery step. *)
Definition relay_to_nap_server (env : host) (image_path : string) : M string :=
  self <- get_self ;;
  if truthy (nap_server_address self)
     && negb (String.eqb (default ""%string (nap_server_address self)) "localhost")
  then
    let address := default ""%string (nap_server_address self) in
    emit (SendFile image_path address (nap_server_port self)) ;;;
    await (send_file env image_path address (nap_server_port self))
  else ret image_path.

(** Lines 226-270: the LLM tool once the draw is allowed, [message] being
    the message the check returned. *)
Definition pic_gen_draw (env : host) (event : AstrMessageEvent)
    (image_description : string) (use_reference_images : bool)
    (message : string) : M unit :=
  _load_global_config env ;;;
  let input_images :=
    if use_reference_images then reference_images event else [] in
  try_except
    (self <- get_self ;;
     let request :=
       generation_request_of self image_description input_images in
     emit (Generate request) ;;;
     generated <- await (generate_image_openrouter env request) ;;
     let '(image_url, image_path) := generated in
     if negb (truthy image_url) || negb (truthy image_path)
     then emit (Yield (plain_result "图像生成失败，请检查API配置和网络连接。"))
     else
       image_path <- relay_to_nap_server env (default ""%string image_path) ;;
       image_component <- send_image_with_callback_api env image_path ;;
       let chain :=
         if negb (String.eqb message "")
         then [ImageOut image_component; Plain message]
         else [ImageOut image_component] in
       emit (Yield (chain_result chain)))
    (fun e => emit (Yield (plain_result ("图像生成失败: " +:+ exn_str e)))).

(** Lines 188-270, the LLM tool. *)
Definition pic_gen (env : host) (event : AstrMessageEvent)
    (image_description : string) (use_reference_images : bool) : M unit :=
  checked <- _check_and_update_limit event (clock env) ;;
  let '(can_draw, message) := checked in
  if negb can_draw then emit (Yield (plain_result message))
  else pic_gen_draw env event image_description use_reference_images message.

Definition figure_prompt : string :=
"Please accurately transform the main subject in this image into a realistic, masterpiece-quality 1/7 scale PVC figure.

Specific Requirements:
1. **Figure Creation**: Convert the subject into a high-quality PVC figure with obvious three-dimensional depth and the characteristic glossy finish of PVC material
2. **Packaging Box Design**: Place an exquisite packaging box beside the figure. The front of the box should have a large transparent window displaying the original image, along with brand logos, product name, barcode, and detailed specification panels
3. **Display Base**: The figure should be placed on a round, transparent plastic base with visible thickness
4. **Background Setup**: Place a computer monitor in the background, with the screen displaying the ZBrush 3D modeling process of this figure
5. **Indoor Scene**: Set the entire scene in an indoor environment with appropriate lighting effects

Technical Requirements:
- Maintain the exact characteristics, expressions, and poses from the original image
- The figure must have obvious three-dimensional effects and must never appear flat
- PVC material texture should be clearly visible and realistic
- Avoid any cartoon outline strokes
- If the original image is not full-body, complete it as a full-body figure
- Character proportions should be natural and coordinated (head not too large, legs not too short)
- For animal figures, reduce fur realism to make it more statue-like rather than the real creature
- Pay attention to perspective relationships with near objects appearing larger and distant objects smaller
- No outer outline lines should be present

Please ensure the final result looks like a real commercial figure product that could exist in the market.".

(** Lines 348-414: the figure-ify command once the draw is allowed. *)
Definition figure_transform_draw (env : host) (event : AstrMessageEvent)
    (message : string) : M unit :=
  _load_global_config env ;;;
  let input_images := reference_images event in
  match input_images with
  | [] => emit (Yield (plain_result "请提供一张图片以进行手办化处理！"))
  | _ :: _ =>
      try_except
        (self <- get_self ;;
         let request :=
           generation_request_of self figure_prompt input_images in
         emit (Generate request) ;;;
         generated <- await (generate_image_openrouter env request) ;;
         let '(image_url, image_path) := generated in
         if negb (truthy image_url) || negb (truthy image_path)
         then emit (Yield (plain_result "手办化处理失败，请检查API配置和网络连接。"))
         else
           image_path <-
             relay_to_nap_server env (default ""%string image_path) ;;
           image_component <- send_image_with_callback_api env image_path ;;
           let result_chain :=
             if negb (String.eqb message "")
             then [Plain "✨ 手办化处理完成！"; ImageOut image_component;
                   Plain message]
             else [Plain "✨ 手办化处理完成！"; ImageOut image_component] in
           emit (Yield (chain_result result_chain)))
        (fun e =>
           emit (Yield (plain_result ("手办化处理失败: " +:+ exn_str e))))
  end.

(** Lines 341-414, the figure-ify command. *)
Definition figure_transform (env : host) (event : AstrMessageEvent) : M unit :=
  checked <- _check_and_update_limit event (clock env) ;;
  let '(can_draw, message) := checked in
  if negb can_draw then emit (Yield (plain_result message))
  else figure_transform_draw env event message.

(** Lines 416-422, the reset command.  That only an administrator may run
    it is enforced by the host's permission filter. *)
Definition reset_images_command (event : AstrMessageEvent) : M unit :=
  modify (set_usage_records ∅) ;;;
  _save_usage_records ;;;
  emit (Yield (plain_result "所有用户和群组的绘图次数已成功重置。")).

(** ** Observing runs *)

(** Successive checks of the same event, one per clock reading; each starts
    from the instance the previous one left. *)
Fixpoint check_sequence (event : AstrMessageEvent) (times : list Z)
    (self : plugin) : list (outcome (bool * string)) :=
  match times with
  | [] => []
  | now :: later =>
      let run := _check_and_update_limit event now self in
      result_of run :: check_sequence event later (self_of run)
  end.

(** No reading of [times] is more than [reset_interval] minutes after the
    one before it, [last] being the one before the first. *)
Fixpoint within_window (reset_interval last : Z) (times : list Z) : Prop :=
  match times with
  | [] => True
  | now :: later =>
      ((now - last # 60) <= inject_Z reset_interval)%Q
      /\ within_window reset_interval now later
  end.

(** What a run yields to the host, in order. *)
Definition yields (t : list effect) : list MessageEventResult :=
  flat_map (fun e => match e with Yield r => [r] | _ => [] end) t.

(** The calls of the delivery step: the file transfer, the construction of
    an image component, the conversion to a web link. *)
Definition is_delivery (e : effect) : bool :=
  match e with
  | SendFile _ _ _ | NewImage _ | ConvertToWebLink _ => true
  | _ => false
  end.

Definition is_send_file (e : effect) : bool :=
  match e with
  | SendFile _ _ _ => true
  | _ => false
  end.

Definition is_save (e : effect) : bool :=
  match e with
  | SaveRecords _ => true
  | _ => false
  end.

(** The calls that neither generate nor deliver nor answer: the save of the
    records and the read of the global configuration. *)
Definition is_bookkeeping (e : effect) : bool :=
  match e with
  | SaveRecords _ | GlobalGet => true
  | _ => false
  end.

(** ** Predicates of the statements *)

(** No dict of [user_limits] names the sender (the value may also be
    missing, or not a list). *)
Definition no_user_entry (cfg : rate_limit) (user_id : string) : Prop :=
  forall items e,
    user_limits cfg = Some (LimitList items) ->
    Entry e ∈ items -> item_user_id e <> Some user_id.

(** No dict of [group_limits] names the group. *)
Definition no_group_entry (cfg : rate_limit) (group_id : string) : Prop :=
  forall items e,
    group_limits cfg = Some (LimitList items) ->
    Entry e ∈ items -> item_group_id e <> Some group_id.

(** The fields that no step after the check assigns: all but the API base,
    the model name and the flag of [_load_global_config]. *)
Definition same_setup (self self' : plugin) : Prop :=
  usage_records self' = usage_records self
  /\ rate_limit_config self' = rate_limit_config self
  /\ nap_server_address self' = nap_server_address self
  /\ nap_server_port self' = nap_server_port self
  /\ openrouter_api_keys self' = openrouter_api_keys self
  /\ max_retry_attempts self' = max_retry_attempts self.

(** What a computation may do: it leaves the setup alone, and [Q] holds of
    every call it makes. *)
Definition respects {A} (Q : effect -> Prop) (m : M A) : Prop :=
  forall self,
    same_setup self (self_of (m self)) /\ Forall Q (trace_of (m self)).

(** A call that is not a save of the records. *)
Definition not_a_save (e : effect) : Prop := is_save e = false.

(** The failure messages of lines 258 and 402. *)
Definition pic_gen_failure : string :=
  "图像生成失败，请检查API配置和网络连接。".

Definition figure_transform_failure : string :=
  "手办化处理失败，请检查API配置和网络连接。".

(** The generation client answers every request with a pair of which the
    URL or the path is [None] or empty. *)
Definition answers_nothing (env : host) : Prop :=
  forall request,
    exists image_url image_path,
      generate_image_openrouter env request = Ok (image_url, image_path)
      /\ (truthy image_url = false \/ truthy image_path = false).

(** The generation client answers every request with [image_url] and
    [image_path]. *)
Definition answers_image (env : host) (image_url image_path : string)
  : Prop :=
  forall request,
    generate_image_openrouter env request
    = Ok (Some image_url, Some image_path).

(** The delivery calls of a trace: those of the relay, then those of the
    delivery step on the path the relay returned. *)
Definition delivery_calls (env : host) (image_path : string) (self : plugin)
  : list effect :=
  let relay := relay_to_nap_server env image_path self in
  List.filter is_delivery (trace_of relay)
  ++ match result_of relay with
     | Ok path => trace_of (send_image_with_callback_api env path self)
     | Raise _ => []
     end.

(** The address and the port of the companion server are the same. *)
Definition same_companion (self self' : plugin) : Prop :=
  nap_server_address self' = nap_server_address self
  /\ nap_server_port self' = nap_server_port self.

(** ** A sample deployment *)

Module Sample.

Definition alice_entry : limit_entry :=
  {| item_user_id := Some "alice"%string;
     item_group_id := None;
     item_limit := Some 2 |}.

Definition lounge_entry : limit_entry :=
  {| item_user_id := None;
     item_group_id := Some "lounge"%string;
     item_limit := Some 5 |}.

Definition policy : rate_limit :=
  {| enabled := Some true;
     default_limit := None;
     user_limits := Some (LimitList [NotADict; Entry alice_entry]);
     group_limits := Some (LimitList [Entry lounge_entry]);
     reset_interval_minutes := None |}.

Definition instance (records : gmap string usage_record) : plugin :=
  {| openrouter_api_keys := ["key-1"%string];
     custom_api_base := "";
     model_name := "google/gemini-2.5-flash-image-preview:free";
     max_retry_attempts := 3;
     nap_server_address := None;
     nap_server_port := None;
     rate_limit_config := policy;
     usage_records := records;
     _global_config_loaded := true |}.

(** The same instance with a companion server configured. *)
Definition remote_instance (address : option string) : plugin :=
  {| openrouter_api_keys := ["key-1"%string];
     custom_api_base := "";
     model_name := "google/gemini-2.5-flash-image-preview:free";
     max_retry_attempts := 3;
     nap_server_address := address;
     nap_server_port := Some 3658;
     rate_limit_config := policy;
     usage_records := ∅;
     _global_config_loaded := true |}.

Definition picture : component := ImageComp (Ok "aGVsbG8="%string).

(** Alice writing in private, Alice and Bob writing in the lounge, and a
    stranger writing in private. *)
Definition alice_private : AstrMessageEvent :=
  {| get_sender_id := "alice"; get_group_id := Some ""%string;
     message := Some [picture] |}.
Definition alice_in_lounge : AstrMessageEvent :=
  {| get_sender_id := "alice"; get_group_id := Some "lounge"%string;
     message := Some [picture] |}.
Definition bob_in_lounge : AstrMessageEvent :=
  {| get_sender_id := "bob"; get_group_id := Some "lounge"%string;
     message := Some [OtherComp; Reply [picture]] |}.
Definition stranger : AstrMessageEvent :=
  {| get_sender_id := "carol"; get_group_id := None; message := None |}.

Definition timeout_error : exn :=
  {| exn_type := TimeoutError; exn_str := "timed out" |}.
Definition value_error : exn :=
  {| exn_type := OtherException; exn_str := "bad response" |}.

(** A host whose generation client answers [generated]. *)
Definition host_answering (now : Z)
    (generated : outcome (option string * option string))
    (callback : option string) (link : outcome string) : host :=
  {| clock := now;
     global_get := Raise value_error;
     generate_image_openrouter := fun _ => generated;
     send_file := fun path _ _ => Ok ("/remote/" +:+ path);
     callback_api_base := callback;
     convert_to_web_link := fun _ => link |}.

End Sample.

(** * The constructor and the configuration commands *)

(** ** Text operations of Python *)

(** Strings are sequences of bytes, the UTF-8 encoding of the Python
    string. *)
Definition byte (c : Ascii.ascii) : N := Ascii.N_of_ascii c.

(** The whitespace characters of [str.strip()] below U+0080: U+0009 to
    U+000D, U+001C to U+001F and the space. *)
Definition whitespace1 (c : Ascii.ascii) : bool :=
  ((9 <=? byte c) && (byte c <=? 13) || (28 <=? byte c) && (byte c <=? 32))%N.

(** U+0085 and U+00A0, encoded on two bytes. *)
Definition whitespace2 (c1 c2 : Ascii.ascii) : bool :=
  ((byte c1 =? 194) && ((byte c2 =? 133) || (byte c2 =? 160)))%N.

(** U+1680, U+2000 to U+200A, U+2028, U+2029, U+202F, U+205F and U+3000,
    encoded on three bytes. *)
Definition whitespace3 (c1 c2 c3 : Ascii.ascii) : bool :=
  ((byte c1 =? 225) && (byte c2 =? 154) && (byte c3 =? 128)
   || (byte c1 =? 226) && (byte c2 =? 128)
      && ((128 <=? byte c3) && (byte c3 <=? 138)
          || (byte c3 =? 168) || (byte c3 =? 169) || (byte c3 =? 175))
   || (byte c1 =? 226) && (byte c2 =? 129) && (byte c3 =? 159)
   || (byte c1 =? 227) && (byte c2 =? 128) && (byte c3 =? 128))%N.

(** [str.lstrip()]: drops the whitespace characters at the start. *)
Fixpoint lstrip (s : list Ascii.ascii) : list Ascii.ascii :=
  match s with
  | [] => []
  | c1 :: r1 =>
      if whitespace1 c1 then lstrip r1
      else
        match r1 with
        | [] => s
        | c2 :: r2 =>
            if whitespace2 c1 c2 then lstrip r2
            else
              match r2 with
              | [] => s
              | c3 :: r3 => if whitespace3 c1 c2 c3 then lstrip r3 else s
              end
        end
  end.

(** [str.rstrip()] on the reversed sequence of bytes: the last byte of the
    string comes first.  In well-formed UTF-8 the bytes of a whitespace
    character at the end of the string are the encoding of the last
    character. *)
Fixpoint rstrip_reversed (s : list Ascii.ascii) : list Ascii.ascii :=
  match s with
  | [] => []
  | c1 :: r1 =>
      if whitespace1 c1 then rstrip_reversed r1
      else
        match r1 with
        | [] => s
        | c2 :: r2 =>
            if whitespace2 c2 c1 then rstrip_reversed r2
            else
              match r2 with
              | [] => s
              | c3 :: r3 =>
                  if whitespace3 c3 c2 c1 then rstrip_reversed r3 else s
              end
        end
  end.

(** [str.strip()]. *)
Definition strip (s : string) : string :=
  String.string_of_list_ascii
    (rev (rstrip_reversed
            (rev (lstrip (String.list_ascii_of_string s))))).

(** [str.lower()] on the letters A to Z.  Python also maps letters outside
    ASCII, none of them to a letter of the four words that [is_yes] looks
    for, so the test is the one the code makes. *)
Definition lower_byte (c : Ascii.ascii) : Ascii.ascii :=
  if ((65 <=? byte c) && (byte c <=? 90))%N
  then Ascii.ascii_of_N (byte c + 32)
  else c.

Definition lower (s : string) : string :=
  String.string_of_list_ascii
    (map lower_byte (String.list_ascii_of_string s)).

(** Lines 296 and 328: [save_global.lower() in ["true", "1", "yes", "y"]]. *)
Definition is_yes (save_global : string) : bool :=
  bool_decide (lower save_global ∈ ["true"; "1"; "yes"; "y"]%string).

(** ** The records file, [_load_usage_records] *)

(** What the file system answers to the constructor: whether the records
    file exists, what reading and decoding it gives, and what creating its
    directory gives. *)
Record disk := {
  records_file_exists : bool;
  read_records_file : outcome (gmap string usage_record);
  make_directory : outcome unit
}.

(** Lines 64-80. *)
Definition _load_usage_records (files : disk) : M unit :=
  try_except
    (if records_file_exists files
     then
       records <- await (read_records_file files) ;;
       modify (set_usage_records records)
     else await (make_directory files))
    (fun e => ret tt).

(** ** The constructor, [__init__] *)

(** The configuration dict of the plugin; a field is [None] when the key is
    missing. *)
Record configuration := {
  config_openrouter_api_keys : option (list string);
  config_openrouter_api_key : option string;
  config_custom_api_base : option string;
  config_model_name : option string;
  config_max_retry_attempts : option Z;
  config_nap_server_address : option string;
  config_nap_server_port : option Z;
  config_rate_limit : option rate_limit
}.

(** [config.get("rate_limit", {})] when the key is missing. *)
Definition empty_rate_limit : rate_limit :=
  {| enabled := None;
     default_limit := None;
     user_limits := None;
     group_limits := None;
     reset_interval_minutes := None |}.

(** Lines 26-29: the list of keys, or the key of the older configuration
    format when the list is empty. *)
Definition configured_keys (config : configuration) : list string :=
  let keys := default [] (config_openrouter_api_keys config) in
  let old_api_key := config_openrouter_api_key config in
  if truthy old_api_key && bool_decide (keys = [])
  then [default ""%string old_api_key]
  else keys.

(** Lines 18-45. *)
Definition __init__ (config : configuration) (files : disk) : plugin :=
  let self :=
    {| openrouter_api_keys := configured_keys config;
       custom_api_base :=
         strip (default ""%string (config_custom_api_base config));
       model_name :=
         strip (default "google/gemini-2.5-flash-image-preview:free"%string
                  (config_model_name config));
       max_retry_attempts := default 3 (config_max_retry_attempts config);
       nap_server_address := config_nap_server_address config;
       nap_server_port := config_nap_server_port config;
       rate_limit_config :=
         default empty_rate_limit (config_rate_limit config);
       usage_records := ∅;
       _global_config_loaded := false |} in
  self_of (_load_usage_records files self).

(** ** The [banana] commands *)

(** The calls of a command: those the handlers make too, and the write of
    the global store. *)
Inductive command_effect :=
| Plugin (e : effect)
| GlobalPut (config : global_config).

(** What the global store answers to a command that saves: the read of
    the stored dict and the write of the updated one. *)
Record store := {
  stored_config : outcome global_config;
  global_put : global_config -> outcome unit
}.

Definition C (A : Type) : Type :=
  plugin -> outcome A * plugin * list command_effect.

Definition cret {A} (a : A) : C A := fun self => (Ok a, self, []).

Definition cbind {A B} (m : C A) (k : A -> C B) : C B := fun self =>
  match m self with
  | (Ok a, self1, t1) =>
      let '(r, self2, t2) := k a self1 in (r, self2, t1 ++ t2)
  | (Raise e, self1, t1) => (Raise e, self1, t1)
  end.

Definition ctry_except {A} (body : C A) (handler : exn -> C A) : C A :=
  fun self =>
  match body self with
  | (Ok a, self1, t1) => (Ok a, self1, t1)
  | (Raise e, self1, t1) =>
      let '(r, self2, t2) := handler e self1 in (r, self2, t1 ++ t2)
  end.

Definition cemit (e : command_effect) : C unit :=
  fun self => (Ok tt, self, [e]).

Definition cget : C plugin := fun self => (Ok self, self, []).

Definition cmodify (f : plugin -> plugin) : C unit :=
  fun self => (Ok tt, f self, []).

Definition cawait {A} (o : outcome A) : C A :=
  fun self => (o, self, []).

(** A method of the plugin, run inside a command. *)
Definition lift {A} (m : M A) : C A := fun self =>
  let '(r, self1, t) := m self in (r, self1, map Plugin t).

Definition reply (text : string) : C unit :=
  cemit (Plugin (Yield (plain_result text))).

Notation "x <~ m ;; k" := (cbind m (fun x => k))
  (at level 100, m at next level, right associativity).
Notation "m ~;; k" := (cbind m (fun _ => k))
  (at level 100, right associativity).

Definition set_stored_api_base (v : string) (config : global_config)
  : global_config :=
  {| global_custom_api_base := Some v;
     global_model_name := global_model_name config |}.

Definition set_stored_model_name (v : string) (config : global_config)
  : global_config :=
  {| global_custom_api_base := global_custom_api_base config;
     global_model_name := Some v |}.

(** Lines 277-306, [/banana baseurl].  [new_base_url] is [None] when the
    command is given no argument. *)
Definition switch_base_url (env : host) (saved : store)
    (event : AstrMessageEvent) (new_base_url : option string)
    (save_global : string) : C unit :=
  lift (_load_global_config env) ~;;
  self <~ cget ;;
  if negb (truthy new_base_url)
  then
    let current_url :=
      if String.eqb (custom_api_base self) ""
      then "https://openrouter.ai/api/v1"%string
      else custom_api_base self in
    reply ("当前 base URL: " +:+ current_url +:+ "
使用方法:
/banan baseurl <新的base_url> [true] - true表示永久保存")
  else
    cmodify (set_custom_api_base (strip (default ""%string new_base_url))) ~;;
    self <~ cget ;;
    if is_yes save_global
    then
      ctry_except
        (cemit (Plugin GlobalGet) ~;;
         plugin_config <~ cawait (stored_config saved) ;;
         let plugin_config :=
           set_stored_api_base (custom_api_base self) plugin_config in
         cemit (GlobalPut plugin_config) ~;;
         cawait (global_put saved plugin_config) ~;;
         reply ("已永久切换 base URL 到: " +:+ custom_api_base self))
        (fun e =>
           reply ("已临时切换 base URL，但保存全局配置失败: " +:+ exn_str e))
    else reply ("已临时切换 base URL 到: " +:+ custom_api_base self).

(** Lines 308-338, [/banana model]. *)
Definition switch_model (env : host) (saved : store)
    (event : AstrMessageEvent) (new_model : option string)
    (save_global : string) : C unit :=
  lift (_load_global_config env) ~;;
  self <~ cget ;;
  if negb (truthy new_model)
  then
    reply ("当前模型: " +:+ model_name self +:+ "
使用方法:
/banan model <模型名> [true] - true表示永久保存")
  else
    cmodify (set_model_name (strip (default ""%string new_model))) ~;;
    self <~ cget ;;
    if is_yes save_global
    then
      ctry_except
        (cemit (Plugin GlobalGet) ~;;
         plugin_config <~ cawait (stored_config saved) ;;
         let plugin_config :=
           set_stored_model_name (model_name self) plugin_config in
         cemit (GlobalPut plugin_config) ~;;
         cawait (global_put saved plugin_config) ~;;
         reply ("已永久切换模型到: " +:+ model_name self))
        (fun e =>
           reply ("已临时切换模型，但保存全局配置失败: " +:+ exn_str e))
    else reply ("已临时切换模型到: " +:+ model_name self).

(** ** More observations of runs *)

Definition is_yield (e : effect) : bool :=
  match e with
  | Yield _ => true
  | _ => false
  end.

(** The trace ends with a reply to the host, the only one it holds. *)
Definition ends_with_reply (trace : list effect) : Prop :=
  exists t r, trace = t ++ [Yield r] /\ Forall (fun e => is_yield e = false) t.

Definition is_new_image (e : effect) : bool :=
  match e with
  | NewImage _ => true
  | _ => false
  end.

(** The generation client raises [e] at every request. *)
Definition generation_raises (env : host) (e : exn) : Prop :=
  forall request, generate_image_openrouter env request = Raise e.

(** What the generation block of a handler leaves when the generation
    client or the file transfer raises: the calls made so far, none of which
    builds an image, then the reply [failure]. *)
Definition failed_draw (failure : string)
    (run : outcome unit * plugin * list effect) : Prop :=
  exists self1 t calls,
    run = (Ok tt, self1, t ++ calls ++ [Yield (plain_result failure)])
    /\ Forall (fun ev => is_bookkeeping ev = true) t
    /\ Forall (fun ev => is_yield ev = false /\ is_new_image ev = false)
         calls.

(** The generation client raises at every request, or answers a picture
    that the file transfer to a remote companion server fails to send. *)
Definition draw_fails (env : host) (self : plugin) (e : exn) : Prop :=
  generation_raises env e
  \/ exists image_url image_path address,
      answers_image env image_url image_path
      /\ image_url <> ""%string /\ image_path <> ""%string
      /\ nap_server_address self = Some address
      /\ address <> ""%string /\ address <> "localhost"%string
      /\ send_file env image_path address (nap_server_port self) = Raise e.

(** The requests sent to the generation client, in order. *)
Definition generate_calls (t : list effect) : list generation_request :=
  flat_map (fun e => match e with Generate r => [r] | _ => [] end) t.

(** The mappings handed to [_save_usage_records], in order. *)
Definition saves (t : list effect) : list (gmap string usage_record) :=
  flat_map (fun e => match e with SaveRecords m => [m] | _ => [] end) t.

(** ** Observing the commands *)

Definition command_result {A} (r : outcome A * plugin * list command_effect)
  : outcome A := r.1.1.
Definition command_self {A} (r : outcome A * plugin * list command_effect)
  : plugin := r.1.2.
Definition command_calls {A} (r : outcome A * plugin * list command_effect)
  : list command_effect := r.2.

(** What a command replies to the host, in order. *)
Definition replies (t : list command_effect) : list MessageEventResult :=
  flat_map (fun e => match e with Plugin (Yield r) => [r] | _ => [] end) t.

(** The dicts a command writes to the global store, in order. *)
Definition puts (t : list command_effect) : list global_config :=
  flat_map (fun e => match e with GlobalPut c => [c] | _ => [] end) t.

(** The reads of the global store a command makes. *)
Definition store_reads (t : list command_effect) : nat :=
  length (List.filter
            (fun e => match e with Plugin GlobalGet => true | _ => false end)
            t).

(** ** More sample data *)

Module Example.

(** An instance with a policy and records of one's choice. *)
Definition instance_with (policy : rate_limit)
    (records : gmap string usage_record) (loaded : bool) : plugin :=
  {| openrouter_api_keys := ["key-1"%string; "key-2"%string];
     custom_api_base := "";
     model_name := "google/gemini-2.5-flash-image-preview:free";
     max_retry_attempts := 3;
     nap_server_address := Some "192.168.1.20"%string;
     nap_server_port := Some 3658;
     rate_limit_config := policy;
     usage_records := records;
     _global_config_loaded := loaded |}.




(** Bob writing in private. *)
Definition bob_private : AstrMessageEvent :=
  {| get_sender_id := "bob"; get_group_id := None; message := None |}.

(** A message with two pictures, one of which cannot be converted, text,
    and a quoted message with a picture and a nested quotation. *)
Definition broken_picture : component :=
  ImageComp (Raise Sample.value_error).
Definition second_picture : component := ImageComp (Ok "d29ybGQ="%string).
Definition collage : AstrMessageEvent :=
  {| get_sender_id := "carol"; get_group_id := None;
     message :=
       Some [OtherComp; Sample.picture; broken_picture;
             Reply [second_picture; Reply [Sample.picture]; OtherComp]] |}.

(** A global store that holds a model name and accepts writes, and one
    whose writes fail. *)
Definition stored_model : global_config :=
  {| global_custom_api_base := None;
     global_model_name := Some "other/model"%string |}.

Definition working_store : store :=
  {| stored_config := Ok stored_model;
     global_put := fun _ => Ok tt |}.

Definition read_only_store : store :=
  {| stored_config := Ok stored_model;
     global_put := fun _ => Raise Sample.timeout_error |}.

(** The host seen by an instance started after the global store was given
    [config]. *)
Definition host_with_store (config : global_config) : host :=
  {| clock := 5000;
     global_get := Ok config;
     generate_image_openrouter := fun _ => Raise Sample.timeout_error;
     send_file := fun path _ _ => Ok path;
     callback_api_base := None;
     convert_to_web_link := fun _ => Raise Sample.value_error |}.

(** A configuration in the older format, with a single key. *)
Definition old_configuration : configuration :=
  {| config_openrouter_api_keys := Some [];
     config_openrouter_api_key := Some "sk-old"%string;
     config_custom_api_base := Some "  https://first.example/v1 "%string;
     config_model_name := None;
     config_max_retry_attempts := None;
     config_nap_server_address := None;
     config_nap_server_port := None;
     config_rate_limit := Some Sample.policy |}.

(** A records file that cannot be decoded, and one that holds a record. *)
Definition corrupt_file : disk :=
  {| records_file_exists := true;
     read_records_file := Raise Sample.value_error;
     make_directory := Ok tt |}.

Definition file_with (records : gmap string usage_record) : disk :=
  {| records_file_exists := true;
     read_records_file := Ok records;
     make_directory := Ok tt |}.

Definition no_file : disk :=
  {| records_file_exists := false;
     read_records_file := Raise Sample.value_error;
     make_directory := Raise Sample.value_error |}.

End Example.


(** * Line 135 in binary64

    [time_since_last_draw] keeps the quotient of line 135 exact.  The code
    divides two [int]s with [/]: CPython answers the binary64 float nearest
    to the exact quotient, the one of even significand at a tie, and raises
    [OverflowError] when that float would be beyond the largest finite one.
    Line 136 then compares the float with the [int] interval by value.
    This part embeds lines 94-154, and the two handlers that call them, with
    that division; [check_agrees] shows that the two embeddings coincide as
    long as the stored timestamp is less than 2^53 seconds away from the
    reading of the clock. *)

(** The integer nearest to [p / q], the even one at a tie; [0 <= p] and
    [0 < q]. *)
Definition round_half_even (p q : Z) : Z :=
  let floor := p / q in
  match 2 * (p mod q) ?= q with
  | Lt => floor
  | Gt => floor + 1
  | Eq => if Z.even floor then floor else floor + 1
  end.

(** The exponent [e] with [2^e <= a / b < 2^(e+1)]; [0 < a] and [0 < b]. *)
Definition binade (a b : Z) : Z :=
  let k := Z.log2 a - Z.log2 b in
  if (if 0 <=? k then b * 2 ^ k <=? a else b <=? a * 2 ^ (- k))
  then k
  else k - 1.

Definition overflow_error : exn :=
  {| exn_type := OtherException;
     exn_str := "integer division result too large for a float" |}.

(** [n / d] on two [int]s, [0 < d]: the value of the float, as a rational.
    The floats around a quotient of binade [e] are the multiples of
    [2^(e-52)], and the multiples of [2^(-1074)] below the normal range;
    the quotient is rounded to the nearest multiple [m * 2^t], returned in
    lowest terms. *)
Definition true_divide (n d : Z) : outcome Q :=
  if n =? 0 then Ok 0%Q
  else
    let a := Z.abs n in
    let t := Z.max (binade a d - 52) (-1074) in
    if 0 <=? t
    then
      let m := round_half_even a (d * 2 ^ t) in
      if 2 ^ 1024 <=? m * 2 ^ t
      then Raise overflow_error
      else Ok (inject_Z (Z.sgn n * (m * 2 ^ t)))
    else
      let m := round_half_even (a * 2 ^ (- t)) d in
      Ok (Qred (Z.sgn n * m # Z.to_pos (2 ^ (- t)))).

Module Binary64.

(** Line 135. *)
Definition time_since_last_draw (current_timestamp : Z) (r : usage_record)
  : outcome Q :=
  true_divide (current_timestamp - default 0 (timestamp r)) 60.

(** Lines 133-137. *)
Definition current_record (reset_interval current_timestamp : Z)
    (stored : option usage_record) : outcome usage_record :=
  let fresh := {| timestamp := Some current_timestamp; count := 0 |} in
  let user_record := default fresh stored in
  match time_since_last_draw current_timestamp user_record with
  | Ok elapsed =>
      Ok (if Qlt_le_dec (inject_Z reset_interval) elapsed
          then fresh
          else user_record)
  | Raise e => Raise e
  end.

(** Lines 94-154. *)
Definition _check_and_update_limit (event : AstrMessageEvent)
    (current_timestamp : Z) : M (bool * string) :=
  self <- get_self ;;
  let cfg := rate_limit_config self in
  if negb (default false (enabled cfg)) then ret (true, ""%string)
  else
    match resolve_limit cfg event with
    | None => ret (true, ""%string)
    | Some (limit, limit_type) =>
        let reset_interval := default 1440 (reset_interval_minutes cfg) in
        user_record <-
          await (current_record reset_interval current_timestamp
                   (usage_records self !! record_key event)) ;;
        charge_draw event current_timestamp limit limit_type user_record
    end.

(** Successive checks of the same event, one per clock reading; each starts
    from the instance the previous one left. *)
Fixpoint check_sequence (event : AstrMessageEvent) (times : list Z)
    (self : plugin) : list (outcome (bool * string)) :=
  match times with
  | [] => []
  | now :: later =>
      let run := _check_and_update_limit event now self in
      result_of run :: check_sequence event later (self_of run)
  end.

(** Lines 188-270.  The check of line 221 is outside the [try] of lines
    250-270: what it raises leaves the handler. *)
Definition pic_gen (env : host) (event : AstrMessageEvent)
    (image_description : string) (use_reference_images : bool) : M unit :=
  checked <- _check_and_update_limit event (clock env) ;;
  let '(can_draw, message) := checked in
  if negb can_draw then emit (Yield (plain_result message))
  else pic_gen_draw env event image_description use_reference_images message.

(** Lines 341-414, with the check of line 343 outside the [try] of lines
    394-414. *)
Definition figure_transform (env : host) (event : AstrMessageEvent) : M unit :=
  checked <- _check_and_update_limit event (clock env) ;;
  let '(can_draw, message) := checked in
  if negb can_draw then emit (Yield (plain_result message))
  else figure_transform_draw env event message.

End Binary64.

(** ** A deployment with a window of 2^48 minutes *)

Module Eon.

Definition policy : rate_limit :=
  {| enabled := Some true;
     default_limit := None;
     user_limits := Some (LimitList [Entry Sample.alice_entry]);
     group_limits := None;
     reset_interval_minutes := Some (2 ^ 48) |}.

Definition instance (records : gmap string usage_record) : plugin :=
  {| openrouter_api_keys := ["key-1"%string];
     custom_api_base := "";
     model_name := "google/gemini-2.5-flash-image-preview:free";
     max_retry_attempts := 3;
     nap_server_address := None;
     nap_server_port := None;
     rate_limit_config := policy;
     usage_records := records;
     _global_config_loaded := true |}.

(** Alice used her two draws at second 0. *)
Definition used : usage_record := {| timestamp := Some 0; count := 2 |}.

(** One second more than 2^48 minutes later. *)
Definition late : Z := 60 * 2 ^ 48 + 1.

End Eon.
(** * Properties *)

(** ** Running computations *)

Create HintDb monad_ops.
#[local] Hint Unfold ret bind raise try_except emit get_self put_self modify
  await result_of self_of trace_of : monad_ops.

Ltac run_monad := autounfold with monad_ops; simpl.

Lemma usage_records_set m self :
  usage_records (set_usage_records m self) = m.
Proof. reflexivity. Qed.

Lemma rate_limit_config_set m self :
  rate_limit_config (set_usage_records m self) = rate_limit_config self.
Proof. reflexivity. Qed.

(** ** The reset window *)

(** The comparison of line 136, on integers: the elapsed minutes exceed the
    interval exactly when the elapsed seconds exceed sixty times it. *)
Lemma window_expired_iff (reset_interval current_timestamp : Z)
    (r : usage_record) :
  (inject_Z reset_interval < time_since_last_draw current_timestamp r)%Q
  <-> 60 * reset_interval < current_timestamp - default 0 (timestamp r).
Proof. unfold time_since_last_draw, Qlt. simpl. lia. Qed.

Lemma current_record_expired reset_interval current_timestamp r :
  (inject_Z reset_interval < time_since_last_draw current_timestamp r)%Q ->
  current_record reset_interval current_timestamp (Some r)
  = {| timestamp := Some current_timestamp; count := 0 |}.
Proof.
  intros Hlt. unfold current_record. simpl.
  destruct (Qlt_le_dec _ _) as [_ | Hle]; [reflexivity |].
  exfalso. exact (Qlt_not_le _ _ Hlt Hle).
Qed.

Lemma current_record_within reset_interval current_timestamp r :
  (time_since_last_draw current_timestamp r <= inject_Z reset_interval)%Q ->
  current_record reset_interval current_timestamp (Some r) = r.
Proof.
  intros Hle. unfold current_record. simpl.
  destruct (Qlt_le_dec _ _) as [Hlt | _]; [| reflexivity].
  exfalso. exact (Qlt_not_le _ _ Hlt Hle).
Qed.

(** Without a stored record the comparison starts from count 0, whatever the
    interval is. *)
Lemma current_record_missing reset_interval current_timestamp :
  current_record reset_interval current_timestamp None
  = {| timestamp := Some current_timestamp; count := 0 |}.
Proof.
  unfold current_record. simpl. by destruct (Qlt_le_dec _ _).
Qed.

(** ** The two ways out of lines 139-154 *)

Lemma charge_draw_denied event now limit kind r self :
  limit <= count r ->
  charge_draw event now limit kind r self
  = (Ok (false, denial_message limit), self, []).
Proof.
  intros Hle. unfold charge_draw. by rewrite bool_decide_eq_true_2.
Qed.

Lemma charge_draw_permitted event now limit kind r self :
  count r < limit ->
  let records :=
    <[record_key event := {| timestamp := Some now; count := count r + 1 |}]>
      (usage_records self) in
  charge_draw event now limit kind r self
  = (Ok (true,
         success_message kind (get_sender_id event) (limit - (count r + 1))),
     set_usage_records records self,
     [SaveRecords records]).
Proof.
  intros Hlt records. unfold charge_draw.
  rewrite bool_decide_eq_false_2 by lia. reflexivity.
Qed.

(** ** The three ways through lines 98-127 *)

Lemma check_disabled event now self :
  default false (enabled (rate_limit_config self)) = false ->
  _check_and_update_limit event now self = (Ok (true, ""%string), self, []).
Proof.
  intros Hoff. unfold _check_and_update_limit. run_monad. by rewrite Hoff.
Qed.

Lemma check_unlimited event now self :
  resolve_limit (rate_limit_config self) event = None ->
  _check_and_update_limit event now self = (Ok (true, ""%string), self, []).
Proof.
  intros Hnone. unfold _check_and_update_limit. run_monad. rewrite Hnone.
  by destruct (default false _).
Qed.

Lemma check_limited event now self limit kind :
  default false (enabled (rate_limit_config self)) = true ->
  resolve_limit (rate_limit_config self) event = Some (limit, kind) ->
  _check_and_update_limit event now self
  = charge_draw event now limit kind
      (current_record
         (default 1440 (reset_interval_minutes (rate_limit_config self)))
         now (usage_records self !! record_key event))
      self.
Proof.
  intros Hon Hsome. unfold _check_and_update_limit. run_monad.
  rewrite Hon, Hsome. simpl.
  by destruct (charge_draw _ _ _ _ _ _) as [[[] ?] ?].
Qed.

(** With the exact quotient the check never raises, and its trace holds at
    most the save. *)
Lemma check_cases event now self :
  let run := _check_and_update_limit event now self in
  (exists msg, run = (Ok (false, msg), self, []))
  \/ (run = (Ok (true, ""%string), self, []))
  \/ (exists msg records,
        run = (Ok (true, msg), set_usage_records records self,
               [SaveRecords records])).
Proof.
  simpl.
  destruct (default false (enabled (rate_limit_config self))) eqn:Hon;
    [| right; left; by apply check_disabled].
  destruct (resolve_limit (rate_limit_config self) event) as [[limit kind] |]
    eqn:Hres; [| right; left; by apply check_unlimited].
  rewrite (check_limited _ _ _ _ _ Hon Hres).
  set (r := current_record _ _ _).
  destruct (Z_le_gt_dec limit (count r)) as [Hle | Hgt].
  - left. eexists. by apply charge_draw_denied.
  - right; right. do 2 eexists. apply charge_draw_permitted. lia.
Qed.

(** ** Line 135 in binary64 *)

(** The rounded quotient is at most half a unit away from the exact one. *)
Lemma round_half_even_error (p q : Z) :
  0 < q -> - q <= 2 * (q * round_half_even p q - p) <= q.
Proof.
  intros Hq. unfold round_half_even.
  pose proof (Z.div_mod p q ltac:(lia)) as Hdiv.
  pose proof (Z.mod_pos_bound p q Hq) as Hmod.
  destruct (Z.compare_spec (2 * (p mod q)) q) as [Heq | Hlt | Hgt];
    [destruct (Z.even (p / q)) |..]; lia.
Qed.

Lemma binade_bounds (a b : Z) :
  Z.log2 a - Z.log2 b - 1 <= binade a b <= Z.log2 a - Z.log2 b.
Proof.
  unfold binade. destruct (if 0 <=? _ then _ else _); lia.
Qed.

(** A number of seconds below 2^53 in absolute value divided by 60: the
    division returns, and the float compares with an integer as the exact
    quotient does.  The floats around the quotient are 2^-5 apart at most,
    so rounding moves it by 1/64 at most, less than the 1/60 that separates
    a quotient from an integer it is not equal to. *)
Lemma true_divide_60 (n r : Z) :
  Z.abs n < 2 ^ 53 ->
  exists v, true_divide n 60 = Ok v
            /\ ((inject_Z r < v)%Q <-> 60 * r < n).
Proof.
  intros Hn. unfold true_divide.
  destruct (Z.eqb_spec n 0) as [-> | Hnz].
  { exists 0%Q. split; [reflexivity |]. unfold Qlt. simpl. lia. }
  pose proof (binade_bounds (Z.abs n) 60) as Hb.
  assert (Hlog : 0 <= Z.log2 (Z.abs n) < 53).
  { split; [apply Z.log2_nonneg |]. apply Z.log2_lt_pow2; lia. }
  change (Z.log2 60) with 5 in Hb.
  set (e := binade (Z.abs n) 60) in *.
  rewrite Z.max_l by lia.
  destruct (Z.leb_spec 0 (e - 52)) as [? | _]; [lia |].
  set (s := - (e - 52)).
  assert (Hs : 5 <= s) by (unfold s; lia).
  pose proof (Z.pow_le_mono_r 2 5 s ltac:(lia) Hs) as Hpow.
  change (2 ^ 5) with 32 in Hpow.
  pose proof (round_half_even_error (Z.abs n * 2 ^ s) 60 ltac:(lia)) as Herr.
  set (m := round_half_even (Z.abs n * 2 ^ s) 60) in *.
  eexists. split; [reflexivity |].
  rewrite Qred_correct. unfold Qlt. simpl. rewrite Z2Pos.id by lia.
  set (P := 2 ^ s) in *.
  destruct (Z.lt_trichotomy n 0) as [Hneg | [? | Hpos]]; [| lia |].
  - rewrite Z.abs_neq in Herr by lia. rewrite Z.sgn_neg by lia.
    split; intros H.
    + assert ((- n + 60 * r) * P <= -30) by lia.
      assert (~ 0 <= - n + 60 * r) by nia. lia.
    + assert (- n * P <= (- 60 * r - 1) * P)
        by (apply Z.mul_le_mono_nonneg_r; lia).
      lia.
  - rewrite Z.abs_eq in Herr by lia. rewrite Z.sgn_pos by lia.
    split; intros H.
    + assert ((60 * r - n) * P <= -30) by lia.
      assert (~ 0 <= 60 * r - n) by nia. lia.
    + assert ((60 * r + 1) * P <= n * P)
        by (apply Z.mul_le_mono_nonneg_r; lia).
      lia.
Qed.

(** Lines 133-137 with the float and with the exact quotient compute the
    same record, when the stored timestamp is less than 2^53 seconds away
    from the reading of the clock. *)
Lemma current_record_agrees reset_interval now stored :
  (forall r, stored = Some r ->
             Z.abs (now - default 0 (timestamp r)) < 2 ^ 53) ->
  Binary64.current_record reset_interval now stored
  = Ok (current_record reset_interval now stored).
Proof.
  intros Hnear.
  unfold Binary64.current_record, current_record,
    Binary64.time_since_last_draw.
  set (fresh := {| timestamp := Some now; count := 0 |}).
  set (user_record := default fresh stored).
  assert (Hbound : Z.abs (now - default 0 (timestamp user_record)) < 2 ^ 53).
  { unfold user_record. destruct stored as [r |]; simpl.
    - by apply Hnear.
    - rewrite Z.sub_diag. reflexivity. }
  destruct (true_divide_60 _ reset_interval Hbound) as (v & -> & Hiff).
  pose proof (window_expired_iff reset_interval now user_record) as Hexact.
  destruct (Qlt_le_dec _ v) as [Hlt | Hle],
    (Qlt_le_dec _ (time_since_last_draw now user_record)) as [Hlt' | Hle'];
    try reflexivity; exfalso.
  - apply (Qlt_not_le _ _ (proj2 Hexact (proj1 Hiff Hlt)) Hle').
  - apply (Qlt_not_le _ _ (proj2 Hiff (proj1 Hexact Hlt')) Hle).
Qed.

(** So do lines 94-154. *)
Lemma check_agrees event now self :
  (forall r, usage_records self !! record_key event = Some r ->
             Z.abs (now - default 0 (timestamp r)) < 2 ^ 53) ->
  Binary64._check_and_update_limit event now self
  = _check_and_update_limit event now self.
Proof.
  intros Hnear.
  unfold Binary64._check_and_update_limit, _check_and_update_limit, bind,
    get_self.
  cbv beta iota zeta.
  destruct (negb (default false (enabled (rate_limit_config self))));
    [reflexivity |].
  destruct (resolve_limit (rate_limit_config self) event)
    as [[limit kind] |]; [| reflexivity].
  rewrite (current_record_agrees _ _ _ Hnear). simpl.
  by destruct (charge_draw _ _ _ _ _ _) as [[? ?] ?].
Qed.

(** Farther away the two differ.  A record 2^48 minutes and one second old
    is older than a window of 2^48 minutes, but the float quotient is 2^48
    precisely: the stored count stands. *)
Example rounded_quotient_keeps_the_count :
  (inject_Z (2 ^ 48) < time_since_last_draw Eon.late Eon.used)%Q
  /\ Binary64.time_since_last_draw Eon.late Eon.used = Ok (inject_Z (2 ^ 48))
  /\ Binary64.current_record (2 ^ 48) Eon.late (Some Eon.used) = Ok Eon.used
  /\ current_record (2 ^ 48) Eon.late (Some Eon.used)
     = {| timestamp := Some Eon.late; count := 0 |}.
Proof. by vm_compute. Qed.

(** And a timestamp of 401 digits makes the division, hence the check,
    raise. *)
Example huge_timestamp_raises :
  let stored := {| timestamp := Some (- 10 ^ 400); count := 0 |} in
  result_of
    (Binary64._check_and_update_limit Sample.alice_private 1000
       (Sample.instance {[ "user_alice"%string := stored ]}))
  = Raise overflow_error.
Proof. by vm_compute. Qed.

(** The check that divides in binary64 raises before any call, or returns
    after the save at most. *)
Lemma binary64_check_cases event now self :
  let run := Binary64._check_and_update_limit event now self in
  (exists e, run = (Raise e, self, []))
  \/ (exists can_draw message self1 t1,
        run = (Ok (can_draw, message), self1, t1)
        /\ Forall (fun e => is_bookkeeping e = true) t1).
Proof.
  unfold Binary64._check_and_update_limit, bind, get_self.
  cbv beta iota zeta.
  destruct (negb (default false (enabled (rate_limit_config self)))).
  { right. do 4 eexists. split; [reflexivity | constructor]. }
  destruct (resolve_limit (rate_limit_config self) event)
    as [[limit kind] |].
  2: { right. do 4 eexists. split; [reflexivity | constructor]. }
  destruct (Binary64.current_record _ _ _) as [r | e]; simpl.
  - right. unfold ret.
    destruct (Z_le_gt_dec limit (count r)) as [Hle | Hgt].
    + rewrite charge_draw_denied by assumption.
      do 4 eexists. split; [reflexivity | constructor].
    + rewrite charge_draw_permitted by lia.
      do 4 eexists. split; [reflexivity | by repeat constructor].
  - left. by exists e.
Qed.

(** ** C1: the reset window *)




(** ** C2: the Nth draw passes, the next one is denied *)

Lemma seq_head (a n : nat) :
  (0 < n)%nat -> seq a n = a :: seq (S a) (n - 1).
Proof.
  destruct n as [| n]; [lia |]. intros _. simpl. by rewrite Nat.sub_0_r.
Qed.

Section CountingDraws.

Variable event : AstrMessageEvent.
Variable cfg : rate_limit.
Variable N : nat.
Variable kind : limit_kind.

Hypothesis Hon : default false (enabled cfg) = true.
Hypothesis Hres : resolve_limit cfg event = Some (Z.of_nat N, kind).

Let reset_interval := default 1440 (reset_interval_minutes cfg).

(** The answer to the [k]th permitted draw. *)
Let permitted (k : nat) : outcome (bool * string) :=
  Ok (true,
      success_message kind (get_sender_id event) (Z.of_nat N - Z.of_nat k)).

Let denied : outcome (bool * string) := Ok (false, denial_message (Z.of_nat N)).

(** From a record that counts [c] draws, the next [N - c] checks pass and
    the one after them is denied. *)
Lemma check_sequence_from_count later :
  forall self last (c : nat),
    rate_limit_config self = cfg ->
    usage_records self !! record_key event
    = Some {| timestamp := Some last; count := Z.of_nat c |} ->
    (c <= N)%nat ->
    length later = S (N - c) ->
    within_window reset_interval last later ->
    check_sequence event later self
    = map permitted (seq (S c) (N - c)) ++ [denied].
Proof.
  induction later as [| now later IH]; intros self last c Hcfg Hrec Hc Hlen Hwin;
    [discriminate |].
  destruct Hwin as [Hnow Hwin]. simpl in Hlen.
  assert (Hrun : _check_and_update_limit event now self
                 = charge_draw event now (Z.of_nat N) kind
                     {| timestamp := Some last; count := Z.of_nat c |} self).
  { rewrite (check_limited event now self (Z.of_nat N) kind)
      by (rewrite Hcfg; assumption).
    rewrite Hrec, Hcfg. fold reset_interval.
    by rewrite current_record_within. }
  simpl. rewrite Hrun. unfold result_of, self_of.
  destruct (decide (c = N)) as [-> | Hne].
  - rewrite charge_draw_denied by (simpl; lia).
    replace (N - N)%nat with 0%nat in * by lia.
    destruct later; [reflexivity | discriminate].
  - rewrite charge_draw_permitted by (simpl; lia). simpl.
    rewrite (seq_head (S c) (N - c)) by lia.
    replace (N - c - 1)%nat with (N - S c)%nat by lia.
    simpl map. simpl app. f_equal.
    + unfold permitted. do 3 f_equal. lia.
    + apply (IH _ now (S c)).
      * by rewrite rate_limit_config_set.
      * rewrite usage_records_set, lookup_insert_eq. do 2 f_equal. lia.
      * lia.
      * lia.
      * exact Hwin.
Qed.

(** The same from an instance that has no record for the event's key. *)
Lemma check_sequence_from_nothing self now later :
  rate_limit_config self = cfg ->
  usage_records self !! record_key event = None ->
  length later = N ->
  within_window reset_interval now later ->
  check_sequence event (now :: later) self
  = map permitted (seq 1 N) ++ [denied].
Proof.
  intros Hcfg Hrec Hlen Hwin.
  assert (Hrun : _check_and_update_limit event now self
                 = charge_draw event now (Z.of_nat N) kind
                     {| timestamp := Some now; count := 0 |} self).
  { rewrite (check_limited event now self (Z.of_nat N) kind)
      by (rewrite Hcfg; assumption).
    by rewrite Hrec, current_record_missing. }
  simpl. rewrite Hrun. unfold result_of, self_of.
  destruct (decide (N = 0%nat)) as [HN | HN].
  - rewrite charge_draw_denied by (simpl; lia).
    unfold denied. rewrite HN in Hlen |- *.
    destruct later; [reflexivity | discriminate].
  - rewrite charge_draw_permitted by (simpl; lia). simpl.
    rewrite (seq_head 1 N) by lia. simpl map. simpl app. f_equal.
    apply (check_sequence_from_count later _ now 1%nat).
    + by rewrite rate_limit_config_set.
    + by rewrite usage_records_set, lookup_insert_eq.
    + lia.
    + lia.
    + exact Hwin.
Qed.

End CountingDraws.

(** C2.  Rate limiting is enabled, the sender's limit resolves to the
    per-user limit [N], there is no record under the event's key, and the
    [N + 1] checks are made at readings of the clock none of which is more
    than the reset interval after the one before.  Then the first [N] checks
    are permitted, the [k]th answering the message that states [N - k]
    remaining draws, and the last one is denied with the message that cites
    [N]. *)
Theorem C2_limit_is_exact self event (N : nat) now later :
  default false (enabled (rate_limit_config self)) = true ->
  resolve_limit (rate_limit_config self) event = Some (Z.of_nat N, UserLimit) ->
  usage_records self !! record_key event = None ->
  length later = N ->
  within_window
    (default 1440 (reset_interval_minutes (rate_limit_config self)))
    now later ->
  check_sequence event (now :: later) self
  = map (fun k : nat =>
           Ok (true,
               ("用户(" +:+ get_sender_id event +:+ ")绘图成功！您还剩余 "
                  +:+ pretty (Z.of_nat N - Z.of_nat k) +:+ " 次绘图机会。")%string))
      (seq 1 N)
    ++ [Ok (false,
            ("您已达到绘图次数上限（" +:+ pretty (Z.of_nat N)
               +:+ "次），请稍后再试。")%string)].
Proof.
  intros Hon Hres Hrec Hlen Hwin.
  by rewrite (check_sequence_from_nothing event (rate_limit_config self) N
                UserLimit Hon Hres self now later).
Qed.

(** Alice, limited to two draws, asks three times within a quarter of an
    hour. *)
Lemma C2_limit_is_exact_witness :
  check_sequence Sample.alice_private [1000; 1300; 1900] (Sample.instance ∅)
  = [Ok (true, "用户(alice)绘图成功！您还剩余 1 次绘图机会。"%string);
     Ok (true, "用户(alice)绘图成功！您还剩余 0 次绘图机会。"%string);
     Ok (false, "您已达到绘图次数上限（2次），请稍后再试。"%string)].
Proof.
  apply (C2_limit_is_exact (Sample.instance ∅) Sample.alice_private 2
           1000 [1300; 1900]).
  - reflexivity.
  - reflexivity.
  - apply lookup_empty.
  - reflexivity.
  - vm_compute. repeat split; discriminate.
Defined.

(** ** C3: the user's limit first, then the group's, else no limit *)

(** The first item that satisfies the generator condition is the one
    [next] returns. *)
Lemma find_first_match {A} (f : A -> bool) (before after : list A) (x : A) :
  (forall y, y ∈ before -> f y = false) ->
  f x = true ->
  List.find f (before ++ x :: after) = Some x.
Proof.
  intros Hbefore Hx. induction before as [| y before IH]; simpl.
  - by rewrite Hx.
  - rewrite (Hbefore y) by left.
    apply IH. intros z Hz. apply Hbefore. by right.
Qed.

Lemma find_no_match {A} (f : A -> bool) (l : list A) :
  (forall y, y ∈ l -> f y = false) -> List.find f l = None.
Proof.
  intros Hall. induction l as [| y l IH]; simpl; [reflexivity |].
  rewrite (Hall y) by left. apply IH. intros z Hz. apply Hall. by right.
Qed.

Lemma user_limit_of_first cfg user_id before e after :
  user_limits cfg = Some (LimitList (before ++ Entry e :: after)) ->
  (forall e', Entry e' ∈ before -> item_user_id e' <> Some user_id) ->
  item_user_id e = Some user_id ->
  user_limit_of cfg user_id = Some (entry_limit cfg e, UserLimit).
Proof.
  intros Hlist Hbefore He. unfold user_limit_of. rewrite Hlist. simpl.
  rewrite (find_first_match _ before after (Entry e)); [reflexivity | |].
  - intros [| e'] Hin; [reflexivity |]. simpl.
    apply bool_decide_eq_false_2. by apply Hbefore.
  - simpl. by apply bool_decide_eq_true_2.
Qed.

Lemma group_limit_of_first cfg group_id before e after :
  group_limits cfg = Some (LimitList (before ++ Entry e :: after)) ->
  (forall e', Entry e' ∈ before -> item_group_id e' <> Some group_id) ->
  item_group_id e = Some group_id ->
  group_limit_of cfg group_id = Some (entry_limit cfg e, GroupLimit).
Proof.
  intros Hlist Hbefore He. unfold group_limit_of. rewrite Hlist. simpl.
  rewrite (find_first_match _ before after (Entry e)); [reflexivity | |].
  - intros [| e'] Hin; [reflexivity |]. simpl.
    apply bool_decide_eq_false_2. by apply Hbefore.
  - simpl. by apply bool_decide_eq_true_2.
Qed.

Lemma user_limit_of_none cfg user_id :
  no_user_entry cfg user_id -> user_limit_of cfg user_id = None.
Proof.
  intros Hno. unfold user_limit_of.
  destruct (user_limits cfg) as [[| items] |] eqn:Hlist; simpl; try reflexivity.
  rewrite find_no_match; [reflexivity |].
  intros [| e] Hin; [reflexivity |]. simpl.
  apply bool_decide_eq_false_2. by apply (Hno items).
Qed.

Lemma group_limit_of_none cfg group_id :
  no_group_entry cfg group_id -> group_limit_of cfg group_id = None.
Proof.
  intros Hno. unfold group_limit_of.
  destruct (group_limits cfg) as [[| items] |] eqn:Hlist; simpl; try reflexivity.
  rewrite find_no_match; [reflexivity |].
  intros [| e] Hin; [reflexivity |]. simpl.
  apply bool_decide_eq_false_2. by apply (Hno items).
Qed.

Lemma truthy_Some (s : string) : s <> ""%string -> truthy (Some s) = true.
Proof.
  intros Hne. simpl. apply negb_true_iff. by apply String.eqb_neq.
Qed.

Lemma truthy_false (v : option string) :
  truthy v = false <-> v = None \/ v = Some ""%string.
Proof.
  destruct v as [s |]; simpl.
  - rewrite negb_false_iff, String.eqb_eq. split.
    + intros ->. by right.
    + intros [Hnone | Hsome]; congruence.
  - split; [by left | reflexivity].
Qed.

(** C3.  With rate limiting enabled:
    (a) when [user_limits] is a list whose first dict naming the sender is
        [e], the limit is [e]'s (its ["limit"], or the default limit when it
        has none) and is a per-user limit, whatever [group_limits] and the
        event's group are, and the check runs lines 139-154 with it;
    (b) when no dict of [user_limits] names the sender, the event has a
        non-empty group id and [group_limits] is a list whose first dict
        naming the group is [e], the limit is [e]'s and is a per-group
        limit;
    (c) when no dict names the sender and the event has no group id or no
        dict names its group, the check answers [(True, "")], leaves the
        instance (and so every usage record) as it found it and calls
        nothing, whatever the records are. *)
Theorem C3_resolution_order self event now :
  default false (enabled (rate_limit_config self)) = true ->
  let cfg := rate_limit_config self in
  let user_id := get_sender_id event in
  let charge limit kind :=
    charge_draw event now limit kind
      (current_record (default 1440 (reset_interval_minutes cfg)) now
         (usage_records self !! record_key event)) self in
  (forall before e after,
      user_limits cfg = Some (LimitList (before ++ Entry e :: after)) ->
      (forall e', Entry e' ∈ before -> item_user_id e' <> Some user_id) ->
      item_user_id e = Some user_id ->
      resolve_limit cfg event = Some (entry_limit cfg e, UserLimit)
      /\ _check_and_update_limit event now self
         = charge (entry_limit cfg e) UserLimit)
  /\ (forall group_id before e after,
         no_user_entry cfg user_id ->
         get_group_id event = Some group_id ->
         group_id <> ""%string ->
         group_limits cfg = Some (LimitList (before ++ Entry e :: after)) ->
         (forall e', Entry e' ∈ before -> item_group_id e' <> Some group_id) ->
         item_group_id e = Some group_id ->
         resolve_limit cfg event = Some (entry_limit cfg e, GroupLimit)
         /\ _check_and_update_limit event now self
            = charge (entry_limit cfg e) GroupLimit)
  /\ (no_user_entry cfg user_id ->
      (truthy (get_group_id event) = false
       \/ exists group_id, get_group_id event = Some group_id
                           /\ no_group_entry cfg group_id) ->
      resolve_limit cfg event = None
      /\ _check_and_update_limit event now self
         = (Ok (true, ""%string), self, [])).
Proof.
  intros Hon cfg user_id charge. split; [| split].
  - intros before e after Hlist Hbefore He.
    assert (Hres : resolve_limit cfg event
                   = Some (entry_limit cfg e, UserLimit)).
    { unfold resolve_limit. fold user_id.
      by rewrite (user_limit_of_first cfg user_id before e after). }
    split; [exact Hres | by apply check_limited].
  - intros group_id before e after Hno Hgroup Hne Hlist Hbefore He.
    assert (Hres : resolve_limit cfg event
                   = Some (entry_limit cfg e, GroupLimit)).
    { unfold resolve_limit. fold user_id.
      rewrite user_limit_of_none by assumption.
      rewrite Hgroup, truthy_Some by assumption. simpl.
      by apply (group_limit_of_first cfg group_id before e after). }
    split; [exact Hres | by apply check_limited].
  - intros Hno Hgroup.
    assert (Hres : resolve_limit cfg event = None).
    { unfold resolve_limit. fold user_id.
      rewrite user_limit_of_none by assumption.
      destruct Hgroup as [Hfalsy | (group_id & Hgroup & Hnog)].
      - by rewrite Hfalsy.
      - rewrite Hgroup. simpl. rewrite group_limit_of_none by assumption.
        by destruct (negb _). }
    split; [exact Hres | by apply check_unlimited].
Qed.

(** Alice has her own limit of two and writes in the lounge, which has a
    limit of five: her limit applies.  Bob has none: the lounge's applies.
    Carol has none and writes in private: she is not limited. *)
Lemma C3_resolution_order_witness :
  resolve_limit Sample.policy Sample.alice_in_lounge = Some (2, UserLimit)
  /\ resolve_limit Sample.policy Sample.bob_in_lounge = Some (5, GroupLimit)
  /\ _check_and_update_limit Sample.stranger 1000 (Sample.instance ∅)
     = (Ok (true, ""%string), Sample.instance ∅, []).
Proof.
  assert (Hbob : no_user_entry Sample.policy "bob").
  { intros items e [= <-] Hin.
    apply elem_of_cons in Hin as [Heq | Hin]; [discriminate |].
    apply elem_of_cons in Hin as [Heq | Hin];
      [injection Heq as ->; discriminate |].
    by apply elem_of_nil in Hin. }
  assert (Hcarol : no_user_entry Sample.policy "carol").
  { intros items e [= <-] Hin.
    apply elem_of_cons in Hin as [Heq | Hin]; [discriminate |].
    apply elem_of_cons in Hin as [Heq | Hin];
      [injection Heq as ->; discriminate |].
    by apply elem_of_nil in Hin. }
  split; [| split].
  - destruct (C3_resolution_order (Sample.instance ∅) Sample.alice_in_lounge
                1000 eq_refl) as (Huser & _ & _).
    apply (Huser [NotADict] Sample.alice_entry [] eq_refl); [| reflexivity].
    intros e' Hin.
    apply elem_of_cons in Hin as [Heq | Hin]; [discriminate |].
    by apply elem_of_nil in Hin.
  - destruct (C3_resolution_order (Sample.instance ∅) Sample.bob_in_lounge
                1000 eq_refl) as (_ & Hgroup & _).
    apply (Hgroup "lounge"%string [] Sample.lounge_entry [] Hbob eq_refl);
      [discriminate | reflexivity | | reflexivity].
    intros e' Hin. by apply elem_of_nil in Hin.
  - destruct (C3_resolution_order (Sample.instance ∅) Sample.stranger
                1000 eq_refl) as (_ & _ & Hnone).
    apply (Hnone Hcarol). by left.
Defined.

(** ** C4: the record key *)

(** The record that lines 142-144 store is under [record_key], and no other
    key changes. *)
Lemma charge_draw_records event now limit kind r self :
  let run := charge_draw event now limit kind r self in
  (forall key, key <> record_key event ->
               usage_records (self_of run) !! key = usage_records self !! key)
  /\ (forall msg, result_of run = Ok (true, msg) ->
                  usage_records (self_of run) !! record_key event
                  = Some {| timestamp := Some now; count := count r + 1 |}).
Proof.
  simpl. destruct (Z_le_gt_dec limit (count r)) as [Hle | Hgt].
  - rewrite charge_draw_denied by assumption. split; [reflexivity |].
    intros msg. unfold result_of. simpl. discriminate.
  - rewrite charge_draw_permitted by lia. unfold self_of. simpl. split.
    + intros key Hne. by rewrite lookup_insert_ne.
    + intros msg _. by rewrite lookup_insert_eq.
Qed.

(** C4.  For a check that reaches the record lookup (rate limiting enabled,
    a limit resolved, per-user or per-group alike), the key is
    ["group_<id>"] when the event has a non-empty group id and
    ["user_<id>"] of the sender otherwise; the answer depends on the usage
    records through the record under that key only; a permitted check
    stores the incremented record under that key; and no other key is
    touched. *)
Theorem C4_record_key self event now limit kind :
  default false (enabled (rate_limit_config self)) = true ->
  resolve_limit (rate_limit_config self) event = Some (limit, kind) ->
  let key :=
    match get_group_id event with
    | Some group_id =>
        if String.eqb group_id ""
        then ("user_" +:+ get_sender_id event)%string
        else ("group_" +:+ group_id)%string
    | None => ("user_" +:+ get_sender_id event)%string
    end in
  let run := _check_and_update_limit event now self in
  let compared :=
    current_record
      (default 1440 (reset_interval_minutes (rate_limit_config self))) now
      (usage_records self !! key) in
  record_key event = key
  /\ (forall other,
         rate_limit_config other = rate_limit_config self ->
         usage_records other !! key = usage_records self !! key ->
         result_of (_check_and_update_limit event now other) = result_of run)
  /\ (forall msg, result_of run = Ok (true, msg) ->
                  usage_records (self_of run) !! key
                  = Some {| timestamp := Some now;
                            count := count compared + 1 |})
  /\ (forall key', key' <> key ->
                   usage_records (self_of run) !! key'
                   = usage_records self !! key').
Proof.
  intros Hon Hres key run compared.
  assert (Hkey : record_key event = key).
  { unfold record_key, key, truthy.
    destruct (get_group_id event) as [group_id |]; [| reflexivity].
    by destruct (String.eqb group_id ""). }
  split; [exact Hkey |].
  unfold run, compared. rewrite <- Hkey.
  rewrite (check_limited _ _ _ _ _ Hon Hres).
  split; [| split].
  - intros other Hcfg Hrec.
    rewrite (check_limited event now other limit kind)
      by (rewrite Hcfg; assumption).
    rewrite Hcfg, Hrec.
    set (r := current_record _ _ _).
    destruct (Z_le_gt_dec limit (count r)) as [Hle | Hgt].
    + by rewrite !charge_draw_denied.
    + by rewrite !charge_draw_permitted by lia.
  - apply charge_draw_records.
  - apply charge_draw_records.
Qed.

(** Alice, who has a limit of her own, draws in the lounge: the draw is
    counted under the lounge's key, where Bob's draws are counted too, and
    no record is made under Alice's. *)
Lemma C4_record_key_witness :
  let run :=
    _check_and_update_limit Sample.alice_in_lounge 1000 (Sample.instance ∅) in
  record_key Sample.alice_in_lounge = "group_lounge"%string
  /\ record_key Sample.bob_in_lounge = "group_lounge"%string
  /\ usage_records (self_of run) !! "group_lounge"%string
     = Some {| timestamp := Some 1000; count := 1 |}
  /\ usage_records (self_of run) !! "user_alice"%string = None.
Proof.
  intros run.
  destruct (C4_record_key (Sample.instance ∅) Sample.alice_in_lounge 1000
              2 UserLimit eq_refl eq_refl) as (Hkey & _ & Hstored & Hother).
  split; [exact Hkey |]. split; [reflexivity |]. split.
  - exact (Hstored _ eq_refl).
  - unfold run.
    rewrite (Hother "user_alice"%string); [apply lookup_empty | discriminate].
Defined.

(** ** C5: the reset command *)

(** C5.  The reset command replaces the mapping of usage records by the
    empty mapping, calls [_save_usage_records] on it and yields its
    confirmation; and whatever the records were before, the next check of
    any event whose limit [N] is at least 1 compares a fresh record of
    count 0, is permitted with [N - 1] draws remaining, and leaves the
    event's record, of count 1, as the only one. *)
Theorem C5_reset_then_draw self admin_event event now N kind :
  default false (enabled (rate_limit_config self)) = true ->
  resolve_limit (rate_limit_config self) event = Some (N, kind) ->
  1 <= N ->
  let reset := reset_images_command admin_event self in
  let fresh :=
    {[ record_key event := {| timestamp := Some now; count := 1 |} ]} in
  reset
  = (Ok tt, set_usage_records ∅ self,
     [SaveRecords ∅;
      Yield (plain_result "所有用户和群组的绘图次数已成功重置。")])
  /\ usage_records (self_of reset) = ∅
  /\ current_record
       (default 1440 (reset_interval_minutes (rate_limit_config self))) now
       (usage_records (self_of reset) !! record_key event)
     = {| timestamp := Some now; count := 0 |}
  /\ _check_and_update_limit event now (self_of reset)
     = (Ok (true, success_message kind (get_sender_id event) (N - 1)),
        set_usage_records fresh self,
        [SaveRecords fresh]).
Proof.
  intros Hon Hres HN reset fresh.
  assert (Hreset : reset
                   = (Ok tt, set_usage_records ∅ self,
                      [SaveRecords ∅;
                       Yield (plain_result
                                "所有用户和群组的绘图次数已成功重置。")]))
    by reflexivity.
  rewrite Hreset. unfold self_of. simpl.
  split; [reflexivity |]. split; [reflexivity |].
  rewrite lookup_empty, current_record_missing.
  split; [reflexivity |].
  rewrite (check_limited _ _ _ N kind) by assumption.
  simpl. rewrite lookup_empty, current_record_missing.
  rewrite charge_draw_permitted by (simpl; lia).
  simpl. unfold fresh. by rewrite insert_empty.
Qed.

(** Alice used her two draws and is refused; after the reset her next
    draw passes. *)
Lemma C5_reset_then_draw_witness :
  let used := {| timestamp := Some 1000; count := 2 |} in
  let self := Sample.instance {[ "user_alice"%string := used ]} in
  let reset := reset_images_command Sample.stranger self in
  result_of (_check_and_update_limit Sample.alice_private 2000 self)
  = Ok (false, denial_message 2)
  /\ result_of (_check_and_update_limit Sample.alice_private 2000
                  (self_of reset))
     = Ok (true, success_message UserLimit "alice" 1).
Proof.
  intros used self reset. split; [reflexivity |].
  destruct (C5_reset_then_draw self Sample.stranger Sample.alice_private 2000
              2 UserLimit eq_refl eq_refl) as (_ & _ & _ & Hcheck);
    [lia |].
  unfold reset. by rewrite Hcheck.
Defined.

(** ** C9: a denied check changes nothing *)

(** C9.  When the check denies the draw, the instance it leaves is the one
    it found (the mapping of usage records included: no count incremented,
    no timestamp refreshed, no reset record stored) and its trace is empty:
    [_save_usage_records] is not called. *)
Theorem C9_denied_check_is_silent self event now msg :
  result_of (_check_and_update_limit event now self) = Ok (false, msg) ->
  self_of (_check_and_update_limit event now self) = self
  /\ usage_records (self_of (_check_and_update_limit event now self))
     = usage_records self
  /\ trace_of (_check_and_update_limit event now self) = [].
Proof.
  intros Hdenied.
  destruct (check_cases event now self)
    as [[m Hrun] | [Hrun | (m & records & Hrun)]];
    rewrite Hrun in Hdenied |- *; try done.
Qed.

(** Alice used her two draws at second 1000.  At second 5000 she is
    refused; her record is as it was and nothing is saved. *)
Lemma C9_denied_check_is_silent_witness :
  let old := {| timestamp := Some 1000; count := 2 |} in
  let self := Sample.instance {[ "user_alice"%string := old ]} in
  let run := _check_and_update_limit Sample.alice_private 5000 self in
  result_of run = Ok (false, denial_message 2)
  /\ usage_records (self_of run) !! "user_alice"%string = Some old
  /\ trace_of run = [].
Proof.
  intros old self run.
  destruct (C9_denied_check_is_silent self Sample.alice_private 5000
              (denial_message 2) eq_refl) as (Hself & _ & Htrace).
  split; [reflexivity |]. split; [| exact Htrace].
  unfold run. rewrite Hself. reflexivity.
Defined.

(** ** C8: the delivery step always returns an image *)

(** What the three [except] clauses return. *)
Lemma fallback_image image_path (e : exn) self :
  (if is_os_error (exn_type e)
   then new_image (fromFileSystem image_path)
   else if is_network_error (exn_type e)
        then new_image (fromFileSystem image_path)
        else new_image (fromFileSystem image_path)) self
  = (Ok (fromFileSystem image_path), self,
     [NewImage (fromFileSystem image_path)]).
Proof.
  by destruct (exn_type e).
Qed.

Lemma deliver_unconfigured env image_path self :
  truthy (callback_api_base env) = false ->
  send_image_with_callback_api env image_path self
  = (Ok (fromFileSystem image_path), self,
     [NewImage (fromFileSystem image_path)]).
Proof.
  intros Hnone. unfold send_image_with_callback_api. by rewrite Hnone.
Qed.

Lemma deliver_by_link env image_path self url :
  truthy (callback_api_base env) = true ->
  convert_to_web_link env image_path = Ok url ->
  send_image_with_callback_api env image_path self
  = (Ok (fromURL url), self,
     [NewImage (fromFileSystem image_path); ConvertToWebLink image_path;
      NewImage (fromURL url)]).
Proof.
  intros Hbase Hlink. unfold send_image_with_callback_api.
  rewrite Hbase. run_monad. by rewrite Hlink.
Qed.

Lemma deliver_fallback env image_path self e :
  truthy (callback_api_base env) = true ->
  convert_to_web_link env image_path = Raise e ->
  send_image_with_callback_api env image_path self
  = (Ok (fromFileSystem image_path), self,
     [NewImage (fromFileSystem image_path); ConvertToWebLink image_path;
      NewImage (fromFileSystem image_path)]).
Proof.
  intros Hbase Hlink. unfold send_image_with_callback_api.
  rewrite Hbase. simpl. unfold try_except.
  replace ((image_component <- new_image (fromFileSystem image_path) ;;
            emit (ConvertToWebLink image_path) ;;;
            download_url <- await (convert_to_web_link env image_path) ;;
            new_image (fromURL download_url)) self)
    with (@Raise Image e, self,
          [NewImage (fromFileSystem image_path);
           ConvertToWebLink image_path])
    by (run_monad; by rewrite Hlink).
  by rewrite fallback_image.
Qed.

(** The delivery step returns an image, leaves the instance alone, and
    calls nothing but the image constructors and the link conversion. *)
Lemma deliver_run env image_path self :
  exists image t,
    send_image_with_callback_api env image_path self = (Ok image, self, t)
    /\ Forall (fun e => is_delivery e = true /\ is_send_file e = false) t
    /\ forall other,
        send_image_with_callback_api env image_path other
        = (Ok image, other, t).
Proof.
  destruct (truthy (callback_api_base env)) eqn:Hbase.
  - destruct (convert_to_web_link env image_path) as [url | e] eqn:Hlink.
    + do 2 eexists. split; [by apply deliver_by_link |].
      split; [by repeat constructor |].
      intros other. by apply deliver_by_link.
    + do 2 eexists. split; [by eapply deliver_fallback |].
      split; [by repeat constructor |].
      intros other. by eapply deliver_fallback.
  - do 2 eexists. split; [by apply deliver_unconfigured |].
    split; [by repeat constructor |].
    intros other. by apply deliver_unconfigured.
Qed.

(** C8.  [send_image_with_callback_api] returns an image component and
    never raises.  When [callback_api_base] is not configured, the image
    is the local file, built without any attempt at conversion.  When the
    conversion to a web link raises, whatever the exception, the image is
    the local file of the same path; when it answers a link, the image is
    built from that link. *)
Theorem C8_delivery_never_raises env image_path self :
  let run := send_image_with_callback_api env image_path self in
  (exists image, result_of run = Ok image)
  /\ (truthy (callback_api_base env) = false ->
      run = (Ok (fromFileSystem image_path), self,
             [NewImage (fromFileSystem image_path)]))
  /\ (forall e, convert_to_web_link env image_path = Raise e ->
                result_of run = Ok (fromFileSystem image_path))
  /\ (forall url, truthy (callback_api_base env) = true ->
                  convert_to_web_link env image_path = Ok url ->
                  result_of run = Ok (fromURL url)).
Proof.
  simpl. split; [| split; [| split]].
  - destruct (deliver_run env image_path self) as (image & t & Hrun & _).
    exists image. by rewrite Hrun.
  - apply deliver_unconfigured.
  - intros e Hlink. destruct (truthy (callback_api_base env)) eqn:Hbase.
    + by rewrite (deliver_fallback env image_path self e).
    + by rewrite deliver_unconfigured.
  - intros url Hbase Hlink. by rewrite (deliver_by_link env image_path self url).
Qed.

(** The conversion times out, then fails with an error of another class:
    both times the caller gets the local file. *)
Lemma C8_delivery_never_raises_witness :
  let timing_out :=
    Sample.host_answering 1000 (Raise Sample.value_error)
      (Some "https://bot.example"%string) (Raise Sample.timeout_error) in
  let failing :=
    Sample.host_answering 1000 (Raise Sample.value_error)
      (Some "https://bot.example"%string) (Raise Sample.value_error) in
  result_of (send_image_with_callback_api timing_out "/tmp/cat.png"
               (Sample.instance ∅))
  = Ok (fromFileSystem "/tmp/cat.png")
  /\ result_of (send_image_with_callback_api failing "/tmp/cat.png"
                  (Sample.instance ∅))
     = Ok (fromFileSystem "/tmp/cat.png").
Proof.
  intros timing_out failing. split.
  - destruct (C8_delivery_never_raises timing_out "/tmp/cat.png"
                (Sample.instance ∅)) as (_ & _ & Hraise & _).
    exact (Hraise Sample.timeout_error eq_refl).
  - destruct (C8_delivery_never_raises failing "/tmp/cat.png"
                (Sample.instance ∅)) as (_ & _ & Hraise & _).
    exact (Hraise Sample.value_error eq_refl).
Defined.

(** ** Following a handler after the check *)

Lemma bind_run {A B} (m : M A) (k : A -> M B) self a self1 t1 :
  m self = (Ok a, self1, t1) ->
  bind m k self
  = (result_of (k a self1), self_of (k a self1), t1 ++ trace_of (k a self1)).
Proof.
  intros Hm. unfold bind. rewrite Hm.
  by destruct (k a self1) as [[r self2] t2].
Qed.

Lemma same_setup_refl self : same_setup self self.
Proof. by repeat split. Qed.

Lemma same_setup_trans s1 s2 s3 :
  same_setup s1 s2 -> same_setup s2 s3 -> same_setup s1 s3.
Proof.
  unfold same_setup. intros (? & ? & ? & ? & ? & ?) (? & ? & ? & ? & ? & ?).
  repeat split; congruence.
Qed.

Section Respects.

Variable Q : effect -> Prop.

Lemma respects_ret {A} (a : A) : respects Q (ret a).
Proof. intros self. split; [apply same_setup_refl | constructor]. Qed.

Lemma respects_raise {A} (e : exn) : respects Q (@raise A e).
Proof. intros self. split; [apply same_setup_refl | constructor]. Qed.

Lemma respects_await {A} (o : outcome A) : respects Q (await o).
Proof. destruct o; [apply respects_ret | apply respects_raise]. Qed.

Lemma respects_get_self : respects Q get_self.
Proof. intros self. split; [apply same_setup_refl | constructor]. Qed.

Lemma respects_emit (e : effect) : Q e -> respects Q (emit e).
Proof.
  intros He self. split; [apply same_setup_refl | by repeat constructor].
Qed.

Lemma respects_modify (f : plugin -> plugin) :
  (forall self, same_setup self (f self)) -> respects Q (modify f).
Proof. intros Hf self. split; [apply Hf | constructor]. Qed.

Lemma respects_bind {A B} (m : M A) (k : A -> M B) :
  respects Q m -> (forall a, respects Q (k a)) -> respects Q (bind m k).
Proof.
  intros Hm Hk self. specialize (Hm self). unfold bind.
  destruct (m self) as [[[a | e] self1] t1]; [| exact Hm].
  specialize (Hk a self1). destruct (k a self1) as [[r self2] t2].
  unfold self_of, trace_of in *. simpl in *.
  destruct Hm as [HR1 HQ1], Hk as [HR2 HQ2]. split.
  - by apply (same_setup_trans _ self1).
  - by apply Forall_app.
Qed.

Lemma respects_try_except {A} (body : M A) (handler : exn -> M A) :
  respects Q body -> (forall e, respects Q (handler e)) ->
  respects Q (try_except body handler).
Proof.
  intros Hm Hk self. specialize (Hm self). unfold try_except.
  destruct (body self) as [[[a | e] self1] t1]; [exact Hm |].
  specialize (Hk e self1). destruct (handler e self1) as [[r self2] t2].
  unfold self_of, trace_of in *. simpl in *.
  destruct Hm as [HR1 HQ1], Hk as [HR2 HQ2]. split.
  - by apply (same_setup_trans _ self1).
  - by apply Forall_app.
Qed.

End Respects.

(** Breaks a computation down to its calls and its updates. *)
Ltac respects_step :=
  match goal with
  | |- respects _ (bind _ _) => apply respects_bind; [| intros ?]
  | |- respects _ (try_except _ _) =>
      apply respects_try_except; [| intros ?]
  | |- respects _ (ret _) => apply respects_ret
  | |- respects _ (await _) => apply respects_await
  | |- respects _ get_self => apply respects_get_self
  | |- respects _ (emit _) => apply respects_emit
  | |- respects _ (modify _) =>
      apply respects_modify; intros ?; by repeat split
  | |- respects _ (if ?b then _ else _) => destruct b
  | |- respects _ (match ?x with _ => _ end) => destruct x
  | |- respects _ (let '(_, _) := ?p in _) => destruct p
  end.

(** ** What the handlers do after the check: no save *)

Lemma load_global_config_respects env :
  respects not_a_save (_load_global_config env).
Proof.
  unfold _load_global_config. repeat respects_step; done.
Qed.

Lemma deliver_respects env image_path :
  respects not_a_save (send_image_with_callback_api env image_path).
Proof.
  unfold send_image_with_callback_api, new_image.
  repeat respects_step; done.
Qed.

Lemma relay_respects env image_path :
  respects not_a_save (relay_to_nap_server env image_path).
Proof.
  unfold relay_to_nap_server. repeat respects_step; done.
Qed.

Lemma pic_gen_draw_respects env event description use_refs message :
  respects not_a_save (pic_gen_draw env event description use_refs message).
Proof.
  unfold pic_gen_draw.
  repeat first
    [ apply load_global_config_respects
    | apply deliver_respects
    | apply relay_respects
    | respects_step ]; done.
Qed.

Lemma figure_transform_draw_respects env event message :
  respects not_a_save (figure_transform_draw env event message).
Proof.
  unfold figure_transform_draw.
  repeat first
    [ apply load_global_config_respects
    | apply deliver_respects
    | apply relay_respects
    | respects_step ]; done.
Qed.

(** ** The handlers, by the answer of the check *)

Lemma pic_gen_denied env event description use_refs self msg self1 t1 :
  _check_and_update_limit event (clock env) self
  = (Ok (false, msg), self1, t1) ->
  pic_gen env event description use_refs self
  = (Ok tt, self1, t1 ++ [Yield (plain_result msg)]).
Proof.
  intros Hcheck. unfold pic_gen. by rewrite (bind_run _ _ _ _ _ _ Hcheck).
Qed.

Lemma pic_gen_allowed env event description use_refs self msg self1 t1 :
  _check_and_update_limit event (clock env) self
  = (Ok (true, msg), self1, t1) ->
  let draw := pic_gen_draw env event description use_refs msg self1 in
  pic_gen env event description use_refs self
  = (result_of draw, self_of draw, t1 ++ trace_of draw).
Proof.
  intros Hcheck. unfold pic_gen. by rewrite (bind_run _ _ _ _ _ _ Hcheck).
Qed.

Lemma figure_transform_denied env event self msg self1 t1 :
  _check_and_update_limit event (clock env) self
  = (Ok (false, msg), self1, t1) ->
  figure_transform env event self
  = (Ok tt, self1, t1 ++ [Yield (plain_result msg)]).
Proof.
  intros Hcheck. unfold figure_transform.
  by rewrite (bind_run _ _ _ _ _ _ Hcheck).
Qed.

Lemma figure_transform_allowed env event self msg self1 t1 :
  _check_and_update_limit event (clock env) self
  = (Ok (true, msg), self1, t1) ->
  let draw := figure_transform_draw env event msg self1 in
  figure_transform env event self
  = (result_of draw, self_of draw, t1 ++ trace_of draw).
Proof.
  intros Hcheck. unfold figure_transform.
  by rewrite (bind_run _ _ _ _ _ _ Hcheck).
Qed.

(** ** Traces made of bookkeeping calls *)

Lemma bookkeeping_yields t :
  Forall (fun e => is_bookkeeping e = true) t -> yields t = [].
Proof.
  induction 1 as [| e t He _ IH]; [reflexivity |].
  unfold yields in *. simpl. rewrite IH. by destruct e.
Qed.

Lemma bookkeeping_no_delivery t :
  Forall (fun e => is_bookkeeping e = true) t ->
  Forall (fun e => is_delivery e = false) t.
Proof.
  intros Hall. eapply Forall_impl; [exact Hall |]. by intros [].
Qed.

Lemma bookkeeping_no_generate t request :
  Forall (fun e => is_bookkeeping e = true) t -> Generate request ∉ t.
Proof.
  intros Hall Hin. rewrite Forall_forall in Hall.
  by specialize (Hall _ Hin).
Qed.

Lemma yields_app t1 t2 : yields (t1 ++ t2) = yields t1 ++ yields t2.
Proof. unfold yields. apply flat_map_app. Qed.

Lemma generate_calls_app t1 t2 :
  generate_calls (t1 ++ t2) = generate_calls t1 ++ generate_calls t2.
Proof. unfold generate_calls. apply flat_map_app. Qed.

Lemma bookkeeping_generate_calls t :
  Forall (fun e => is_bookkeeping e = true) t -> generate_calls t = [].
Proof.
  induction 1 as [| e t He _ IH]; [reflexivity |].
  unfold generate_calls in *. simpl. rewrite IH. by destruct e.
Qed.

(** [_load_global_config] returns, and calls nothing but the read of the
    global store. *)
Lemma load_global_config_run env self :
  exists self1 t1,
    _load_global_config env self = (Ok tt, self1, t1)
    /\ same_setup self self1
    /\ Forall (fun e => is_bookkeeping e = true) t1.
Proof.
  unfold _load_global_config. run_monad.
  destruct (_global_config_loaded self).
  - do 2 eexists. split; [reflexivity |]. by repeat constructor.
  - destruct (global_get env) as [[[base |] [name |]] | e]; simpl;
      do 2 eexists; (split; [reflexivity |]); by repeat constructor.
Qed.

(** ** C6: no image generated, no delivery *)

Lemma falsy_pair image_url image_path :
  truthy image_url = false \/ truthy image_path = false ->
  negb (truthy image_url) || negb (truthy image_path) = true.
Proof. intros [-> | ->]; [reflexivity | apply orb_true_r]. Qed.

Lemma pic_gen_draw_no_image env event description use_refs message self :
  answers_nothing env ->
  exists self1 t request,
    pic_gen_draw env event description use_refs message self
    = (Ok tt, self1,
       t ++ [Generate request; Yield (plain_result pic_gen_failure)])
    /\ Forall (fun e => is_bookkeeping e = true) t.
Proof.
  intros Hgen. unfold pic_gen_draw.
  destruct (load_global_config_run env self) as (self1 & t1 & Hload & _ & Hbook).
  rewrite (bind_run _ _ _ _ _ _ Hload).
  set (input_images := if use_refs then reference_images event else []).
  destruct (Hgen (generation_request_of self1 description input_images))
    as (image_url & image_path & Hanswer & Hfalsy).
  exists self1, t1, (generation_request_of self1 description input_images).
  split; [| exact Hbook].
  unfold try_except. run_monad. rewrite Hanswer. simpl.
  by rewrite (falsy_pair _ _ Hfalsy).
Qed.

Lemma figure_transform_draw_no_image env event message self :
  answers_nothing env ->
  reference_images event <> [] ->
  exists self1 t request,
    figure_transform_draw env event message self
    = (Ok tt, self1,
       t ++ [Generate request; Yield (plain_result figure_transform_failure)])
    /\ Forall (fun e => is_bookkeeping e = true) t.
Proof.
  intros Hgen Hpicture. unfold figure_transform_draw.
  destruct (load_global_config_run env self) as (self1 & t1 & Hload & _ & Hbook).
  rewrite (bind_run _ _ _ _ _ _ Hload).
  destruct (reference_images event) as [| image images] eqn:Himages;
    [done |].
  destruct (Hgen (generation_request_of self1 figure_prompt (image :: images)))
    as (image_url & image_path & Hanswer & Hfalsy).
  exists self1, t1, (generation_request_of self1 figure_prompt (image :: images)).
  split; [| exact Hbook].
  unfold try_except. run_monad. rewrite Hanswer. simpl.
  by rewrite (falsy_pair _ _ Hfalsy).
Qed.

(** A trace of bookkeeping calls, one generation call and the failure
    message. *)
Lemma failed_generation_trace t request failure :
  Forall (fun e => is_bookkeeping e = true) t ->
  let trace := t ++ [Generate request; Yield (plain_result failure)] in
  generate_calls trace = [request]
  /\ yields trace = [plain_result failure]
  /\ Forall (fun e => is_delivery e = false) trace.
Proof.
  intros Hbook trace. unfold trace. split; [| split].
  - by rewrite generate_calls_app, (bookkeeping_generate_calls _ Hbook).
  - by rewrite yields_app, (bookkeeping_yields _ Hbook).
  - apply Forall_app. split; [by apply bookkeeping_no_delivery |].
    by repeat constructor.
Qed.

(** The check returns, and calls nothing but the save. *)
Lemma check_run event now self :
  exists can_draw message self1 t1,
    _check_and_update_limit event now self
    = (Ok (can_draw, message), self1, t1)
    /\ Forall (fun e => is_bookkeeping e = true) t1.
Proof.
  destruct (check_cases event now self)
    as [[m Hrun] | [Hrun | (m & records & Hrun)]]; rewrite Hrun;
    do 4 eexists; (split; [reflexivity |]); by repeat constructor.
Qed.

(** An allowed check leaves the address and the port of the companion
    server as they were. *)
Lemma check_allowed_run event now self message :
  result_of (_check_and_update_limit event now self) = Ok (true, message) ->
  exists self1 t1,
    _check_and_update_limit event now self = (Ok (true, message), self1, t1)
    /\ same_companion self self1
    /\ Forall (fun e => is_bookkeeping e = true) t1.
Proof.
  intros Hallowed.
  destruct (check_cases event now self)
    as [[m Hrun] | [Hrun | (m & records & Hrun)]];
    rewrite Hrun in Hallowed |- *; unfold result_of in Hallowed;
    simpl in Hallowed; simplify_eq; do 2 eexists;
    (split; [reflexivity |]); by repeat constructor.
Qed.

Lemma binary64_check_allowed_run event now self message :
  result_of (Binary64._check_and_update_limit event now self)
  = Ok (true, message) ->
  exists self1 t1,
    Binary64._check_and_update_limit event now self
    = (Ok (true, message), self1, t1)
    /\ Forall (fun e => is_bookkeeping e = true) t1.
Proof.
  intros Hallowed.
  destruct (binary64_check_cases event now self)
    as [[e Hrun] | (can_draw & m & self1 & t1 & Hrun & Hbook)];
    rewrite Hrun in Hallowed |- *; unfold result_of in Hallowed;
    simpl in Hallowed; simplify_eq.
  by exists self1, t1.
Qed.

(** C6.  The limit check allows the draw (and, for the figure-ify command,
    the message holds a picture), so that the handler reaches the
    generation client; the client answers every request with a pair whose
    URL or path is [None] or empty.  Then the handler returns; it has
    called the client once; the one result it yields is the plain text of
    its failure message; and it makes no call of the delivery step (no file
    transfer, no image component built, no link conversion): after calls of
    bookkeeping, its trace ends with the generation call followed by the
    failure message.  The handlers and the check are those that divide in
    binary64. *)
Theorem C6_no_image_no_delivery env self event description use_refs message
    (run : outcome unit * plugin * list effect) (failure : string) :
  answers_nothing env ->
  result_of (Binary64._check_and_update_limit event (clock env) self)
  = Ok (true, message) ->
  (run = Binary64.pic_gen env event description use_refs self
   /\ failure = "图像生成失败，请检查API配置和网络连接。"%string)
  \/ (run = Binary64.figure_transform env event self
      /\ reference_images event <> []
      /\ failure = "手办化处理失败，请检查API配置和网络连接。"%string) ->
  result_of run = Ok tt
  /\ exists request,
       generate_calls (trace_of run) = [request]
       /\ yields (trace_of run) = [plain_result failure]
       /\ Forall (fun e => is_delivery e = false) (trace_of run)
       /\ exists before,
            trace_of run
            = before ++ [Generate request; Yield (plain_result failure)]
            /\ Forall (fun e => is_bookkeeping e = true) before.
Proof.
  intros Hgen Hallowed Hrun.
  destruct (binary64_check_allowed_run _ _ _ _ Hallowed)
    as (self1 & t1 & Hcheck & Hbook1).
  assert (Hshape : exists self2 before request,
             run = (Ok tt, self2,
                    before ++ [Generate request; Yield (plain_result failure)])
             /\ Forall (fun e => is_bookkeeping e = true) before).
  { destruct Hrun as [[-> ->] | (-> & Hpicture & ->)].
    - unfold Binary64.pic_gen. rewrite (bind_run _ _ _ _ _ _ Hcheck). simpl.
      destruct (pic_gen_draw_no_image env event description use_refs message
                  self1 Hgen) as (self2 & t2 & request & -> & Hbook2).
      exists self2, (t1 ++ t2), request. unfold result_of, self_of, trace_of.
      simpl. rewrite app_assoc. split; [reflexivity | by apply Forall_app].
    - unfold Binary64.figure_transform.
      rewrite (bind_run _ _ _ _ _ _ Hcheck). simpl.
      destruct (figure_transform_draw_no_image env event message self1 Hgen
                  Hpicture) as (self2 & t2 & request & -> & Hbook2).
      exists self2, (t1 ++ t2), request. unfold result_of, self_of, trace_of.
      simpl. rewrite app_assoc. split; [reflexivity | by apply Forall_app]. }
  destruct Hshape as (self2 & before & request & -> & Hbook).
  split; [reflexivity |]. exists request.
  destruct (failed_generation_trace before request failure Hbook)
    as (Hcalls & Hyields & Hquiet).
  unfold trace_of. simpl.
  split; [exact Hcalls |]. split; [exact Hyields |]. split; [exact Hquiet |].
  by exists before.
Qed.

(** The client answers no URL and no path to the tool called for Alice, and
    a URL without a path to her figure-ify command: each time she gets the
    failure message of the handler after one call of the client, and
    nothing is delivered. *)
Lemma C6_no_image_no_delivery_witness :
  let without_both :=
    Sample.host_answering 1000 (Ok (None, None))
      (Some "https://bot.example"%string)
      (Ok "https://bot.example/f/1"%string) in
  let without_path :=
    Sample.host_answering 1000
      (Ok (Some "https://cdn.example/cat.png"%string, Some ""%string))
      (Some "https://bot.example"%string)
      (Ok "https://bot.example/f/1"%string) in
  let tool :=
    Binary64.pic_gen without_both Sample.alice_private "a cat" false
      (Sample.instance ∅) in
  let command :=
    Binary64.figure_transform without_path Sample.alice_private
      (Sample.instance ∅) in
  (yields (trace_of tool)
   = [plain_result "图像生成失败，请检查API配置和网络连接。"]
   /\ length (generate_calls (trace_of tool)) = 1%nat
   /\ Forall (fun e => is_delivery e = false) (trace_of tool))
  /\ (yields (trace_of command)
      = [plain_result "手办化处理失败，请检查API配置和网络连接。"]
      /\ length (generate_calls (trace_of command)) = 1%nat
      /\ Forall (fun e => is_delivery e = false) (trace_of command)).
Proof.
  intros without_both without_path tool command.
  assert (Hboth : answers_nothing without_both).
  { intros request. exists None, None. split; [reflexivity | by left]. }
  assert (Hpath : answers_nothing without_path).
  { intros request. exists (Some "https://cdn.example/cat.png"%string),
      (Some ""%string). split; [reflexivity | by right]. }
  assert (Hallowed :
            result_of (Binary64._check_and_update_limit Sample.alice_private
                         1000 (Sample.instance ∅))
            = Ok (true, success_message UserLimit "alice" 1))
    by (vm_compute; reflexivity).
  assert (Hpicture : reference_images Sample.alice_private <> [])
    by (vm_compute; discriminate).
  split.
  - destruct (C6_no_image_no_delivery without_both (Sample.instance ∅)
                Sample.alice_private "a cat"%string false _ tool
                "图像生成失败，请检查API配置和网络连接。" Hboth Hallowed
                (or_introl (conj eq_refl eq_refl)))
      as (_ & request & Hcalls & Hyields & Hquiet & _).
    split; [exact Hyields |]. split; [by rewrite Hcalls | exact Hquiet].
  - destruct (C6_no_image_no_delivery without_path (Sample.instance ∅)
                Sample.alice_private ""%string true _ command
                "手办化处理失败，请检查API配置和网络连接。" Hpath Hallowed
                (or_intror (conj eq_refl (conj Hpicture eq_refl))))
      as (_ & request & Hcalls & Hyields & Hquiet & _).
    split; [exact Hyields |]. split; [by rewrite Hcalls | exact Hquiet].
Defined.

(** ** C7: the file transfer, only to a remote companion server *)

Arguments relay_to_nap_server : simpl never.
Arguments send_image_with_callback_api : simpl never.

Lemma relay_remote env image_path self address :
  nap_server_address self = Some address ->
  address <> ""%string -> address <> "localhost"%string ->
  exists answer,
    relay_to_nap_server env image_path self
    = (answer, self, [SendFile image_path address (nap_server_port self)]).
Proof.
  intros Haddress Hset Hremote. unfold relay_to_nap_server. run_monad.
  rewrite Haddress. simpl.
  rewrite (proj2 (String.eqb_neq _ _) Hset),
    (proj2 (String.eqb_neq _ _) Hremote). simpl.
  destruct (send_file env image_path address (nap_server_port self));
    by eexists.
Qed.

Lemma relay_local env image_path self :
  nap_server_address self = None
  \/ nap_server_address self = Some ""%string
  \/ nap_server_address self = Some "localhost"%string ->
  relay_to_nap_server env image_path self = (Ok image_path, self, []).
Proof.
  intros Hlocal. unfold relay_to_nap_server. run_monad.
  by destruct Hlocal as [-> | [-> | ->]].
Qed.

Lemma filter_delivery_bookkeeping t :
  Forall (fun e => is_bookkeeping e = true) t ->
  List.filter is_delivery t = [].
Proof.
  induction 1 as [| e t He _ IH]; [reflexivity |].
  simpl. rewrite IH. by destruct e.
Qed.

Lemma filter_delivery_all t :
  Forall (fun e => is_delivery e = true /\ is_send_file e = false) t ->
  List.filter is_delivery t = t.
Proof.
  induction 1 as [| e t [He _] _ IH]; [reflexivity |].
  simpl. by rewrite He, IH.
Qed.

(** Runs a generation block whose client answers an image, up to the
    delivery calls of its trace. *)
Ltac follow_generation Hanswer Hurl Hpath :=
  unfold try_except; run_monad; rewrite Hanswer; simpl;
  rewrite (proj2 (String.eqb_neq _ _) Hurl),
    (proj2 (String.eqb_neq _ _) Hpath); simpl;
  unfold delivery_calls;
  match goal with
  | |- context [relay_to_nap_server ?env ?path ?s] =>
      let relayed := fresh "relayed" in
      let t2 := fresh "t" in
      let t3 := fresh "t" in
      let Hdeliver := fresh "Hdeliver" in
      let Hcalls := fresh "Hcalls" in
      let Hother := fresh "Hother" in
      destruct (relay_to_nap_server env path s)
        as [[[relayed | ?] ?] t2]; simpl;
      [ destruct (deliver_run env relayed s)
          as (? & t3 & Hdeliver & Hcalls & Hother);
        rewrite Hdeliver, (Hother _); simpl;
        rewrite !List.filter_app, (filter_delivery_all _ Hcalls); simpl;
        by rewrite app_nil_r
      | rewrite List.filter_app; reflexivity ]
  end.

Lemma pic_gen_draw_delivery env event description use_refs message self
    image_url image_path :
  answers_image env image_url image_path ->
  image_url <> ""%string -> image_path <> ""%string ->
  exists self1,
    same_setup self self1
    /\ List.filter is_delivery
         (trace_of (pic_gen_draw env event description use_refs message self))
       = delivery_calls env image_path self1.
Proof.
  intros Hanswer Hurl Hpath. unfold pic_gen_draw.
  destruct (load_global_config_run env self)
    as (self1 & t1 & Hload & Hsetup & Hbook).
  rewrite (bind_run _ _ _ _ _ _ Hload).
  exists self1. split; [exact Hsetup |].
  unfold trace_of at 1. simpl.
  rewrite List.filter_app, (filter_delivery_bookkeeping _ Hbook). simpl.
  follow_generation Hanswer Hurl Hpath.
Qed.

Lemma figure_transform_draw_delivery env event message self
    image_url image_path :
  answers_image env image_url image_path ->
  image_url <> ""%string -> image_path <> ""%string ->
  reference_images event <> [] ->
  exists self1,
    same_setup self self1
    /\ List.filter is_delivery
         (trace_of (figure_transform_draw env event message self))
       = delivery_calls env image_path self1.
Proof.
  intros Hanswer Hurl Hpath Himages. unfold figure_transform_draw.
  destruct (load_global_config_run env self)
    as (self1 & t1 & Hload & Hsetup & Hbook).
  rewrite (bind_run _ _ _ _ _ _ Hload).
  exists self1. split; [exact Hsetup |].
  unfold trace_of at 1. simpl.
  rewrite List.filter_app, (filter_delivery_bookkeeping _ Hbook). simpl.
  destruct (reference_images event) as [| image images]; [done |].
  follow_generation Hanswer Hurl Hpath.
Qed.

Lemma delivery_calls_remote env image_path self address :
  nap_server_address self = Some address ->
  address <> ""%string -> address <> "localhost"%string ->
  exists rest,
    delivery_calls env image_path self
    = SendFile image_path address (nap_server_port self) :: rest.
Proof.
  intros Haddress Hset Hremote. unfold delivery_calls.
  destruct (relay_remote env image_path self address Haddress Hset Hremote)
    as [answer ->].
  by eexists.
Qed.

Lemma delivery_calls_local env image_path self other :
  nap_server_address self = None
  \/ nap_server_address self = Some ""%string
  \/ nap_server_address self = Some "localhost"%string ->
  delivery_calls env image_path self
  = trace_of (send_image_with_callback_api env image_path other)
  /\ Forall (fun e => is_send_file e = false)
       (delivery_calls env image_path self).
Proof.
  intros Hlocal. unfold delivery_calls.
  rewrite (relay_local env image_path self Hlocal).
  unfold result_of, trace_of. simpl.
  destruct (deliver_run env image_path self)
    as (image & t & -> & Hcalls & Hother).
  rewrite (Hother other). simpl. split; [reflexivity |].
  eapply Forall_impl; [exact Hcalls |]. by intros e [_ He].
Qed.

(** The address of the companion server is unset, empty or ["localhost"],
    or it is none of them. *)
Lemma address_cases (address : option string) :
  (address = None \/ address = Some ""%string
   \/ address = Some "localhost"%string)
  \/ (exists a, address = Some a /\ a <> ""%string /\ a <> "localhost"%string).
Proof.
  destruct address as [a |]; [| by left; left].
  destruct (decide (a = ""%string)) as [-> | Hset]; [by left; right; left |].
  destruct (decide (a = "localhost"%string)) as [-> | Hremote];
    [by left; right; right |].
  right. by exists a.
Qed.

Lemma send_file_in_filter t path host_name port :
  SendFile path host_name port ∈ t
  <-> SendFile path host_name port ∈ List.filter is_delivery t.
Proof.
  rewrite !list_elem_of_In, List.filter_In.
  split; [intros Hin; by split | by intros [Hin _]].
Qed.

(** C7.  The draw is allowed and the generation client answers a non-empty
    URL and a non-empty path (for the figure-ify command, with a reference
    image in the event).  Then the handler calls the file transfer if and
    only if [nap_server_address] is a non-empty string other than
    ["localhost"]; when it is, the transfer is the first delivery call and
    sends the local path to that address and the configured port; when it
    is unset, empty or ["localhost"], the delivery calls of the run are
    those of [send_image_with_callback_api] on the local path. *)
Theorem C7_relay_only_to_remote env self event description use_refs message
    image_url image_path (run : outcome unit * plugin * list effect) :
  answers_image env image_url image_path ->
  image_url <> ""%string ->
  image_path <> ""%string ->
  result_of (_check_and_update_limit event (clock env) self)
  = Ok (true, message) ->
  run = pic_gen env event description use_refs self
  \/ (reference_images event <> [] /\ run = figure_transform env event self) ->
  ((exists path host_name port, SendFile path host_name port ∈ trace_of run)
   <-> (exists address,
           nap_server_address self = Some address
           /\ address <> ""%string /\ address <> "localhost"%string))
  /\ (forall address,
         nap_server_address self = Some address ->
         address <> ""%string -> address <> "localhost"%string ->
         exists rest,
           List.filter is_delivery (trace_of run)
           = SendFile image_path address (nap_server_port self) :: rest)
  /\ (nap_server_address self = None
      \/ nap_server_address self = Some ""%string
      \/ nap_server_address self = Some "localhost"%string ->
      List.filter is_delivery (trace_of run)
      = trace_of (send_image_with_callback_api env image_path self)).
Proof.
  intros Hanswer Hurl Hpath Hallowed Hrun.
  destruct (check_allowed_run _ _ _ _ Hallowed)
    as (self1 & t1 & Hcheck & [Haddress1 Hport1] & Hbook1).
  assert (Hcalls : exists self2,
             same_setup self1 self2
             /\ List.filter is_delivery (trace_of run)
                = delivery_calls env image_path self2).
  { destruct Hrun as [-> | [Himages ->]].
    - rewrite (pic_gen_allowed _ _ _ _ _ _ _ _ Hcheck).
      destruct (pic_gen_draw_delivery env event description use_refs message
                  self1 image_url image_path Hanswer Hurl Hpath)
        as (self2 & Hsetup & Hdraw).
      exists self2. split; [exact Hsetup |].
      unfold trace_of at 1. simpl.
      by rewrite List.filter_app, (filter_delivery_bookkeeping _ Hbook1).
    - rewrite (figure_transform_allowed _ _ _ _ _ _ Hcheck).
      destruct (figure_transform_draw_delivery env event message self1
                  image_url image_path Hanswer Hurl Hpath Himages)
        as (self2 & Hsetup & Hdraw).
      exists self2. split; [exact Hsetup |].
      unfold trace_of at 1. simpl.
      by rewrite List.filter_app, (filter_delivery_bookkeeping _ Hbook1). }
  destruct Hcalls as (self2 & (_ & _ & Haddress2 & Hport2 & _) & Hcalls).
  rewrite Haddress1 in Haddress2. rewrite Hport1 in Hport2.
  assert (Hremote : forall address,
             nap_server_address self = Some address ->
             address <> ""%string -> address <> "localhost"%string ->
             exists rest,
               List.filter is_delivery (trace_of run)
               = SendFile image_path address (nap_server_port self) :: rest).
  { intros address Haddress Hset Hnot_local. rewrite Hcalls, <- Hport2.
    apply delivery_calls_remote; [congruence | assumption | assumption]. }
  assert (Hlocal : nap_server_address self = None
                   \/ nap_server_address self = Some ""%string
                   \/ nap_server_address self = Some "localhost"%string ->
                   List.filter is_delivery (trace_of run)
                   = trace_of (send_image_with_callback_api env image_path self)
                     /\ Forall (fun e => is_send_file e = false)
                          (List.filter is_delivery (trace_of run))).
  { intros Haddress. rewrite Hcalls.
    apply delivery_calls_local. by rewrite Haddress2. }
  split; [| split; [exact Hremote |]];
    [| intros Haddress; by destruct (Hlocal Haddress)].
  split.
  - intros (path & host_name & port & Hin).
    destruct (address_cases (nap_server_address self)) as [Haddress | Hfar];
      [| exact Hfar].
    destruct (Hlocal Haddress) as [_ Hnone].
    apply send_file_in_filter in Hin.
    rewrite Forall_forall in Hnone. by specialize (Hnone _ Hin).
  - intros (address & Haddress & Hset & Hnot_local).
    destruct (Hremote address Haddress Hset Hnot_local) as [rest Hfilter].
    exists image_path, address, (nap_server_port self).
    apply send_file_in_filter. rewrite Hfilter. apply list_elem_of_here.
Qed.

(** With the companion server on another machine the picture is sent
    there; with ["localhost"] it is not, and the local file is attached. *)
Lemma C7_relay_only_to_remote_witness :
  let env :=
    Sample.host_answering 1000
      (Ok (Some "https://cdn.example/cat.png"%string,
           Some "/tmp/cat.png"%string))
      None (Raise Sample.timeout_error) in
  let far := Sample.remote_instance (Some "192.168.1.20"%string) in
  let near := Sample.remote_instance (Some "localhost"%string) in
  List.filter is_delivery
    (trace_of (pic_gen env Sample.alice_private "a cat" true far))
  = [SendFile "/tmp/cat.png" "192.168.1.20" (Some 3658);
     NewImage (fromFileSystem "/remote//tmp/cat.png")]
  /\ List.filter is_delivery
       (trace_of (pic_gen env Sample.alice_private "a cat" true near))
     = [NewImage (fromFileSystem "/tmp/cat.png")].
Proof.
  intros env far near.
  assert (Hanswer : answers_image env "https://cdn.example/cat.png"
                      "/tmp/cat.png") by (intros request; reflexivity).
  split.
  - reflexivity.
  - assert (Hallowed :
              result_of (_check_and_update_limit Sample.alice_private
                           (clock env) near)
              = Ok (true, success_message UserLimit "alice" 1))
      by (vm_compute; reflexivity).
    destruct (C7_relay_only_to_remote env near Sample.alice_private "a cat"
                true (success_message UserLimit "alice" 1)
                "https://cdn.example/cat.png" "/tmp/cat.png"
                (pic_gen env Sample.alice_private "a cat" true near)
                Hanswer ltac:(discriminate) ltac:(discriminate) Hallowed
                (or_introl eq_refl)) as (_ & _ & Hlocal).
    rewrite Hlocal by (right; right; reflexivity). reflexivity.
Defined.

(** ** C10: an allowed draw is charged before the generation, for good *)

(** C10.  When a limit applies to the event and the check allows the draw,
    both entry points first call [_save_usage_records] on the mapping in
    which the event's record is incremented and stamped; nothing is called
    before that, so every call of the generation client comes after it;
    no later save is made; and the instance the handler leaves still holds
    the incremented mapping, whatever the collaborators answered or
    raised. *)
Theorem C10_draw_is_charged_first env self event description use_refs
    limit kind msg (run : outcome unit * plugin * list effect) :
  default false (enabled (rate_limit_config self)) = true ->
  resolve_limit (rate_limit_config self) event = Some (limit, kind) ->
  result_of (_check_and_update_limit event (clock env) self)
  = Ok (true, msg) ->
  run = pic_gen env event description use_refs self
  \/ run = figure_transform env event self ->
  let compared :=
    current_record
      (default 1440 (reset_interval_minutes (rate_limit_config self)))
      (clock env) (usage_records self !! record_key event) in
  let charged :=
    <[record_key event :=
        {| timestamp := Some (clock env); count := count compared + 1 |}]>
      (usage_records self) in
  exists rest,
    trace_of run = SaveRecords charged :: rest
    /\ Forall (fun e => is_save e = false) rest
    /\ (forall before request after,
           trace_of run = before ++ Generate request :: after ->
           SaveRecords charged ∈ before)
    /\ usage_records (self_of run) = charged.
Proof.
  intros Hon Hres Hallowed Hrun compared charged.
  assert (Hcheck : _check_and_update_limit event (clock env) self
                   = (Ok (true, msg), set_usage_records charged self,
                      [SaveRecords charged])).
  { revert Hallowed. rewrite (check_limited _ _ _ _ _ Hon Hres).
    fold compared.
    destruct (Z_le_gt_dec limit (count compared)) as [Hle | Hgt].
    - by rewrite charge_draw_denied.
    - rewrite charge_draw_permitted by lia. unfold result_of. simpl.
      by intros [= <-]. }
  assert (Hdraw : exists draw : outcome unit * plugin * list effect,
             run = (result_of draw, self_of draw,
                    [SaveRecords charged] ++ trace_of draw)
             /\ same_setup (set_usage_records charged self) (self_of draw)
             /\ Forall not_a_save (trace_of draw)).
  { destruct Hrun as [-> | ->].
    - eexists. split; [by apply pic_gen_allowed |].
      apply pic_gen_draw_respects.
    - eexists. split; [by apply figure_transform_allowed |].
      apply figure_transform_draw_respects. }
  destruct Hdraw as (draw & -> & Hsetup & Hquiet).
  exists (trace_of draw). unfold trace_of at 1, self_of at 1. simpl.
  split; [reflexivity |]. split; [exact Hquiet |]. split.
  - intros [| first before] request after Heq; simplify_eq/=. by left.
  - destruct Hsetup as [Hrecords _]. exact Hrecords.
Qed.

(** Alice draws in private and the generation client raises: the handler
    answers the failure, and her record counts the draw all the same. *)
Lemma C10_draw_is_charged_first_witness :
  let env :=
    Sample.host_answering 1000 (Raise Sample.timeout_error) None
      (Raise Sample.timeout_error) in
  let run := pic_gen env Sample.alice_private "a cat" true (Sample.instance ∅) in
  yields (trace_of run) = [plain_result "图像生成失败: timed out"]
  /\ usage_records (self_of run) !! "user_alice"%string
     = Some {| timestamp := Some 1000; count := 1 |}.
Proof.
  intros env run. split; [reflexivity |].
  assert (Hallowed :
            result_of (_check_and_update_limit Sample.alice_private
                         (clock env) (Sample.instance ∅))
            = Ok (true, success_message UserLimit "alice" 1))
    by (vm_compute; reflexivity).
  destruct (C10_draw_is_charged_first env (Sample.instance ∅)
              Sample.alice_private "a cat" true 2 UserLimit
              (success_message UserLimit "alice" 1) run
              eq_refl eq_refl Hallowed (or_introl eq_refl))
    as (rest & _ & _ & _ & Hrecords).
  rewrite Hrecords. apply lookup_insert_eq.
Defined.

(** * Further properties of the rate limiter *)



(** X1.  A sender whose record has reached the limit (of at least 1) is
    refused at every check made while no more than [reset_interval_minutes]
    have passed since the timestamp of the record, that is since the last
    permitted draw: refused checks do not move that timestamp.  The first
    check made after more than the interval is permitted and announces
    [limit - 1] remaining draws.  The checks divide in binary64; every
    reading of the clock is less than 2^53 seconds away from the timestamp
    of the record. *)
Theorem X1_refused_until_window_passes self event limit kind r times now :
  default false (enabled (rate_limit_config self)) = true ->
  resolve_limit (rate_limit_config self) event = Some (limit, kind) ->
  1 <= limit ->
  usage_records self !! record_key event = Some r ->
  limit <= count r ->
  let reset_interval :=
    default 1440 (reset_interval_minutes (rate_limit_config self)) in
  Forall (fun t => Z.abs (t - default 0 (timestamp r)) < 2 ^ 53)
    (times ++ [now]) ->
  Forall (fun t =>
            (time_since_last_draw t r <= inject_Z reset_interval)%Q) times ->
  (inject_Z reset_interval < time_since_last_draw now r)%Q ->
  Binary64.check_sequence event (times ++ [now]) self
  = map (fun _ => Ok (false, denial_message limit)) times
    ++ [Ok (true, success_message kind (get_sender_id event) (limit - 1))].
Proof.
  intros Hon Hres Hlimit Hrec Hfull reset_interval Hnear Hwithin Hafter.
  apply Forall_app in Hnear as [Hnear Hnow%Forall_inv].
  assert (Hclose : forall t,
             Z.abs (t - default 0 (timestamp r)) < 2 ^ 53 ->
             forall r', usage_records self !! record_key event = Some r' ->
                        Z.abs (t - default 0 (timestamp r')) < 2 ^ 53).
  { intros t Ht r' Hr'. rewrite Hrec in Hr'. by injection Hr' as <-. }
  induction Hwithin as [| t times Ht _ IH].
  - simpl. rewrite (check_agrees _ _ _ (Hclose _ Hnow)).
    rewrite (check_limited _ _ _ _ _ Hon Hres), Hrec.
    fold reset_interval. rewrite current_record_expired by assumption.
    rewrite charge_draw_permitted by (simpl; lia). reflexivity.
  - apply Forall_cons in Hnear as [Hnear_t Hnear].
    simpl. rewrite (check_agrees _ _ _ (Hclose _ Hnear_t)).
    rewrite (check_limited _ _ _ _ _ Hon Hres), Hrec.
    fold reset_interval. rewrite current_record_within by assumption.
    rewrite charge_draw_denied by assumption.
    unfold result_of, self_of. simpl. by rewrite (IH Hnear).
Qed.

(** Alice used her two draws at second 1000.  She is refused an hour later
    and a day later to the second, and allowed one second after that. *)
Lemma X1_refused_until_window_passes_witness :
  let used := {| timestamp := Some 1000; count := 2 |} in
  let self := Sample.instance {[ "user_alice"%string := used ]} in
  Binary64.check_sequence Sample.alice_private [4600; 87400; 87401] self
  = [Ok (false, denial_message 2); Ok (false, denial_message 2);
     Ok (true, success_message UserLimit "alice" 1)].
Proof.
  intros used self.
  apply (X1_refused_until_window_passes self Sample.alice_private 2
           UserLimit used [4600; 87400] 87401).
  - reflexivity.
  - reflexivity.
  - lia.
  - reflexivity.
  - simpl. lia.
  - repeat constructor.
  - repeat constructor; vm_compute; discriminate.
  - vm_compute. reflexivity.
Defined.



(** ** One record per group, one per private sender *)

Lemma record_key_cases event :
  (exists group_id,
      get_group_id event = Some group_id /\ group_id <> ""%string
      /\ record_key event = ("group_" +:+ group_id)%string)
  \/ (truthy (get_group_id event) = false
      /\ record_key event = ("user_" +:+ get_sender_id event)%string).
Proof.
  unfold record_key.
  destruct (get_group_id event) as [group_id |]; simpl; [| by right].
  destruct (String.eqb_spec group_id ""%string) as [-> | Hne]; simpl.
  - by right.
  - left. by exists group_id.
Qed.

(** X3.  Two events have the same record key exactly when they come from
    the same non-empty group, or both come from outside any group and from
    the same sender: a group's key never collides with a sender's, nor two
    groups' or two senders' with each other. *)
Theorem X3_record_keys_do_not_collide event1 event2 :
  record_key event1 = record_key event2
  <-> (exists group_id,
          group_id <> ""%string
          /\ get_group_id event1 = Some group_id
          /\ get_group_id event2 = Some group_id)
      \/ (truthy (get_group_id event1) = false
          /\ truthy (get_group_id event2) = false
          /\ get_sender_id event1 = get_sender_id event2).
Proof.
  split.
  - intros Hkey.
    destruct (record_key_cases event1)
      as [(g1 & Hg1 & Hne1 & Hk1) | [Hf1 Hk1]],
        (record_key_cases event2)
      as [(g2 & Hg2 & Hne2 & Hk2) | [Hf2 Hk2]];
      rewrite Hk1, Hk2 in Hkey; simpl in Hkey; simplify_eq.
    + left. by exists g2.
    + right. by repeat split.
  - intros [(group_id & Hne & Hg1 & Hg2) | (Hf1 & Hf2 & Hsender)].
    + unfold record_key. by rewrite Hg1, Hg2, truthy_Some.
    + unfold record_key. by rewrite Hf1, Hf2, Hsender.
Qed.

(** X4.  A check leaves the answer to any later check of an event with
    another record key as it would have been without it: draws in one group
    or by one private sender are never counted against another. *)
Theorem X4_other_keys_are_not_charged self event1 event2 now1 now2 :
  record_key event1 <> record_key event2 ->
  result_of
    (_check_and_update_limit event2 now2
       (self_of (_check_and_update_limit event1 now1 self)))
  = result_of (_check_and_update_limit event2 now2 self).
Proof.
  intros Hkeys.
  destruct (check_cases event1 now1 self)
    as [[m ->] | [-> | (m & records & Hrun)]]; try reflexivity.
  assert (Hrecords : usage_records
                       (self_of (_check_and_update_limit event1 now1 self))
                     !! record_key event2
                     = usage_records self !! record_key event2).
  { destruct (default false (enabled (rate_limit_config self))) eqn:Hon;
      [| by rewrite check_disabled].
    destruct (resolve_limit (rate_limit_config self) event1)
      as [[limit kind] |] eqn:Hres; [| by rewrite check_unlimited].
    rewrite (check_limited _ _ _ _ _ Hon Hres).
    apply charge_draw_records. congruence. }
  rewrite Hrun in Hrecords |- *. unfold self_of in *. simpl in *.
  destruct (default false (enabled (rate_limit_config self))) eqn:Hon;
    [| by rewrite !check_disabled].
  destruct (resolve_limit (rate_limit_config self) event2)
    as [[limit kind] |] eqn:Hres; [| by rewrite !check_unlimited].
  rewrite (check_limited event2 now2 (set_usage_records records self)
             limit kind) by assumption.
  rewrite (check_limited event2 now2 self limit kind) by assumption.
  simpl. rewrite Hrecords.
  set (r := current_record _ _ _).
  destruct (Z_le_gt_dec limit (count r)) as [Hle | Hgt].
  - by rewrite !charge_draw_denied.
  - by rewrite !charge_draw_permitted by lia.
Qed.

(** Alice uses up her two private draws; Bob in the lounge is answered as
    if she had not drawn. *)
Lemma X4_other_keys_are_not_charged_witness :
  let once :=
    self_of (_check_and_update_limit Sample.alice_private 1000
               (Sample.instance ∅)) in
  result_of (_check_and_update_limit Sample.bob_in_lounge 1100 once)
  = Ok (true, success_message GroupLimit "bob" 4).
Proof.
  intros once. unfold once.
  rewrite (X4_other_keys_are_not_charged (Sample.instance ∅)
             Sample.alice_private Sample.bob_in_lounge 1000 1100).
  - vm_compute. reflexivity.
  - vm_compute. discriminate.
Defined.

(** Alice and Bob in the lounge share a key; Alice in private has her own. *)
Lemma X3_record_keys_do_not_collide_witness :
  record_key Sample.alice_in_lounge = record_key Sample.bob_in_lounge
  /\ record_key Sample.alice_private <> record_key Sample.alice_in_lounge.
Proof.
  split.
  - apply (proj2 (X3_record_keys_do_not_collide Sample.alice_in_lounge
                    Sample.bob_in_lounge)).
    left. exists "lounge"%string. by repeat split.
  - intros Hsame.
    apply (proj1 (X3_record_keys_do_not_collide Sample.alice_private
                    Sample.alice_in_lounge)) in Hsame
      as [(group_id & Hne & Hprivate & _) | (_ & Hlounge & _)].
    + injection Hprivate as <-. by apply Hne.
    + discriminate.
Defined.

(** What a permitted check stores and answers. *)
Lemma check_permitted_run event now self limit kind msg :
  default false (enabled (rate_limit_config self)) = true ->
  resolve_limit (rate_limit_config self) event = Some (limit, kind) ->
  result_of (_check_and_update_limit event now self) = Ok (true, msg) ->
  let compared :=
    current_record
      (default 1440 (reset_interval_minutes (rate_limit_config self))) now
      (usage_records self !! record_key event) in
  let records :=
    <[record_key event :=
        {| timestamp := Some now; count := count compared + 1 |}]>
      (usage_records self) in
  count compared < limit
  /\ _check_and_update_limit event now self
     = (Ok (true,
            success_message kind (get_sender_id event)
              (limit - (count compared + 1))),
        set_usage_records records self, [SaveRecords records]).
Proof.
  intros Hon Hres Hallowed compared records. revert Hallowed.
  rewrite (check_limited _ _ _ _ _ Hon Hres). fold compared.
  destruct (Z_le_gt_dec limit (count compared)) as [Hle | Hgt].
  - by rewrite charge_draw_denied.
  - intros _. split; [lia |]. apply charge_draw_permitted. lia.
Qed.

(** X5.  The members of a group draw on one count.  When a member's draw is
    permitted and another member checks within the reset interval, the
    count compared with the second member's limit is the one the first
    draw left, whichever limits (their own or the group's) apply to the
    two. *)
Theorem X5_group_members_share_the_count self event1 event2 group_id
    now1 now2 limit1 kind1 limit2 kind2 msg :
  default false (enabled (rate_limit_config self)) = true ->
  group_id <> ""%string ->
  get_group_id event1 = Some group_id ->
  get_group_id event2 = Some group_id ->
  resolve_limit (rate_limit_config self) event1 = Some (limit1, kind1) ->
  resolve_limit (rate_limit_config self) event2 = Some (limit2, kind2) ->
  let reset_interval :=
    default 1440 (reset_interval_minutes (rate_limit_config self)) in
  let run1 := _check_and_update_limit event1 now1 self in
  let left_by_first :=
    count (current_record reset_interval now1
             (usage_records self !! ("group_" +:+ group_id)%string)) + 1 in
  result_of run1 = Ok (true, msg) ->
  ((now2 - now1 # 60) <= inject_Z reset_interval)%Q ->
  result_of (_check_and_update_limit event2 now2 (self_of run1))
  = if bool_decide (limit2 <= left_by_first)
    then Ok (false, denial_message limit2)
    else Ok (true,
             success_message kind2 (get_sender_id event2)
               (limit2 - (left_by_first + 1))).
Proof.
  intros Hon Hne Hg1 Hg2 Hres1 Hres2 reset_interval run1 left_by_first
    Hallowed Hwithin.
  assert (Hkey1 : record_key event1 = ("group_" +:+ group_id)%string)
    by (unfold record_key; by rewrite Hg1, truthy_Some).
  assert (Hkey2 : record_key event2 = ("group_" +:+ group_id)%string)
    by (unfold record_key; by rewrite Hg2, truthy_Some).
  destruct (check_permitted_run _ _ _ _ _ _ Hon Hres1 Hallowed)
    as [_ Hrun1].
  unfold run1. rewrite Hrun1. unfold self_of. simpl.
  rewrite (check_limited event2 now2 _ limit2 kind2) by assumption.
  simpl. rewrite Hkey1, Hkey2, lookup_insert_eq.
  fold reset_interval. rewrite current_record_within by exact Hwithin.
  fold left_by_first. case_bool_decide as Hcmp.
  - by rewrite charge_draw_denied.
  - by rewrite charge_draw_permitted by (simpl; lia).
Qed.

(** The lounge allows five draws, Alice's own limit is two.  Bob draws
    once in the lounge; Alice then gets one draw there, not two. *)
Lemma X5_group_members_share_the_count_witness :
  let after_bob :=
    self_of (_check_and_update_limit Sample.bob_in_lounge 1000
               (Sample.instance ∅)) in
  let after_alice :=
    self_of (_check_and_update_limit Sample.alice_in_lounge 1060 after_bob) in
  result_of (_check_and_update_limit Sample.alice_in_lounge 1060 after_bob)
  = Ok (true, success_message UserLimit "alice" 0)
  /\ result_of (_check_and_update_limit Sample.alice_in_lounge 1120
                  after_alice)
     = Ok (false, denial_message 2).
Proof.
  intros after_bob after_alice. split.
  - unfold after_bob.
    rewrite (X5_group_members_share_the_count (Sample.instance ∅)
               Sample.bob_in_lounge Sample.alice_in_lounge "lounge"
               1000 1060 5 GroupLimit 2 UserLimit
               (success_message GroupLimit "bob" 4)).
    + reflexivity.
    + reflexivity.
    + discriminate.
    + reflexivity.
    + reflexivity.
    + reflexivity.
    + reflexivity.
    + vm_compute. reflexivity.
    + vm_compute. discriminate.
  - vm_compute. reflexivity.
Defined.

(** X6.  A permitted check never announces a negative number of remaining
    draws and never stores a count above the limit: the announced number
    [remaining] satisfies [0 <= remaining], and the stored record
    carries the count [limit - remaining] and the time of the check. *)
Theorem X6_remaining_is_never_negative self event now limit kind msg :
  default false (enabled (rate_limit_config self)) = true ->
  resolve_limit (rate_limit_config self) event = Some (limit, kind) ->
  result_of (_check_and_update_limit event now self) = Ok (true, msg) ->
  exists remaining,
    0 <= remaining
    /\ msg = success_message kind (get_sender_id event) remaining
    /\ usage_records (self_of (_check_and_update_limit event now self))
       !! record_key event
       = Some {| timestamp := Some now; count := limit - remaining |}.
Proof.
  intros Hon Hres Hallowed.
  destruct (check_permitted_run _ _ _ _ _ _ Hon Hres Hallowed)
    as [Hlt Hrun].
  rewrite Hrun in Hallowed |- *. unfold result_of, self_of in *.
  simpl in *. injection Hallowed as <-.
  eexists. split; [| split; [reflexivity |]].
  - lia.
  - rewrite lookup_insert_eq. do 2 f_equal. lia.
Qed.

(** Alice's second and last draw announces 0 remaining draws and stores
    the count 2. *)
Lemma X6_remaining_is_never_negative_witness :
  let once := {| timestamp := Some 1000; count := 1 |} in
  let self := Sample.instance {[ "user_alice"%string := once ]} in
  exists remaining,
    0 <= remaining
    /\ usage_records
         (self_of (_check_and_update_limit Sample.alice_private 1300 self))
       !! "user_alice"%string
       = Some {| timestamp := Some 1300; count := 2 - remaining |}.
Proof.
  intros once self.
  destruct (X6_remaining_is_never_negative self Sample.alice_private 1300
              2 UserLimit (success_message UserLimit "alice" 0)
              eq_refl eq_refl eq_refl)
    as (remaining & Hpos & _ & Hstored).
  exists remaining. by split.
Defined.

(** * Further properties of the handlers *)

(** ** Every run ends with its only reply *)

Lemma ends_with_reply_here r : ends_with_reply [Yield r].
Proof. exists [], r. by split. Qed.

Lemma ends_with_reply_app t trace :
  Forall (fun e => is_yield e = false) t ->
  ends_with_reply trace -> ends_with_reply (t ++ trace).
Proof.
  intros Ht (t' & r & -> & Ht'). exists (t ++ t'), r.
  split; [by rewrite app_assoc | by apply Forall_app].
Qed.

Lemma ends_with_reply_cons e trace :
  is_yield e = false -> ends_with_reply trace -> ends_with_reply (e :: trace).
Proof.
  intros He Htrace. apply (ends_with_reply_app [e]); [by constructor | done].
Qed.

Lemma ends_with_reply_yields trace :
  ends_with_reply trace -> exists r, yields trace = [r].
Proof.
  intros (t & r & -> & Ht). exists r. rewrite yields_app.
  replace (yields t) with (@nil MessageEventResult); [reflexivity |].
  induction Ht as [| e t He _ IH]; [reflexivity |].
  unfold yields in *. simpl. rewrite <- IH. by destruct e.
Qed.

Lemma bookkeeping_silent t :
  Forall (fun e => is_bookkeeping e = true) t ->
  Forall (fun e => is_yield e = false) t.
Proof. intros Hall. eapply Forall_impl; [exact Hall |]. by intros []. Qed.

Lemma delivery_silent t :
  Forall (fun e => is_delivery e = true /\ is_send_file e = false) t ->
  Forall (fun e => is_yield e = false) t.
Proof.
  intros Hall. eapply Forall_impl; [exact Hall |]. by intros [] [? ?].
Qed.

(** The relay returns or raises; it leaves the instance alone and calls
    the file transfer at most. *)
Lemma relay_run env image_path self :
  exists answer t,
    relay_to_nap_server env image_path self = (answer, self, t)
    /\ Forall (fun e => is_yield e = false) t
    /\ (t = [] /\ answer = Ok image_path
        \/ exists address,
            nap_server_address self = Some address
            /\ t = [SendFile image_path address (nap_server_port self)]
            /\ answer = send_file env image_path address
                          (nap_server_port self)).
Proof.
  destruct (address_cases (nap_server_address self))
    as [Hlocal | (address & Haddress & Hset & Hfar)].
  - rewrite (relay_local _ _ _ Hlocal). do 2 eexists.
    split; [reflexivity |]. split; [constructor | by left].
  - unfold relay_to_nap_server. run_monad. rewrite Haddress. simpl.
    rewrite (proj2 (String.eqb_neq _ _) Hset),
      (proj2 (String.eqb_neq _ _) Hfar). simpl.
    destruct (send_file env image_path address (nap_server_port self))
      eqn:Hsent; do 2 eexists; (split; [reflexivity |]);
      (split; [by repeat constructor |]); right; by exists address.
Qed.

(** Runs a generation block through every answer of the collaborators. *)
Ltac follow_block :=
  unfold try_except; run_monad;
  match goal with
  | |- context [generate_image_openrouter ?env ?request] =>
      destruct (generate_image_openrouter env request)
        as [[image_url image_path] | ?]; simpl;
      [ destruct (negb (truthy image_url) || negb (truthy image_path));
        simpl;
        [ | match goal with
            | |- context [relay_to_nap_server ?env ?path ?s] =>
                let Hrelay := fresh "Hrelay" in
                let Hquiet := fresh "Hquiet" in
                destruct (relay_run env path s)
                  as (answer & t2 & Hrelay & Hquiet & _);
                rewrite Hrelay; destruct answer as [relayed | ?]; simpl;
                [ let Hdeliver := fresh "Hdeliver" in
                  let Hcalls := fresh "Hcalls" in
                  destruct (deliver_run env relayed s)
                    as (image & t3 & Hdeliver & Hcalls & _);
                  rewrite Hdeliver; simpl
                | ]
            end ]
      | ]
  end.

Lemma pic_gen_draw_run env event description use_refs message self :
  exists self1 trace,
    pic_gen_draw env event description use_refs message self
    = (Ok tt, self1, trace)
    /\ ends_with_reply trace.
Proof.
  unfold pic_gen_draw.
  destruct (load_global_config_run env self)
    as (self1 & t1 & Hload & _ & Hbook%bookkeeping_silent).
  rewrite (bind_run _ _ _ _ _ _ Hload).
  unfold result_of, self_of, trace_of.
  follow_block; do 2 eexists; (split; [reflexivity |]);
    apply ends_with_reply_app; try assumption;
    apply ends_with_reply_cons; try reflexivity;
    repeat (apply ends_with_reply_app; [by auto using delivery_silent |]);
    apply ends_with_reply_here.
Qed.

Lemma figure_transform_draw_run env event message self :
  exists self1 trace,
    figure_transform_draw env event message self = (Ok tt, self1, trace)
    /\ ends_with_reply trace.
Proof.
  unfold figure_transform_draw.
  destruct (load_global_config_run env self)
    as (self1 & t1 & Hload & _ & Hbook%bookkeeping_silent).
  rewrite (bind_run _ _ _ _ _ _ Hload).
  unfold result_of, self_of, trace_of.
  destruct (reference_images event) as [| first_image more_images].
  - do 2 eexists. split; [reflexivity |].
    apply ends_with_reply_app; [assumption | apply ends_with_reply_here].
  - follow_block; do 2 eexists; (split; [reflexivity |]);
      apply ends_with_reply_app; try assumption;
      apply ends_with_reply_cons; try reflexivity;
      repeat (apply ends_with_reply_app; [by auto using delivery_silent |]);
      apply ends_with_reply_here.
Qed.

(** The handlers that divide in binary64 are the handlers of the exact
    quotient, when the stored timestamp is less than 2^53 seconds away from
    the reading of the clock. *)
Lemma handlers_agree env event description use_refs self :
  (forall r, usage_records self !! record_key event = Some r ->
             Z.abs (clock env - default 0 (timestamp r)) < 2 ^ 53) ->
  Binary64.pic_gen env event description use_refs self
  = pic_gen env event description use_refs self
  /\ Binary64.figure_transform env event self = figure_transform env event self.
Proof.
  intros Hnear.
  unfold Binary64.pic_gen, pic_gen, Binary64.figure_transform,
    figure_transform, bind.
  by rewrite (check_agrees _ _ _ Hnear).
Qed.

(** X7.  The limit check is called outside the [try] blocks: an exception
    it raises leaves the LLM tool and the figure-ify command as it is,
    before they have called or answered anything.  Once the check has
    returned, whatever the event, the configuration, the records and the
    answers or exceptions of the collaborators, the handler returns without
    raising and replies exactly once, the reply being the last thing it
    does.  So does every run of the reset command, which makes no check. *)
Theorem X7_handlers_reply_once env self event description use_refs
    (run : outcome unit * plugin * list effect) :
  run = Binary64.pic_gen env event description use_refs self
  \/ run = Binary64.figure_transform env event self
  \/ run = reset_images_command event self ->
  let check :=
    result_of (Binary64._check_and_update_limit event (clock env) self) in
  let replies_once :=
    result_of run = Ok tt
    /\ (exists t r,
           trace_of run = t ++ [Yield r]
           /\ Forall (fun e => is_yield e = false) t)
    /\ exists r, yields (trace_of run) = [r] in
  (run = reset_images_command event self -> replies_once)
  /\ (forall answer, check = Ok answer -> replies_once)
  /\ (forall e, check = Raise e ->
                run <> reset_images_command event self ->
                run = (Raise e, self, [])).
Proof.
  intros Hrun check replies_once.
  assert (Hreset : let run := reset_images_command event self in
                   result_of run = Ok tt /\ ends_with_reply (trace_of run)).
  { split; [reflexivity |].
    apply (ends_with_reply_cons (SaveRecords ∅)); [reflexivity |].
    apply ends_with_reply_here. }
  assert (Hshape :
            (run = reset_images_command event self
             \/ exists answer, check = Ok answer) ->
            result_of run = Ok tt /\ ends_with_reply (trace_of run)).
  { intros Hreturns.
    destruct Hrun as [-> | [-> | ->]]; [| | exact Hreset].
    - destruct (binary64_check_cases event (clock env) self)
        as [[e Hcheck] | ([|] & message & self1 & t1 & Hcheck
                          & Hbook%bookkeeping_silent)].
      + destruct Hreturns as [Heq | [answer Hanswer]].
        * unfold Binary64.pic_gen, bind in Heq. by rewrite Hcheck in Heq.
        * unfold check in Hanswer. by rewrite Hcheck in Hanswer.
      + unfold Binary64.pic_gen. rewrite (bind_run _ _ _ _ _ _ Hcheck).
        simpl.
        destruct (pic_gen_draw_run env event description use_refs message
                    self1) as (self2 & trace & -> & Hends).
        split; [reflexivity |]. by apply ends_with_reply_app.
      + unfold Binary64.pic_gen. rewrite (bind_run _ _ _ _ _ _ Hcheck).
        split; [reflexivity |].
        apply ends_with_reply_app; [assumption | apply ends_with_reply_here].
    - destruct (binary64_check_cases event (clock env) self)
        as [[e Hcheck] | ([|] & message & self1 & t1 & Hcheck
                          & Hbook%bookkeeping_silent)].
      + destruct Hreturns as [Heq | [answer Hanswer]].
        * unfold Binary64.figure_transform, bind in Heq.
          by rewrite Hcheck in Heq.
        * unfold check in Hanswer. by rewrite Hcheck in Hanswer.
      + unfold Binary64.figure_transform.
        rewrite (bind_run _ _ _ _ _ _ Hcheck). simpl.
        destruct (figure_transform_draw_run env event message self1)
          as (self2 & trace & -> & Hends).
        split; [reflexivity |]. by apply ends_with_reply_app.
      + unfold Binary64.figure_transform.
        rewrite (bind_run _ _ _ _ _ _ Hcheck).
        split; [reflexivity |].
        apply ends_with_reply_app; [assumption | apply ends_with_reply_here]. }
  assert (Honce : (run = reset_images_command event self
                   \/ exists answer, check = Ok answer) -> replies_once).
  { intros Hreturns. destruct (Hshape Hreturns) as [Hresult Hends].
    split; [exact Hresult |]. split; [exact Hends |].
    by apply ends_with_reply_yields. }
  split; [intros Heq; apply Honce; by left |].
  split; [intros answer Hanswer; apply Honce; right; by exists answer |].
  intros e Hraise Hhandler. unfold check in Hraise.
  destruct (binary64_check_cases event (clock env) self)
    as [[e' Hcheck] | (can_draw & message & self1 & t1 & Hcheck & _)];
    rewrite Hcheck in Hraise; unfold result_of in Hraise; simpl in Hraise;
    [| discriminate].
  injection Hraise as ->.
  destruct Hrun as [-> | [-> | ->]]; [| | done].
  - unfold Binary64.pic_gen, bind. by rewrite Hcheck.
  - unfold Binary64.figure_transform, bind. by rewrite Hcheck.
Qed.

(** The generation answers a picture but the transfer to the companion
    server times out: the handler still returns, with one reply.  A stored
    timestamp of 401 digits makes the check raise: the handler raises with
    it, and nothing has been called or answered. *)
Lemma X7_handlers_reply_once_witness :
  let env :=
    {| clock := 1000;
       global_get := Raise Sample.value_error;
       generate_image_openrouter :=
         fun _ => Ok (Some "https://cdn.example/cat.png"%string,
                      Some "/tmp/cat.png"%string);
       send_file := fun _ _ _ => Raise Sample.timeout_error;
       callback_api_base := None;
       convert_to_web_link := fun _ => Raise Sample.value_error |} in
  let remote := Sample.remote_instance (Some "192.168.1.20"%string) in
  let stored := {| timestamp := Some (- 10 ^ 400); count := 0 |} in
  let broken := Sample.instance {[ "user_alice"%string := stored ]} in
  let returns := Binary64.pic_gen env Sample.alice_private "a cat" true remote in
  let raises := Binary64.figure_transform env Sample.alice_private broken in
  (result_of returns = Ok tt
   /\ yields (trace_of returns) = [plain_result "图像生成失败: timed out"])
  /\ raises = (Raise overflow_error, broken, []).
Proof.
  intros env remote stored broken returns raises.
  assert (Hallowed :
            result_of (Binary64._check_and_update_limit Sample.alice_private
                         (clock env) remote)
            = Ok (true, success_message UserLimit "alice" 1))
    by (vm_compute; reflexivity).
  assert (Hraised :
            result_of (Binary64._check_and_update_limit Sample.alice_private
                         (clock env) broken)
            = Raise overflow_error)
    by (vm_compute; reflexivity).
  assert (Hhandler : raises <> reset_images_command Sample.alice_private broken)
    by (vm_compute; discriminate).
  split.
  - destruct (X7_handlers_reply_once env remote Sample.alice_private "a cat"
                true returns (or_introl eq_refl)) as (_ & Hreturns & _).
    destruct (Hreturns _ Hallowed) as (Hresult & _ & _).
    split; [exact Hresult | reflexivity].
  - destruct (X7_handlers_reply_once env broken Sample.alice_private ""%string
                true raises (or_intror (or_introl eq_refl)))
      as (_ & _ & Hraises).
    exact (Hraises _ Hraised Hhandler).
Defined.

(** ** Exceptions of the collaborators are answered with their text *)

Lemma relay_remote_answer env image_path self address :
  nap_server_address self = Some address ->
  address <> ""%string -> address <> "localhost"%string ->
  relay_to_nap_server env image_path self
  = (send_file env image_path address (nap_server_port self), self,
     [SendFile image_path address (nap_server_port self)]).
Proof.
  intros Haddress Hset Hfar. unfold relay_to_nap_server. run_monad.
  rewrite Haddress. simpl.
  rewrite (proj2 (String.eqb_neq _ _) Hset),
    (proj2 (String.eqb_neq _ _) Hfar). simpl.
  by destruct (send_file env image_path address (nap_server_port self)).
Qed.

(** The relay depends on the instance through the address and the port of
    the companion server only. *)
Lemma relay_same_companion env image_path self other :
  nap_server_address other = nap_server_address self ->
  nap_server_port other = nap_server_port self ->
  result_of (relay_to_nap_server env image_path other)
  = result_of (relay_to_nap_server env image_path self)
  /\ trace_of (relay_to_nap_server env image_path other)
     = trace_of (relay_to_nap_server env image_path self).
Proof.
  intros Haddress Hport. unfold relay_to_nap_server. run_monad.
  rewrite Haddress, Hport.
  destruct (truthy (nap_server_address self) && _); [| done].
  by destruct (send_file _ _ _ _).
Qed.

(** Enters the part of a handler that follows the check, past the load of
    the global configuration. *)
Ltac enter_draw env self self1 t1 Hsetup Hbook :=
  let Hload := fresh "Hload" in
  destruct (load_global_config_run env self)
    as (self1 & t1 & Hload & Hsetup & Hbook);
  rewrite (bind_run _ _ _ _ _ _ Hload);
  unfold result_of, self_of, trace_of.

Ltac truthy_pair Hanswer Hurl Hpath :=
  rewrite Hanswer; simpl;
  rewrite (proj2 (String.eqb_neq _ _) Hurl),
    (proj2 (String.eqb_neq _ _) Hpath); simpl.

Lemma pic_gen_draw_fails env event description use_refs message self e :
  draw_fails env self e ->
  failed_draw ("图像生成失败: " +:+ exn_str e)
    (pic_gen_draw env event description use_refs message self).
Proof.
  intros Hfails. unfold pic_gen_draw, failed_draw.
  enter_draw env self self1 t1 Hsetup Hbook.
  destruct Hsetup as (_ & _ & Haddress1 & Hport1 & _).
  unfold try_except. run_monad.
  destruct Hfails
    as [Hraises | (image_url & image_path & address & Hanswer & Hurl & Hpath
                   & Haddress & Hset & Hfar & Hsent)].
  - rewrite Hraises. simpl. exists self1, t1. eexists [_].
    split; [reflexivity |]. split; [exact Hbook | by repeat constructor].
  - truthy_pair Hanswer Hurl Hpath.
    rewrite (relay_remote_answer env image_path self1 address)
      by congruence.
    rewrite Hport1, Hsent. simpl. exists self1, t1. eexists [_; _].
    split; [reflexivity |]. split; [exact Hbook | by repeat constructor].
Qed.

Lemma figure_transform_draw_fails env event message self e :
  draw_fails env self e ->
  reference_images event <> [] ->
  failed_draw ("手办化处理失败: " +:+ exn_str e)
    (figure_transform_draw env event message self).
Proof.
  intros Hfails Himages. unfold figure_transform_draw, failed_draw.
  enter_draw env self self1 t1 Hsetup Hbook.
  destruct Hsetup as (_ & _ & Haddress1 & Hport1 & _).
  destruct (reference_images event) as [| first_image more_images]; [done |].
  unfold try_except. run_monad.
  destruct Hfails
    as [Hraises | (image_url & image_path & address & Hanswer & Hurl & Hpath
                   & Haddress & Hset & Hfar & Hsent)].
  - rewrite Hraises. simpl. exists self1, t1. eexists [_].
    split; [reflexivity |]. split; [exact Hbook | by repeat constructor].
  - truthy_pair Hanswer Hurl Hpath.
    rewrite (relay_remote_answer env image_path self1 address)
      by congruence.
    rewrite Hport1, Hsent. simpl. exists self1, t1. eexists [_; _].
    split; [reflexivity |]. split; [exact Hbook | by repeat constructor].
Qed.

Lemma failed_draw_after t1 failure run :
  Forall (fun ev => is_bookkeeping ev = true) t1 ->
  failed_draw failure run ->
  result_of run = Ok tt
  /\ yields (t1 ++ trace_of run) = [plain_result failure]
  /\ Forall (fun ev => is_new_image ev = false) (t1 ++ trace_of run).
Proof.
  intros Hbook1 (self1 & t & calls & -> & Hbook & Hcalls).
  unfold result_of, trace_of. simpl. split; [reflexivity |]. split.
  - rewrite !yields_app, (bookkeeping_yields _ Hbook1),
      (bookkeeping_yields _ Hbook). simpl.
    replace (yields calls) with (@nil MessageEventResult); [reflexivity |].
    induction Hcalls as [| ev calls [Hev _] _ IH]; [reflexivity |].
    unfold yields in *. simpl. rewrite <- IH. by destruct ev.
  - rewrite !Forall_app. repeat split.
    + eapply Forall_impl; [exact Hbook1 |]. by intros [].
    + eapply Forall_impl; [exact Hbook |]. by intros [].
    + eapply Forall_impl; [exact Hcalls |]. by intros ev [_ Hev].
    + by repeat constructor.
Qed.

(** X8.  When the draw is allowed and the generation client raises, or the
    generation answers a picture and the transfer to a remote companion
    server raises, the handler does not raise: its only reply is its
    failure prefix followed by the text of the exception, and it builds no
    image component. *)
Theorem X8_exceptions_are_answered env self event description use_refs
    message e (prefix : string)
    (run : outcome unit * plugin * list effect) :
  result_of (_check_and_update_limit event (clock env) self)
  = Ok (true, message) ->
  draw_fails env self e ->
  (run = pic_gen env event description use_refs self
   /\ prefix = "图像生成失败: "%string)
  \/ (reference_images event <> []
      /\ run = figure_transform env event self
      /\ prefix = "手办化处理失败: "%string) ->
  result_of run = Ok tt
  /\ yields (trace_of run) = [plain_result (prefix +:+ exn_str e)]
  /\ Forall (fun ev => is_new_image ev = false) (trace_of run).
Proof.
  intros Hallowed Hfails Hrun.
  destruct (check_allowed_run _ _ _ _ Hallowed)
    as (self1 & t1 & Hcheck & [Haddress1 Hport1] & Hbook1).
  assert (Hfails1 : draw_fails env self1 e).
  { destruct Hfails as [Hraises | (u & p & a & Hrest)]; [by left |].
    right. exists u, p, a. rewrite Haddress1, Hport1. exact Hrest. }
  destruct Hrun as [[-> ->] | (Himages & -> & ->)].
  - rewrite (pic_gen_allowed _ _ _ _ _ _ _ _ Hcheck).
    apply (failed_draw_after t1 _
             (pic_gen_draw env event description use_refs message self1)
             Hbook1).
    by apply pic_gen_draw_fails.
  - rewrite (figure_transform_allowed _ _ _ _ _ _ Hcheck).
    apply (failed_draw_after t1 _
             (figure_transform_draw env event message self1) Hbook1).
    by apply figure_transform_draw_fails.
Qed.

(** The generation client times out on Bob's figure-ify request. *)
Lemma X8_exceptions_are_answered_witness :
  let env :=
    Sample.host_answering 1000 (Raise Sample.timeout_error) None
      (Raise Sample.value_error) in
  let run := figure_transform env Sample.bob_in_lounge (Sample.instance ∅) in
  yields (trace_of run) = [plain_result "手办化处理失败: timed out"].
Proof.
  intros env run.
  assert (Hallowed :
            result_of (_check_and_update_limit Sample.bob_in_lounge
                         (clock env) (Sample.instance ∅))
            = Ok (true, success_message GroupLimit "bob" 4))
    by (vm_compute; reflexivity).
  assert (Hfails : draw_fails env (Sample.instance ∅) Sample.timeout_error)
    by (left; intros request; reflexivity).
  assert (Himages : reference_images Sample.bob_in_lounge <> [])
    by (vm_compute; discriminate).
  destruct (X8_exceptions_are_answered env (Sample.instance ∅)
              Sample.bob_in_lounge ""%string true
              (success_message GroupLimit "bob" 4) Sample.timeout_error
              "手办化处理失败: " run Hallowed Hfails
              (or_intror (conj Himages (conj eq_refl eq_refl))))
    as (_ & Hyields & _).
  exact Hyields.
Defined.

(** ** The reply to a successful draw *)

Lemma silent_yields t :
  Forall (fun e => is_yield e = false) t -> yields t = [].
Proof.
  induction 1 as [| e t He _ IH]; [reflexivity |].
  unfold yields in *. simpl. rewrite IH. by destruct e.
Qed.

Lemma pic_gen_draw_success env event description use_refs message self
    image_url image_path delivered :
  answers_image env image_url image_path ->
  image_url <> ""%string -> image_path <> ""%string ->
  result_of (relay_to_nap_server env image_path self) = Ok delivered ->
  exists self1 t image,
    pic_gen_draw env event description use_refs message self
    = (Ok tt, self1,
       t ++ [Yield (chain_result
                      (if negb (String.eqb message "")
                       then [ImageOut image; Plain message]
                       else [ImageOut image]))])
    /\ Forall (fun e => is_yield e = false) t
    /\ result_of (send_image_with_callback_api env delivered self)
       = Ok image.
Proof.
  intros Hanswer Hurl Hpath Hrelayed. unfold pic_gen_draw.
  enter_draw env self self1 t1 Hsetup Hbook.
  destruct Hsetup as (_ & _ & Haddress1 & Hport1 & _).
  destruct (relay_same_companion env image_path self self1 Haddress1 Hport1)
    as [Hsame _].
  rewrite Hrelayed in Hsame.
  unfold try_except. run_monad. truthy_pair Hanswer Hurl Hpath.
  destruct (relay_run env image_path self1)
    as (answer & t2 & Hrelay & Hquiet & _).
  rewrite Hrelay in Hsame |- *. unfold result_of in Hsame. simpl in Hsame.
  subst answer. simpl.
  destruct (deliver_run env delivered self1)
    as (image & t3 & Hdeliver & Hcalls%delivery_silent & Hother).
  rewrite Hdeliver. simpl.
  match goal with
  | |- context [Generate ?request] =>
      exists self1, (t1 ++ Generate request :: t2 ++ t3), image
  end.
  split; [| split].
  - by rewrite <- !app_assoc, <- app_comm_cons, <- !app_assoc.
  - apply Forall_app. split; [by apply bookkeeping_silent |].
    constructor; [reflexivity |]. by apply Forall_app.
  - by rewrite (Hother self).
Qed.

Lemma figure_transform_draw_success env event message self
    image_url image_path delivered :
  answers_image env image_url image_path ->
  image_url <> ""%string -> image_path <> ""%string ->
  reference_images event <> [] ->
  result_of (relay_to_nap_server env image_path self) = Ok delivered ->
  exists self1 t image,
    figure_transform_draw env event message self
    = (Ok tt, self1,
       t ++ [Yield (chain_result
                      (if negb (String.eqb message "")
                       then [Plain "✨ 手办化处理完成！"; ImageOut image;
                             Plain message]
                       else [Plain "✨ 手办化处理完成！"; ImageOut image]))])
    /\ Forall (fun e => is_yield e = false) t
    /\ result_of (send_image_with_callback_api env delivered self)
       = Ok image.
Proof.
  intros Hanswer Hurl Hpath Himages Hrelayed. unfold figure_transform_draw.
  enter_draw env self self1 t1 Hsetup Hbook.
  destruct Hsetup as (_ & _ & Haddress1 & Hport1 & _).
  destruct (relay_same_companion env image_path self self1 Haddress1 Hport1)
    as [Hsame _].
  rewrite Hrelayed in Hsame.
  destruct (reference_images event) as [| first_image more_images]; [done |].
  unfold try_except. run_monad. truthy_pair Hanswer Hurl Hpath.
  destruct (relay_run env image_path self1)
    as (answer & t2 & Hrelay & Hquiet & _).
  rewrite Hrelay in Hsame |- *. unfold result_of in Hsame. simpl in Hsame.
  subst answer. simpl.
  destruct (deliver_run env delivered self1)
    as (image & t3 & Hdeliver & Hcalls%delivery_silent & Hother).
  rewrite Hdeliver. simpl.
  match goal with
  | |- context [Generate ?request] =>
      exists self1, (t1 ++ Generate request :: t2 ++ t3), image
  end.
  split; [| split].
  - by rewrite <- !app_assoc, <- app_comm_cons, <- !app_assoc.
  - apply Forall_app. split; [by apply bookkeeping_silent |].
    constructor; [reflexivity |]. by apply Forall_app.
  - by rewrite (Hother self).
Qed.

(** X9.  When the draw is allowed, the generation client answers a
    non-empty URL and path, and the relay to the companion server (if any)
    returns the path [delivered], the handler's only reply is a chain that
    holds the image component [send_image_with_callback_api] returns for
    [delivered], followed by the message of the check when it is not empty;
    the figure-ify command puts its completion text first. *)
Theorem X9_reply_to_a_successful_draw env self event description use_refs
    message image_url image_path delivered
    (heading : list reply_component)
    (run : outcome unit * plugin * list effect) :
  result_of (_check_and_update_limit event (clock env) self)
  = Ok (true, message) ->
  answers_image env image_url image_path ->
  image_url <> ""%string -> image_path <> ""%string ->
  result_of (relay_to_nap_server env image_path self) = Ok delivered ->
  (run = pic_gen env event description use_refs self /\ heading = [])
  \/ (reference_images event <> []
      /\ run = figure_transform env event self
      /\ heading = [Plain "✨ 手办化处理完成！"]) ->
  exists image,
    result_of (send_image_with_callback_api env delivered self) = Ok image
    /\ yields (trace_of run)
       = [chain_result
            (heading ++ ImageOut image
               :: (if String.eqb message "" then [] else [Plain message]))].
Proof.
  intros Hallowed Hanswer Hurl Hpath Hrelayed Hrun.
  destruct (check_allowed_run _ _ _ _ Hallowed)
    as (self1 & t1 & Hcheck & [Haddress1 Hport1] & Hbook1).
  destruct (relay_same_companion env image_path self self1 Haddress1 Hport1)
    as [Hsame _].
  rewrite Hrelayed in Hsame.
  destruct Hrun as [[-> ->] | (Himages & -> & ->)].
  - rewrite (pic_gen_allowed _ _ _ _ _ _ _ _ Hcheck).
    destruct (pic_gen_draw_success env event description use_refs message
                self1 image_url image_path delivered Hanswer Hurl Hpath
                Hsame) as (self2 & t & image & -> & Hquiet & Himage).
    destruct (deliver_run env delivered self1)
      as (image' & t3 & Hdeliver & _ & Hother).
    rewrite Hdeliver in Himage. rewrite (Hother self).
    unfold result_of in *. simpl in Himage. injection Himage as ->.
    exists image. split; [reflexivity |].
    unfold trace_of. simpl.
    rewrite !yields_app, (bookkeeping_yields _ Hbook1),
      (silent_yields _ Hquiet).
    simpl. by destruct (String.eqb message "").
  - rewrite (figure_transform_allowed _ _ _ _ _ _ Hcheck).
    destruct (figure_transform_draw_success env event message self1
                image_url image_path delivered Hanswer Hurl Hpath Himages
                Hsame) as (self2 & t & image & -> & Hquiet & Himage).
    destruct (deliver_run env delivered self1)
      as (image' & t3 & Hdeliver & _ & Hother).
    rewrite Hdeliver in Himage. rewrite (Hother self).
    unfold result_of in *. simpl in Himage. injection Himage as ->.
    exists image. split; [reflexivity |].
    unfold trace_of. simpl.
    rewrite !yields_app, (bookkeeping_yields _ Hbook1),
      (silent_yields _ Hquiet).
    simpl. by destruct (String.eqb message "").
Qed.

(** Alice's picture is generated, sent to the companion server and offered
    through the callback link; the reply holds the linked image and her
    remaining draws. *)
Lemma X9_reply_to_a_successful_draw_witness :
  let env :=
    Sample.host_answering 1000
      (Ok (Some "https://cdn.example/cat.png"%string,
           Some "/tmp/cat.png"%string))
      (Some "https://bot.example"%string)
      (Ok "https://bot.example/f/1"%string) in
  let self := Sample.remote_instance (Some "192.168.1.20"%string) in
  yields (trace_of (pic_gen env Sample.alice_private "a cat" true self))
  = [chain_result
       [ImageOut (fromURL "https://bot.example/f/1");
        Plain (success_message UserLimit "alice" 1)]].
Proof.
  intros env self.
  assert (Hallowed :
            result_of (_check_and_update_limit Sample.alice_private
                         (clock env) self)
            = Ok (true, success_message UserLimit "alice" 1))
    by (vm_compute; reflexivity).
  destruct (X9_reply_to_a_successful_draw env self Sample.alice_private
              "a cat" true (success_message UserLimit "alice" 1)
              "https://cdn.example/cat.png" "/tmp/cat.png"
              "/remote//tmp/cat.png" []
              (pic_gen env Sample.alice_private "a cat" true self)
              Hallowed (fun _ => eq_refl) ltac:(discriminate)
              ltac:(discriminate) eq_refl (or_introl (conj eq_refl eq_refl)))
    as (image & Himage & Hyields).
  rewrite Hyields. vm_compute in Himage. injection Himage as <-.
  reflexivity.
Defined.

(** ** The message of the check *)

Lemma success_message_not_empty kind user_id remaining :
  success_message kind user_id remaining <> ""%string.
Proof. by destruct kind. Qed.

(** X10.  The message of an allowed check is empty exactly when no limit
    applies to the event (rate limiting is off, or neither [user_limits]
    nor [group_limits] gives a limit): a draw without a limit is answered
    without any text on remaining draws, a draw under a limit always with
    it. *)
Theorem X10_message_only_under_a_limit self event now message :
  result_of (_check_and_update_limit event now self) = Ok (true, message) ->
  message = ""%string
  <-> default false (enabled (rate_limit_config self)) = false
      \/ resolve_limit (rate_limit_config self) event = None.
Proof.
  intros Hallowed.
  destruct (default false (enabled (rate_limit_config self))) eqn:Hon.
  - destruct (resolve_limit (rate_limit_config self) event)
      as [[limit kind] |] eqn:Hres.
    + destruct (check_permitted_run _ _ _ _ _ _ Hon Hres Hallowed)
        as [_ Hrun].
      rewrite Hrun in Hallowed. unfold result_of in Hallowed.
      simpl in Hallowed. injection Hallowed as <-. split.
      * intros Hempty. by apply success_message_not_empty in Hempty.
      * intros [Hoff | Hnone]; discriminate.
    + rewrite check_unlimited in Hallowed by assumption.
      unfold result_of in Hallowed. simpl in Hallowed.
      injection Hallowed as <-. split; [by right | reflexivity].
  - rewrite check_disabled in Hallowed by assumption.
    unfold result_of in Hallowed. simpl in Hallowed.
    injection Hallowed as <-. split; [by left | reflexivity].
Qed.

(** Carol, to whom no limit applies, gets the empty message. *)
Lemma X10_message_only_under_a_limit_witness :
  resolve_limit Sample.policy Sample.stranger = None.
Proof.
  destruct (proj1 (X10_message_only_under_a_limit (Sample.instance ∅)
                     Sample.stranger 1000 ""%string eq_refl) eq_refl)
    as [Hoff | Hnone]; [discriminate | exact Hnone].
Defined.

(** ** The figure-ify command without a picture *)

(** X11.  The figure-ify command checks the quota before it looks for a
    picture.  When a limit applies, the draw is allowed and the event
    carries no convertible picture, the command stores and saves the
    incremented record, replies that a picture is needed, and never calls
    the generation client: the draw is spent on nothing. *)
Theorem X11_figure_without_picture_is_charged env self event limit kind msg :
  default false (enabled (rate_limit_config self)) = true ->
  resolve_limit (rate_limit_config self) event = Some (limit, kind) ->
  result_of (_check_and_update_limit event (clock env) self)
  = Ok (true, msg) ->
  reference_images event = [] ->
  let run := figure_transform env event self in
  let compared :=
    current_record
      (default 1440 (reset_interval_minutes (rate_limit_config self)))
      (clock env) (usage_records self !! record_key event) in
  yields (trace_of run)
  = [plain_result "请提供一张图片以进行手办化处理！"]
  /\ generate_calls (trace_of run) = []
  /\ usage_records (self_of run) !! record_key event
     = Some {| timestamp := Some (clock env); count := count compared + 1 |}
  /\ exists rest, trace_of run
                  = SaveRecords (usage_records (self_of run)) :: rest.
Proof.
  intros Hon Hres Hallowed Himages run compared.
  destruct (check_permitted_run _ _ _ _ _ _ Hon Hres Hallowed)
    as [_ Hcheck].
  unfold run. rewrite (figure_transform_allowed _ _ _ _ _ _ Hcheck).
  unfold figure_transform_draw.
  enter_draw env
    (set_usage_records
       (<[record_key event :=
            {| timestamp := Some (clock env);
               count :=
                 count
                   (current_record
                      (default 1440
                         (reset_interval_minutes (rate_limit_config self)))
                      (clock env) (usage_records self !! record_key event))
                 + 1 |}]> (usage_records self)) self)
    self1 t1 Hsetup Hbook.
  rewrite Himages. simpl. destruct Hsetup as (Hrecords & _).
  simpl in Hrecords. rewrite Hrecords.
  split; [| split; [| split]].
  - by rewrite yields_app, (bookkeeping_yields _ Hbook).
  - unfold generate_calls. rewrite flat_map_app. simpl.
    rewrite app_nil_r. clear -Hbook.
    induction Hbook as [| e t He _ IH]; [reflexivity |].
    simpl. rewrite IH. by destruct e.
  - by rewrite lookup_insert_eq.
  - by eexists.
Qed.

(** Carol's message has no picture, but she writes in the lounge: her
    request costs the lounge one of its five draws. *)
Lemma X11_figure_without_picture_is_charged_witness :
  let env :=
    Sample.host_answering 1000 (Raise Sample.value_error) None
      (Raise Sample.value_error) in
  let carol_in_lounge :=
    {| get_sender_id := "carol"; get_group_id := Some "lounge"%string;
       message := Some [OtherComp] |} in
  let run := figure_transform env carol_in_lounge (Sample.instance ∅) in
  generate_calls (trace_of run) = []
  /\ usage_records (self_of run) !! "group_lounge"%string
     = Some {| timestamp := Some 1000; count := 1 |}.
Proof.
  intros env carol_in_lounge run.
  assert (Hallowed :
            result_of (_check_and_update_limit carol_in_lounge (clock env)
                         (Sample.instance ∅))
            = Ok (true, success_message GroupLimit "carol" 4))
    by (vm_compute; reflexivity).
  destruct (X11_figure_without_picture_is_charged env (Sample.instance ∅)
              carol_in_lounge 5 GroupLimit
              (success_message GroupLimit "carol" 4)
              eq_refl eq_refl Hallowed eq_refl)
    as (_ & Hcalls & Hstored & _).
  split; [exact Hcalls |]. unfold run. exact Hstored.
Defined.

(** * Reference images and generation requests *)

(** X12.  A picture is used as a reference exactly when it is a component
    of the message, or of a message quoted by a component of the message,
    and its conversion to base64 succeeds: pictures that fail to convert
    are skipped, and pictures of a quotation inside a quotation are not
    looked at. *)
Theorem X12_reference_images_found event data :
  data ∈ reference_images event
  <-> exists comps,
        message event = Some comps
        /\ (ImageComp (Ok data) ∈ comps
            \/ exists chain,
                Reply chain ∈ comps /\ ImageComp (Ok data) ∈ chain).
Proof.
  unfold reference_images. destruct (message event) as [comps |].
  - rewrite list_elem_of_In, in_flat_map. split.
    + intros (comp & Hcomp & Hdata). exists comps. split; [reflexivity |].
      destruct comp as [[data' |] | chain |]; simpl in Hdata; try done.
      * destruct Hdata as [-> | []]. left. by apply list_elem_of_In.
      * right. exists chain. split; [by apply list_elem_of_In |].
        unfold reply_images in Hdata. apply in_flat_map in Hdata
          as (reply_comp & Hreply & Hdata).
        destruct reply_comp as [[data' |] | |]; simpl in Hdata; try done.
        destruct Hdata as [-> | []]. by apply list_elem_of_In.
    + intros (comps' & [= <-] & [Hdirect | (chain & Hchain & Hquoted)]).
      * exists (ImageComp (Ok data)).
        split; [by apply list_elem_of_In | by left].
      * exists (Reply chain). split; [by apply list_elem_of_In |].
        simpl. unfold reply_images. apply in_flat_map.
        exists (ImageComp (Ok data)).
        split; [by apply list_elem_of_In | by left].
  - split; [by intros ?%elem_of_nil | by intros (comps & [=] & _)].
Qed.

(** Of the pictures of the collage, the one that fails to convert and the
    one quoted inside a quotation are left out. *)
Lemma X12_reference_images_found_witness :
  reference_images Example.collage = ["aGVsbG8="%string; "d29ybGQ="%string]
  /\ "d29ybGQ="%string ∈ reference_images Example.collage.
Proof.
  split; [reflexivity |].
  apply (proj2 (X12_reference_images_found Example.collage "d29ybGQ=")).
  eexists. split; [reflexivity |]. right. eexists. split.
  - do 3 apply list_elem_of_further. apply list_elem_of_here.
  - apply list_elem_of_here.
Defined.

(** ** The request sent to the generation client *)

Lemma delivery_generate_calls t :
  Forall (fun e => is_delivery e = true /\ is_send_file e = false) t ->
  generate_calls t = [].
Proof.
  induction 1 as [| e t [He _] _ IH]; [reflexivity |].
  unfold generate_calls in *. simpl. rewrite IH. by destruct e.
Qed.

(** Runs a generation block through every answer of the collaborators,
    keeping what the relay called. *)
Ltac follow_calls :=
  unfold try_except; run_monad;
  match goal with
  | |- context [generate_image_openrouter ?env ?request] =>
      destruct (generate_image_openrouter env request)
        as [[image_url image_path] | ?]; simpl;
      [ destruct (negb (truthy image_url) || negb (truthy image_path));
        simpl;
        [ | match goal with
            | |- context [relay_to_nap_server ?env ?path ?s] =>
                let Hrelay := fresh "Hrelay" in
                let Hcalled := fresh "Hcalled" in
                destruct (relay_run env path s)
                  as (answer & t2 & Hrelay & _ & Hcalled);
                rewrite Hrelay; destruct answer as [relayed | ?]; simpl;
                [ let Hdeliver := fresh "Hdeliver" in
                  let Hcalls := fresh "Hcalls" in
                  destruct (deliver_run env relayed s)
                    as (image & t3 & Hdeliver
                        & Hcalls%delivery_generate_calls & _);
                  rewrite Hdeliver; simpl;
                  rewrite !generate_calls_app, Hcalls
                | rewrite !generate_calls_app ];
                destruct Hcalled as [[-> _] | (? & _ & -> & _)]
            end ]
      | ]
  end.

(** After the load of the global configuration, the generation block of
    the LLM tool calls the generation client once, with the request built
    from the instance the load left. *)
Lemma pic_gen_draw_request env event description use_refs message self :
  generate_calls
    (trace_of (pic_gen_draw env event description use_refs message self))
  = [generation_request_of (self_of (_load_global_config env self))
       description
       (if use_refs then reference_images event else [])].
Proof.
  unfold pic_gen_draw.
  destruct (load_global_config_run env self)
    as (self1 & t1 & Hload & _ & Hbook).
  rewrite (bind_run _ _ _ _ _ _ Hload), Hload.
  unfold result_of, self_of, trace_of. simpl.
  rewrite generate_calls_app, (bookkeeping_generate_calls _ Hbook). simpl.
  follow_calls; reflexivity.
Qed.

Lemma figure_transform_draw_request env event message self :
  reference_images event <> [] ->
  generate_calls (trace_of (figure_transform_draw env event message self))
  = [generation_request_of (self_of (_load_global_config env self))
       figure_prompt (reference_images event)].
Proof.
  intros Himages. unfold figure_transform_draw.
  destruct (load_global_config_run env self)
    as (self1 & t1 & Hload & _ & Hbook).
  rewrite (bind_run _ _ _ _ _ _ Hload), Hload.
  unfold result_of, self_of, trace_of. simpl.
  rewrite generate_calls_app, (bookkeeping_generate_calls _ Hbook). simpl.
  destruct (reference_images event) as [| first_image more_images]; [done |].
  follow_calls; reflexivity.
Qed.

(** The load of the global configuration neither reads nor writes the
    usage records. *)
Lemma load_global_config_records env records self :
  _load_global_config env (set_usage_records records self)
  = (Ok tt,
     set_usage_records records (self_of (_load_global_config env self)),
     trace_of (_load_global_config env self)).
Proof.
  unfold _load_global_config. run_monad.
  destruct (_global_config_loaded self); [reflexivity |].
  by destruct (global_get env) as [[[base |] [name |]] | e].
Qed.

Lemma check_then_load_request env event self message self1 t1 prompt images :
  _check_and_update_limit event (clock env) self
  = (Ok (true, message), self1, t1) ->
  generation_request_of (self_of (_load_global_config env self1))
    prompt images
  = generation_request_of (self_of (_load_global_config env self))
      prompt images.
Proof.
  intros Hcheck.
  destruct (check_cases event (clock env) self)
    as [[m Hrun] | [Hrun | (m & records & Hrun)]];
    rewrite Hrun in Hcheck; simplify_eq; [reflexivity |].
  by rewrite load_global_config_records.
Qed.

(** X13.  A handler calls the generation client at most once in a run: it
    never retries by itself.  It calls it exactly when the check allows the
    draw (and, for the figure-ify command, a reference picture was found),
    with the description (or the figure prompt), the reference pictures
    (none when [use_reference_images] is false), the instance's list of
    keys and retry count, and the model name and API base the instance has
    after [_load_global_config], an empty base being sent as [None]. *)
Theorem X13_one_request_per_draw env self event description use_refs
    (needs_picture : bool) (prompt : string) (images : list string)
    (run : outcome unit * plugin * list effect) :
  (run = pic_gen env event description use_refs self
   /\ needs_picture = false /\ prompt = description
   /\ images = if use_refs then reference_images event else [])
  \/ (run = figure_transform env event self
      /\ needs_picture = true /\ prompt = figure_prompt
      /\ images = reference_images event) ->
  let loaded := self_of (_load_global_config env self) in
  let request :=
    {| req_prompt := prompt;
       req_api_keys := openrouter_api_keys self;
       req_model := model_name loaded;
       req_input_images := images;
       req_api_base :=
         if String.eqb (custom_api_base loaded) ""
         then None else Some (custom_api_base loaded);
       req_max_retry_attempts := max_retry_attempts self |} in
  let allowed :=
    match result_of (_check_and_update_limit event (clock env) self) with
    | Ok (true, _) => true
    | _ => false
    end in
  generate_calls (trace_of run)
  = if allowed && (negb needs_picture || bool_decide (images <> []))
    then [request] else [].
Proof.
  intros Hrun loaded request allowed.
  assert (Hrequest : request = generation_request_of loaded prompt images).
  { destruct (load_global_config_run env self)
      as (self1 & t1 & Hload & (_ & _ & _ & _ & Hkeys & Hretry) & _).
    unfold request, loaded, generation_request_of, api_base_or_none.
    rewrite Hload. unfold self_of. simpl. by rewrite Hkeys, Hretry. }
  rewrite Hrequest. unfold allowed, loaded.
  destruct (check_run event (clock env) self)
    as (can_draw & message & self1 & t1 & Hcheck & Hbook).
  rewrite Hcheck. unfold result_of at 1. simpl.
  destruct can_draw.
  - rewrite <- (check_then_load_request env event self message self1 t1
                  prompt images Hcheck).
    destruct Hrun as [(-> & -> & -> & ->) | (-> & -> & -> & ->)].
    + rewrite (pic_gen_allowed _ _ _ _ _ _ _ _ Hcheck).
      unfold trace_of at 1. simpl.
      rewrite generate_calls_app, (bookkeeping_generate_calls _ Hbook).
      apply pic_gen_draw_request.
    + rewrite (figure_transform_allowed _ _ _ _ _ _ Hcheck).
      unfold trace_of at 1. simpl.
      rewrite generate_calls_app, (bookkeeping_generate_calls _ Hbook).
      simpl. case_bool_decide as Himages.
      * by apply figure_transform_draw_request.
      * unfold figure_transform_draw.
        destruct (load_global_config_run env self1)
          as (self2 & t2 & Hload & _ & Hbook2).
        rewrite (bind_run _ _ _ _ _ _ Hload), Himages.
        unfold trace_of. simpl.
        by rewrite generate_calls_app, (bookkeeping_generate_calls _ Hbook2).
  - destruct Hrun as [(-> & _) | (-> & _)].
    + rewrite (pic_gen_denied _ _ _ _ _ _ _ _ Hcheck).
      unfold trace_of. simpl.
      by rewrite generate_calls_app, (bookkeeping_generate_calls _ Hbook).
    + rewrite (figure_transform_denied _ _ _ _ _ _ Hcheck).
      unfold trace_of. simpl.
      by rewrite generate_calls_app, (bookkeeping_generate_calls _ Hbook).
Qed.

(** Carol asks for a picture with [use_reference_images] off: one request,
    with her description and without the pictures of her message. *)
Lemma X13_one_request_per_draw_witness :
  let env :=
    Sample.host_answering 1000 (Raise Sample.timeout_error) None
      (Raise Sample.value_error) in
  generate_calls
    (trace_of (pic_gen env Example.collage "a dog" false (Sample.instance ∅)))
  = [{| req_prompt := "a dog";
        req_api_keys := ["key-1"%string];
        req_model := "google/gemini-2.5-flash-image-preview:free";
        req_input_images := [];
        req_api_base := None;
        req_max_retry_attempts := 3 |}].
Proof.
  intros env.
  rewrite (X13_one_request_per_draw env (Sample.instance ∅) Example.collage
             "a dog" false false "a dog" []
             (pic_gen env Example.collage "a dog" false (Sample.instance ∅))
             (or_introl (conj eq_refl (conj eq_refl
                                        (conj eq_refl eq_refl))))).
  reflexivity.
Defined.

(** ** The global configuration *)

Lemma pic_gen_request env event description use_refs self message :
  result_of (_check_and_update_limit event (clock env) self)
  = Ok (true, message) ->
  generate_calls (trace_of (pic_gen env event description use_refs self))
  = [generation_request_of (self_of (_load_global_config env self))
       description (if use_refs then reference_images event else [])].
Proof.
  intros Hallowed.
  destruct (check_allowed_run _ _ _ _ Hallowed)
    as (self1 & t1 & Hcheck & _ & Hbook).
  rewrite (pic_gen_allowed _ _ _ _ _ _ _ _ Hcheck).
  unfold trace_of at 1. simpl.
  rewrite generate_calls_app, (bookkeeping_generate_calls _ Hbook).
  rewrite <- (check_then_load_request env event self message self1 t1
                _ _ Hcheck).
  apply pic_gen_draw_request.
Qed.

Lemma figure_transform_request env event self message :
  result_of (_check_and_update_limit event (clock env) self)
  = Ok (true, message) ->
  reference_images event <> [] ->
  generate_calls (trace_of (figure_transform env event self))
  = [generation_request_of (self_of (_load_global_config env self))
       figure_prompt (reference_images event)].
Proof.
  intros Hallowed Himages.
  destruct (check_allowed_run _ _ _ _ Hallowed)
    as (self1 & t1 & Hcheck & _ & Hbook).
  rewrite (figure_transform_allowed _ _ _ _ _ _ Hcheck).
  unfold trace_of at 1. simpl.
  rewrite generate_calls_app, (bookkeeping_generate_calls _ Hbook).
  rewrite <- (check_then_load_request env event self message self1 t1
                _ _ Hcheck).
  by apply figure_transform_draw_request.
Qed.

(** What the load leaves in the two fields it may assign. *)
Lemma load_global_config_fields env self :
  let loaded := self_of (_load_global_config env self) in
  match _global_config_loaded self, global_get env with
  | false, Ok stored =>
      model_name loaded
      = default (model_name self) (global_model_name stored)
      /\ custom_api_base loaded
         = default (custom_api_base self) (global_custom_api_base stored)
  | _, _ =>
      model_name loaded = model_name self
      /\ custom_api_base loaded = custom_api_base self
  end.
Proof.
  unfold _load_global_config. run_monad.
  destruct (_global_config_loaded self); [done |].
  by destruct (global_get env) as [[[base |] [name |]] | e].
Qed.

(** X14.  On the first allowed draw of an instance that has not loaded the
    global configuration, the model name and the API base sent to the
    generation client are the ones stored globally, where the store has
    them, and the instance's own otherwise.  When the read of the store
    raises, the draw goes on with the instance's own settings. *)
Theorem X14_stored_settings_reach_the_request env self event description
    use_refs message (run : outcome unit * plugin * list effect) :
  _global_config_loaded self = false ->
  result_of (_check_and_update_limit event (clock env) self)
  = Ok (true, message) ->
  run = pic_gen env event description use_refs self
  \/ (reference_images event <> []
      /\ run = figure_transform env event self) ->
  exists request,
    generate_calls (trace_of run) = [request]
    /\ match global_get env with
       | Ok stored =>
           req_model request
           = default (model_name self) (global_model_name stored)
           /\ req_api_base request
              = api_base_or_none
                  (default (custom_api_base self)
                     (global_custom_api_base stored))
       | Raise _ =>
           req_model request = model_name self
           /\ req_api_base request = api_base_or_none (custom_api_base self)
       end.
Proof.
  intros Hfresh Hallowed Hrun.
  pose proof (load_global_config_fields env self) as Hfields.
  rewrite Hfresh in Hfields. simpl in Hfields.
  assert (Hcalls : exists prompt images,
             generate_calls (trace_of run)
             = [generation_request_of
                  (self_of (_load_global_config env self)) prompt images]).
  { destruct Hrun as [-> | [Himages ->]].
    - exists description, (if use_refs then reference_images event else []).
      exact (pic_gen_request env event description use_refs self message
               Hallowed).
    - exists figure_prompt, (reference_images event).
      exact (figure_transform_request env event self message Hallowed
               Himages). }
  destruct Hcalls as (prompt & images & Hcalls).
  exists (generation_request_of (self_of (_load_global_config env self))
            prompt images).
  split; [exact Hcalls |].
  destruct (global_get env) as [stored | e];
    destruct Hfields as [Hmodel Hbase]; simpl; by rewrite Hmodel, Hbase.
Qed.

(** The store holds an API base and no model name: Bob's first request
    goes to the stored base with the instance's model. *)
Lemma X14_stored_settings_reach_the_request_witness :
  let env :=
    {| clock := 1000;
       global_get :=
         Ok {| global_custom_api_base := Some "https://proxy.example/v1"%string;
               global_model_name := None |};
       generate_image_openrouter := fun _ => Raise Sample.timeout_error;
       send_file := fun path _ _ => Ok path;
       callback_api_base := None;
       convert_to_web_link := fun _ => Raise Sample.value_error |} in
  let self := Example.instance_with Sample.policy ∅ false in
  exists request,
    generate_calls
      (trace_of (pic_gen env Example.bob_private "a cat" true self))
    = [request]
    /\ req_model request = "google/gemini-2.5-flash-image-preview:free"%string
    /\ req_api_base request = Some "https://proxy.example/v1"%string.
Proof.
  intros env self.
  assert (Hallowed :
            result_of (_check_and_update_limit Example.bob_private
                         (clock env) self)
            = Ok (true, ""%string))
    by (vm_compute; reflexivity).
  destruct (X14_stored_settings_reach_the_request env self
              Example.bob_private "a cat" true ""%string
              (pic_gen env Example.bob_private "a cat" true self)
              eq_refl Hallowed (or_introl eq_refl))
    as (request & Hcalls & Hmodel & Hbase).
  exists request. by repeat split.
Defined.

(** X15.  The global store is read at most once in the life of an
    instance: [_load_global_config] reads it at most once, returns without
    raising, and leaves the instance marked as loaded whether the read
    succeeded or raised, so that any later call, whatever the store would
    answer then, reads nothing and changes nothing. *)
Theorem X15_global_store_is_read_once env later_env self :
  let first := _load_global_config env self in
  result_of first = Ok tt
  /\ (trace_of first = [] \/ trace_of first = [GlobalGet])
  /\ _global_config_loaded (self_of first) = true
  /\ _load_global_config later_env (self_of first)
     = (Ok tt, self_of first, []).
Proof.
  unfold _load_global_config. run_monad.
  destruct (_global_config_loaded self) eqn:Hloaded; simpl.
  - rewrite Hloaded. by repeat split; try left.
  - destruct (global_get env) as [[[base |] [name |]] | e]; simpl;
      by repeat split; try right.
Qed.

(** The store is unreachable at the first use and reachable afterwards:
    the second call does not look at it. *)
Lemma X15_global_store_is_read_once_witness :
  let failing :=
    Sample.host_answering 1000 (Raise Sample.timeout_error) None
      (Raise Sample.value_error) in
  let working :=
    {| clock := 2000;
       global_get :=
         Ok {| global_custom_api_base := None;
               global_model_name := Some "other/model"%string |};
       generate_image_openrouter := fun _ => Raise Sample.timeout_error;
       send_file := fun path _ _ => Ok path;
       callback_api_base := None;
       convert_to_web_link := fun _ => Raise Sample.value_error |} in
  let self := Example.instance_with Sample.policy ∅ false in
  let first := _load_global_config failing self in
  trace_of first = [GlobalGet]
  /\ trace_of (_load_global_config working (self_of first)) = []
  /\ model_name (self_of (_load_global_config working (self_of first)))
     = "google/gemini-2.5-flash-image-preview:free"%string.
Proof.
  intros failing working self first.
  destruct (X15_global_store_is_read_once failing working self)
    as (_ & _ & _ & Hlater).
  fold first in Hlater. rewrite Hlater.
  split; [reflexivity |]. split; reflexivity.
Defined.

(** * The configuration commands *)

Create HintDb command_ops.
#[local] Hint Unfold cret cbind ctry_except cemit cget cmodify cawait reply
  command_result command_self command_calls : command_ops.

Ltac run_command := autounfold with command_ops; simpl.

Lemma bookkeeping_no_reply t :
  Forall (fun e => is_bookkeeping e = true) t ->
  replies (map Plugin t) = [] /\ puts (map Plugin t) = [].
Proof.
  induction 1 as [| e t He _ [IHr IHp]]; [done |].
  unfold replies, puts in *. simpl. rewrite IHr, IHp. by destruct e.
Qed.

(** The load of the global configuration, run inside a command. *)
Lemma lift_load_run env self :
  exists t,
    lift (_load_global_config env) self
    = (Ok tt, self_of (_load_global_config env self), map Plugin t)
    /\ trace_of (_load_global_config env self) = t
    /\ Forall (fun e => is_bookkeeping e = true) t.
Proof.
  destruct (load_global_config_run env self)
    as (self1 & t1 & Hload & _ & Hbook).
  exists t1. unfold lift. rewrite Hload. by repeat split.
Qed.

Lemma cbind_run {A B} (m : C A) (k : A -> C B) self a self1 t1 :
  m self = (Ok a, self1, t1) ->
  cbind m k self
  = (command_result (k a self1), command_self (k a self1),
     t1 ++ command_calls (k a self1)).
Proof.
  intros Hm. unfold cbind. rewrite Hm.
  by destruct (k a self1) as [[r self2] t2].
Qed.

Lemma replies_app t1 t2 : replies (t1 ++ t2) = replies t1 ++ replies t2.
Proof. unfold replies. apply flat_map_app. Qed.

Lemma puts_app t1 t2 : puts (t1 ++ t2) = puts t1 ++ puts t2.
Proof. unfold puts. apply flat_map_app. Qed.

(** After its first run the load has marked the instance, and has left
    alone what it does not assign. *)
Lemma load_global_config_marks env self :
  _global_config_loaded (self_of (_load_global_config env self)) = true
  /\ same_setup self (self_of (_load_global_config env self)).
Proof.
  destruct (load_global_config_run env self)
    as (self1 & t1 & Hload & Hsetup & _).
  rewrite Hload. split; [| exact Hsetup].
  revert Hload. unfold _load_global_config. run_monad.
  destruct (_global_config_loaded self) eqn:Hloaded.
  - by intros [= <- _].
  - destruct (global_get env) as [[[base |] [name |]] | e]; simpl;
      by intros [= <- _].
Qed.

(** Enters a command, past the load of the global configuration. *)
Ltac enter_command env self :=
  let t := fresh "t" in
  let Hlift := fresh "Hlift" in
  let Htrace := fresh "Htrace" in
  let Hbook := fresh "Hbook" in
  let Hreplies := fresh "Hreplies" in
  let Hputs := fresh "Hputs" in
  let Hmarked := fresh "Hmarked" in
  destruct (lift_load_run env self) as (t & Hlift & Htrace & Hbook);
  apply bookkeeping_no_reply in Hbook as [Hreplies Hputs];
  destruct (load_global_config_marks env self)
    as [Hmarked (? & ? & ? & ? & ? & ?)];
  rewrite (cbind_run _ _ _ _ _ _ Hlift);
  run_command;
  rewrite ?replies_app, ?puts_app, ?Hreplies, ?Hputs.

(** Closes the conjuncts on the instance, the writes and the reply of a
    command. *)
Ltac close_command :=
  simpl; rewrite ?replies_app, ?puts_app; simpl;
  repeat match goal with
         | H : replies _ = [] |- _ => rewrite H; clear H
         | H : puts _ = [] |- _ => rewrite H; clear H
         end;
  repeat split; simpl; try done; try congruence.

(** X16.  [/banana baseurl <url>] with a non-empty argument returns without
    raising and replies once.  Whatever [save_global] is and whatever the
    global store answers, the instance's API base becomes the stripped
    argument, its model name stays the one the global load left, and the
    instance is marked as loaded.  The store is written exactly when
    [save_global] is one of true, 1, yes, y (in any case of letters) and
    the stored dict could be read; what is written is that dict with the
    new base, its stored model name kept.  The reply says permanently
    when the write went through, temporarily when no save was asked, and
    reports the exception when the read or the write raised. *)
Theorem X16_switch_base_url env saved event url save_global self :
  url <> ""%string ->
  let run := switch_base_url env saved event (Some url) save_global self in
  let loaded := self_of (_load_global_config env self) in
  let updated (stored : global_config) :=
    {| global_custom_api_base := Some (strip url);
       global_model_name := global_model_name stored |} in
  command_result run = Ok tt
  /\ custom_api_base (command_self run) = strip url
  /\ model_name (command_self run) = model_name loaded
  /\ _global_config_loaded (command_self run) = true
  /\ same_setup self (command_self run)
  /\ puts (command_calls run)
     = (if is_yes save_global
        then match stored_config saved with
             | Ok stored => [updated stored]
             | Raise _ => []
             end
        else [])
  /\ replies (command_calls run)
     = [plain_result
          (if is_yes save_global
           then match stored_config saved with
                | Ok stored =>
                    match global_put saved (updated stored) with
                    | Ok _ => "已永久切换 base URL 到: " +:+ strip url
                    | Raise e =>
                        "已临时切换 base URL，但保存全局配置失败: "
                          +:+ exn_str e
                    end
                | Raise e =>
                    "已临时切换 base URL，但保存全局配置失败: " +:+ exn_str e
                end
           else "已临时切换 base URL 到: " +:+ strip url)%string].
Proof.
  intros Hurl run loaded updated. unfold run, updated, switch_base_url.
  enter_command env self. fold loaded.
  rewrite (proj2 (String.eqb_neq _ _) Hurl). simpl.
  destruct (is_yes save_global); simpl; [| close_command].
  destruct (stored_config saved) as [stored | e]; simpl; [| close_command].
  unfold set_stored_api_base. simpl.
  destruct (global_put saved _) as [[] | e]; close_command.
Qed.

(** Alice switches the base with [YES]; the store refuses the write: the
    base is switched all the same, for the session. *)
Lemma X16_switch_base_url_witness :
  let env :=
    Sample.host_answering 1000 (Raise Sample.value_error) None
      (Raise Sample.value_error) in
  let run :=
    switch_base_url env Example.read_only_store Sample.alice_private
      (Some " https://proxy.example/v1 "%string) "YES" (Sample.instance ∅) in
  custom_api_base (command_self run) = "https://proxy.example/v1"%string
  /\ puts (command_calls run)
     = [{| global_custom_api_base := Some "https://proxy.example/v1"%string;
           global_model_name := Some "other/model"%string |}]
  /\ replies (command_calls run)
     = [plain_result
          "已临时切换 base URL，但保存全局配置失败: timed out"].
Proof.
  intros env run.
  destruct (X16_switch_base_url env Example.read_only_store
              Sample.alice_private " https://proxy.example/v1 " "YES"
              (Sample.instance ∅) ltac:(discriminate))
    as (_ & Hbase & _ & _ & _ & Hputs & Hreplies).
  fold run in Hbase, Hputs, Hreplies.
  rewrite Hbase, Hputs, Hreplies. by vm_compute.
Defined.

(** X17.  [/banana model <name>] with a non-empty argument does for the
    model name what [/banana baseurl] does for the API base: the instance's
    model name becomes the stripped argument in every case, its API base
    stays the one the global load left, the store is written exactly when
    a save is asked and the stored dict could be read, with that dict and
    the new model name, and the command replies once without raising. *)
Theorem X17_switch_model env saved event name save_global self :
  name <> ""%string ->
  let run := switch_model env saved event (Some name) save_global self in
  let loaded := self_of (_load_global_config env self) in
  let updated (stored : global_config) :=
    {| global_custom_api_base := global_custom_api_base stored;
       global_model_name := Some (strip name) |} in
  command_result run = Ok tt
  /\ model_name (command_self run) = strip name
  /\ custom_api_base (command_self run) = custom_api_base loaded
  /\ _global_config_loaded (command_self run) = true
  /\ same_setup self (command_self run)
  /\ puts (command_calls run)
     = (if is_yes save_global
        then match stored_config saved with
             | Ok stored => [updated stored]
             | Raise _ => []
             end
        else [])
  /\ replies (command_calls run)
     = [plain_result
          (if is_yes save_global
           then match stored_config saved with
                | Ok stored =>
                    match global_put saved (updated stored) with
                    | Ok _ => "已永久切换模型到: " +:+ strip name
                    | Raise e =>
                        "已临时切换模型，但保存全局配置失败: " +:+ exn_str e
                    end
                | Raise e =>
                    "已临时切换模型，但保存全局配置失败: " +:+ exn_str e
                end
           else "已临时切换模型到: " +:+ strip name)%string].
Proof.
  intros Hname run loaded updated. unfold run, updated, switch_model.
  enter_command env self. fold loaded.
  rewrite (proj2 (String.eqb_neq _ _) Hname). simpl.
  destruct (is_yes save_global); simpl; [| close_command].
  destruct (stored_config saved) as [stored | e]; simpl; [| close_command].
  unfold set_stored_model_name. simpl.
  destruct (global_put saved _) as [[] | e]; close_command.
Qed.

(** Alice switches the model for good. *)
Lemma X17_switch_model_witness :
  let env :=
    Sample.host_answering 1000 (Raise Sample.value_error) None
      (Raise Sample.value_error) in
  let run :=
    switch_model env Example.working_store Sample.alice_private
      (Some "google/gemini-3"%string) "true" (Sample.instance ∅) in
  model_name (command_self run) = "google/gemini-3"%string
  /\ replies (command_calls run)
     = [plain_result "已永久切换模型到: google/gemini-3"].
Proof.
  intros env run.
  destruct (X17_switch_model env Example.working_store
              Sample.alice_private "google/gemini-3" "true"
              (Sample.instance ∅) ltac:(discriminate))
    as (_ & Hmodel & _ & _ & _ & _ & Hreplies).
  fold run in Hmodel, Hreplies.
  rewrite Hmodel, Hreplies. by vm_compute.
Defined.

(** X18.  Without an argument (none, or an empty one) the two commands only
    report: they return without raising, write nothing to the global store
    whatever [save_global] is, leave the instance as the global load left
    it, and reply once with the current setting and the usage text; an
    empty API base is reported as the default endpoint. *)
Theorem X18_commands_without_argument env saved event argument save_global
    self :
  argument = None \/ argument = Some ""%string ->
  let loaded := self_of (_load_global_config env self) in
  let base_run := switch_base_url env saved event argument save_global self in
  let model_run := switch_model env saved event argument save_global self in
  let current_url :=
    if String.eqb (custom_api_base loaded) ""
    then "https://openrouter.ai/api/v1"%string
    else custom_api_base loaded in
  (command_result base_run = Ok tt
   /\ command_self base_run = loaded
   /\ puts (command_calls base_run) = []
   /\ replies (command_calls base_run)
      = [plain_result ("当前 base URL: " +:+ current_url +:+ "
使用方法:
/banan baseurl <新的base_url> [true] - true表示永久保存")])
  /\ (command_result model_run = Ok tt
      /\ command_self model_run = loaded
      /\ puts (command_calls model_run) = []
      /\ replies (command_calls model_run)
         = [plain_result ("当前模型: " +:+ model_name loaded +:+ "
使用方法:
/banan model <模型名> [true] - true表示永久保存")]).
Proof.
  intros Hargument loaded base_run model_run current_url.
  assert (Hfalsy : truthy argument = false)
    by (by destruct Hargument as [-> | ->]).
  split.
  - unfold base_run, switch_base_url. enter_command env self.
    rewrite Hfalsy. close_command.
  - unfold model_run, switch_model. enter_command env self.
    rewrite Hfalsy. close_command.
Qed.

(** Asked with no argument while the base is empty, the command names the
    default endpoint, and writes nothing even with [true]. *)
Lemma X18_commands_without_argument_witness :
  let env :=
    Sample.host_answering 1000 (Raise Sample.value_error) None
      (Raise Sample.value_error) in
  let run :=
    switch_base_url env Example.working_store Sample.alice_private None
      "true" (Sample.instance ∅) in
  puts (command_calls run) = []
  /\ replies (command_calls run)
     = [plain_result "当前 base URL: https://openrouter.ai/api/v1
使用方法:
/banan baseurl <新的base_url> [true] - true表示永久保存"].
Proof.
  intros env run.
  destruct (X18_commands_without_argument env Example.working_store
              Sample.alice_private None "true" (Sample.instance ∅)
              (or_introl eq_refl))
    as [(_ & _ & Hputs & Hreplies) _].
  fold run in Hputs, Hreplies. rewrite Hputs, Hreplies. by vm_compute.
Defined.

(** ** Switches and draws *)

Lemma load_global_config_noop env self :
  _global_config_loaded self = true ->
  _load_global_config env self = (Ok tt, self, []).
Proof.
  intros Hloaded. unfold _load_global_config. run_monad. by rewrite Hloaded.
Qed.

Lemma switch_base_url_self env saved event url save_global self :
  url <> ""%string ->
  command_self
    (switch_base_url env saved event (Some url) save_global self)
  = set_custom_api_base (strip url) (self_of (_load_global_config env self)).
Proof.
  intros Hurl. unfold switch_base_url. enter_command env self.
  rewrite (proj2 (String.eqb_neq _ _) Hurl). simpl.
  destruct (is_yes save_global); simpl; [| reflexivity].
  destruct (stored_config saved) as [stored | e]; simpl; [| reflexivity].
  by destruct (global_put saved _) as [[] | e].
Qed.

Lemma switch_model_self env saved event name save_global self :
  name <> ""%string ->
  command_self (switch_model env saved event (Some name) save_global self)
  = set_model_name (strip name) (self_of (_load_global_config env self)).
Proof.
  intros Hname. unfold switch_model. enter_command env self.
  rewrite (proj2 (String.eqb_neq _ _) Hname). simpl.
  destruct (is_yes save_global); simpl; [| reflexivity].
  destruct (stored_config saved) as [stored | e]; simpl; [| reflexivity].
  by destruct (global_put saved _) as [[] | e].
Qed.

(** X19.  A switch of the base and a switch of the model, saved or not,
    both reach the next draw: the request of the next allowed draw carries
    the stripped base (or [None] when it is empty) and the stripped model
    name, whatever the global store would answer at that time, since the
    commands have marked the instance as loaded. *)
Theorem X19_switches_reach_the_next_draw env saved event url name
    save_base save_model self later_env later_event description use_refs
    message :
  url <> ""%string -> name <> ""%string ->
  let switched :=
    command_self
      (switch_model env saved event (Some name) save_model
         (command_self
            (switch_base_url env saved event (Some url) save_base self))) in
  result_of (_check_and_update_limit later_event (clock later_env) switched)
  = Ok (true, message) ->
  exists request,
    generate_calls
      (trace_of (pic_gen later_env later_event description use_refs switched))
    = [request]
    /\ req_api_base request
       = (if String.eqb (strip url) "" then None else Some (strip url))
    /\ req_model request = strip name.
Proof.
  intros Hurl Hname switched Hallowed.
  assert (Hswitched :
            switched
            = set_model_name (strip name)
                (set_custom_api_base (strip url)
                   (self_of (_load_global_config env self)))).
  { unfold switched.
    rewrite switch_base_url_self, switch_model_self by assumption.
    rewrite load_global_config_noop; [reflexivity |].
    apply load_global_config_marks. }
  eexists. split.
  - exact (pic_gen_request later_env later_event description use_refs
             switched message Hallowed).
  - rewrite load_global_config_noop.
    + by rewrite Hswitched.
    + rewrite Hswitched. apply load_global_config_marks.
Qed.

(** Alice switches base and model for the session; Bob's draw uses both,
    although the global store holds another model. *)
Lemma X19_switches_reach_the_next_draw_witness :
  let env :=
    Sample.host_answering 1000 (Raise Sample.value_error) None
      (Raise Sample.value_error) in
  let later_env := Example.host_with_store Example.stored_model in
  let switched :=
    command_self
      (switch_model env Example.working_store Sample.alice_private
         (Some "google/gemini-3"%string) "false"
         (command_self
            (switch_base_url env Example.working_store Sample.alice_private
               (Some "https://proxy.example/v1"%string) "false"
               (Example.instance_with Sample.policy ∅ false)))) in
  exists request,
    generate_calls
      (trace_of (pic_gen later_env Example.bob_private "a cat" true switched))
    = [request]
    /\ req_api_base request = Some "https://proxy.example/v1"%string
    /\ req_model request = "google/gemini-3"%string.
Proof.
  intros env later_env switched.
  assert (Hallowed :
            result_of (_check_and_update_limit Example.bob_private
                         (clock later_env) switched)
            = Ok (true, ""%string))
    by (vm_compute; reflexivity).
  destruct (X19_switches_reach_the_next_draw env Example.working_store
              Sample.alice_private "https://proxy.example/v1"
              "google/gemini-3" "false" "false"
              (Example.instance_with Sample.policy ∅ false)
              later_env Example.bob_private "a cat" true ""%string
              ltac:(discriminate) ltac:(discriminate) Hallowed)
    as (request & Hcalls & Hbase & Hmodel).
  exists request. split; [exact Hcalls |].
  split; [by rewrite Hbase | by rewrite Hmodel].
Defined.

(** ** The constructor and the global store *)

Lemma load_usage_records_run files self :
  exists records,
    _load_usage_records files self
    = (Ok tt, set_usage_records records self, [])
    /\ records
       = if records_file_exists files
         then match read_records_file files with
              | Ok read => read
              | Raise _ => usage_records self
              end
         else usage_records self.
Proof.
  assert (Hsame : set_usage_records (usage_records self) self = self)
    by (by destruct self).
  unfold _load_usage_records, try_except. run_monad.
  destruct (records_file_exists files).
  - destruct (read_records_file files) as [read | e]; simpl.
    + by eexists.
    + exists (usage_records self). by rewrite Hsame.
  - exists (usage_records self). rewrite Hsame.
    by destruct (make_directory files) as [[] | e].
Qed.

Lemma init_run config files :
  exists records,
    __init__ config files
    = {| openrouter_api_keys := configured_keys config;
         custom_api_base :=
           strip (default ""%string (config_custom_api_base config));
         model_name :=
           strip (default "google/gemini-2.5-flash-image-preview:free"%string
                    (config_model_name config));
         max_retry_attempts := default 3 (config_max_retry_attempts config);
         nap_server_address := config_nap_server_address config;
         nap_server_port := config_nap_server_port config;
         rate_limit_config :=
           default empty_rate_limit (config_rate_limit config);
         usage_records := records;
         _global_config_loaded := false |}
    /\ records
       = if records_file_exists files
         then match read_records_file files with
              | Ok read => read
              | Raise _ => ∅
              end
         else ∅.
Proof.
  unfold __init__.
  match goal with
  | |- context [_load_usage_records files ?s] =>
      destruct (load_usage_records_run files s) as (records & -> & Hrecords)
  end.
  exists records. by split.
Qed.

(** X20.  What [/banana baseurl] or [/banana model] writes to the global
    store is what a restarted plugin runs with: an instance built by the
    constructor, from any configuration and records file, whose first load
    of the global configuration reads a dict written by the command, has
    the stripped argument as its API base (respectively its model name). *)
Theorem X20_saved_switch_survives_restart env saved event argument
    save_global self config files later_env written :
  argument <> ""%string ->
  global_get later_env = Ok written ->
  let restarted :=
    self_of (_load_global_config later_env (__init__ config files)) in
  (written ∈ puts (command_calls
                     (switch_base_url env saved event (Some argument)
                        save_global self)) ->
   custom_api_base restarted = strip argument)
  /\ (written ∈ puts (command_calls
                        (switch_model env saved event (Some argument)
                           save_global self)) ->
      model_name restarted = strip argument).
Proof.
  intros Hargument Hstore restarted.
  assert (Hfresh : _global_config_loaded (__init__ config files) = false)
    by (by destruct (init_run config files) as (records & -> & _)).
  pose proof (load_global_config_fields later_env (__init__ config files))
    as Hfields.
  rewrite Hfresh, Hstore in Hfields. simpl in Hfields.
  destruct Hfields as [Hmodel Hbase]. fold restarted in Hmodel, Hbase.
  split; intros Hwritten.
  - revert Hwritten. unfold switch_base_url. enter_command env self.
    rewrite (proj2 (String.eqb_neq _ _) Hargument). simpl.
    destruct (is_yes save_global); simpl;
      [| by rewrite ?puts_app, ?Hputs; intros ?%elem_of_nil].
    destruct (stored_config saved) as [stored | e]; simpl;
      [| by rewrite ?puts_app, ?Hputs; intros ?%elem_of_nil].
    destruct (global_put saved _) as [[] | e]; simpl;
      rewrite ?puts_app, ?Hputs; simpl;
      intros ->%list_elem_of_singleton; by rewrite Hbase.
  - revert Hwritten. unfold switch_model. enter_command env self.
    rewrite (proj2 (String.eqb_neq _ _) Hargument). simpl.
    destruct (is_yes save_global); simpl;
      [| by rewrite ?puts_app, ?Hputs; intros ?%elem_of_nil].
    destruct (stored_config saved) as [stored | e]; simpl;
      [| by rewrite ?puts_app, ?Hputs; intros ?%elem_of_nil].
    destruct (global_put saved _) as [[] | e]; simpl;
      rewrite ?puts_app, ?Hputs; simpl;
      intros ->%list_elem_of_singleton; by rewrite Hmodel.
Qed.

(** The base is switched with [yes]; the plugin restarts from its old
    configuration, which names another base, and runs with the switched
    one. *)
Lemma X20_saved_switch_survives_restart_witness :
  let env :=
    Sample.host_answering 1000 (Raise Sample.value_error) None
      (Raise Sample.value_error) in
  let written :=
    {| global_custom_api_base := Some "https://proxy.example/v1"%string;
       global_model_name := Some "other/model"%string |} in
  let restarted :=
    self_of (_load_global_config (Example.host_with_store written)
               (__init__ Example.old_configuration Example.corrupt_file)) in
  custom_api_base
    (__init__ Example.old_configuration Example.corrupt_file)
  = "https://first.example/v1"%string
  /\ custom_api_base restarted = "https://proxy.example/v1"%string.
Proof.
  intros env written restarted. split; [by vm_compute |].
  destruct (X20_saved_switch_survives_restart env Example.working_store
              Sample.alice_private "https://proxy.example/v1 " "yes"
              (Sample.instance ∅) Example.old_configuration
              Example.corrupt_file (Example.host_with_store written) written
              ltac:(discriminate) eq_refl) as [Hbase _].
  fold restarted in Hbase. rewrite Hbase.
  - by vm_compute.
  - vm_compute. apply list_elem_of_here.
Defined.

(** X21.  The key of the older configuration format is a fallback only:
    the instance uses the configured list of keys whenever it is not
    empty, whatever the older key is; it uses the older key alone when the
    list is missing or empty and the older key is a non-empty string; and
    it has no key at all otherwise. *)
Theorem X21_older_key_is_a_fallback config files :
  let keys := openrouter_api_keys (__init__ config files) in
  let listed := default [] (config_openrouter_api_keys config) in
  (listed <> [] -> keys = listed)
  /\ (forall old_api_key,
         listed = [] ->
         config_openrouter_api_key config = Some old_api_key ->
         old_api_key <> ""%string -> keys = [old_api_key])
  /\ (listed = [] ->
      config_openrouter_api_key config = None
      \/ config_openrouter_api_key config = Some ""%string ->
      keys = []).
Proof.
  intros keys listed. unfold keys.
  destruct (init_run config files) as (records & -> & _). simpl.
  unfold configured_keys. fold listed. split; [| split].
  - intros Hlisted. rewrite (bool_decide_eq_false_2 _ Hlisted).
    by rewrite andb_false_r.
  - intros old_api_key Hlisted Hold Hne.
    by rewrite Hold, truthy_Some, Hlisted.
  - intros Hlisted Hold.
    by rewrite (proj2 (truthy_false _) Hold), Hlisted.
Qed.

(** The older configuration, with an empty list and the key [sk-old],
    gives the single key [sk-old]. *)
Lemma X21_older_key_is_a_fallback_witness :
  openrouter_api_keys (__init__ Example.old_configuration Example.no_file)
  = ["sk-old"%string].
Proof.
  destruct (X21_older_key_is_a_fallback Example.old_configuration
              Example.no_file) as (_ & Hold & _).
  apply Hold; [reflexivity | reflexivity | discriminate].
Defined.

(** X22.  The records file never keeps the plugin from starting, and
    decides nothing but the usage records: the constructed instance holds
    the mapping read from the file when the file exists and can be read
    and decoded, and no record at all when the file is missing, unreadable
    or corrupt, or when its directory cannot be created; every other field
    is the same whatever the file system answers, and the instance is not
    yet marked as having loaded the global configuration. *)
Theorem X22_records_file_only_decides_the_records config files other_files :
  let self := __init__ config files in
  usage_records self
  = (if records_file_exists files
     then match read_records_file files with
          | Ok records => records
          | Raise _ => ∅
          end
     else ∅)
  /\ _global_config_loaded self = false
  /\ set_usage_records ∅ self
     = set_usage_records ∅ (__init__ config other_files).
Proof.
  intros self. unfold self.
  destruct (init_run config files) as (records & -> & ->).
  destruct (init_run config other_files) as (records' & -> & _).
  by repeat split.
Qed.

(** With a corrupt records file the plugin starts without records: Alice,
    who had used her draws, may draw again. *)
Lemma X22_records_file_only_decides_the_records_witness :
  let used := {| timestamp := Some 1000; count := 2 |} in
  let kept :=
    __init__ Example.old_configuration
      (Example.file_with {[ "user_alice"%string := used ]}) in
  let lost := __init__ Example.old_configuration Example.corrupt_file in
  result_of (_check_and_update_limit Sample.alice_private 2000 kept)
  = Ok (false, denial_message 2)
  /\ usage_records lost = ∅
  /\ result_of (_check_and_update_limit Sample.alice_private 2000 lost)
     = Ok (true, success_message UserLimit "alice" 1).
Proof.
  intros used kept lost.
  destruct (X22_records_file_only_decides_the_records
              Example.old_configuration Example.corrupt_file
              Example.no_file) as (Hlost & _ & _).
  fold lost in Hlost. split; [by vm_compute |].
  split; [exact Hlost | by vm_compute].
Defined.

(** ** The text operations on a few strings *)

Example strip_spaces_and_newline : strip "  a b 
" = "a b"%string.
Proof. reflexivity. Qed.

Example strip_ideographic_space : strip "　x y　 " = "x y"%string.
Proof. reflexivity. Qed.

Example strip_only_spaces : strip "   " = ""%string.
Proof. reflexivity. Qed.

Example strip_keeps_inner_and_accents : strip " é è " = "é è"%string.
Proof. reflexivity. Qed.

Example is_yes_words :
  map is_yes ["true"; "TRUE"; "Yes"; "y"; "1"; "on"; "false"; ""; " true"]%string
  = [true; true; true; true; true; false; false; false; false].
Proof. reflexivity. Qed.

(** * Records in memory and records saved *)

Lemma saves_app t1 t2 : saves (t1 ++ t2) = saves t1 ++ saves t2.
Proof. unfold saves. apply flat_map_app. Qed.

Lemma not_a_save_saves t : Forall not_a_save t -> saves t = [].
Proof.
  induction 1 as [| e t He _ IH]; [reflexivity |].
  unfold saves in *. simpl. rewrite IH. by destruct e.
Qed.

(** X23.  The usage records in memory never drift from what was handed to
    [_save_usage_records]: in a run of any of the three handlers, either
    nothing is saved and the mapping in memory is the one the run started
    with, or exactly one save is made and the mapping it is given is the
    one the instance holds when the run ends. *)
Theorem X23_memory_and_saves_agree env self event description use_refs
    (run : outcome unit * plugin * list effect) :
  run = pic_gen env event description use_refs self
  \/ run = figure_transform env event self
  \/ run = reset_images_command event self ->
  (saves (trace_of run) = []
   /\ usage_records (self_of run) = usage_records self)
  \/ saves (trace_of run) = [usage_records (self_of run)].
Proof.
  intros Hrun.
  assert (Hdraw : forall draw : M unit,
             respects not_a_save draw ->
             forall self1 t1,
               (t1 = [] /\ self1 = self
                \/ exists records,
                    t1 = [SaveRecords records]
                    /\ self1 = set_usage_records records self) ->
               let after := draw self1 in
               (saves (t1 ++ trace_of after) = []
                /\ usage_records (self_of after) = usage_records self)
               \/ saves (t1 ++ trace_of after)
                  = [usage_records (self_of after)]).
  { intros draw Hquiet self1 t1 Hcheck after.
    destruct (Hquiet self1) as [(Hrecords & _) Hsaves%not_a_save_saves].
    fold after in Hrecords, Hsaves. rewrite saves_app, Hsaves, Hrecords.
    destruct Hcheck as [[-> ->] | (records & -> & ->)]; [by left | by right]. }
  assert (Hreply : forall msg, respects not_a_save
                                 (emit (Yield (plain_result msg)))).
  { intros msg. by apply respects_emit. }
  destruct Hrun as [-> | [-> | ->]].
  - destruct (check_cases event (clock env) self)
      as [[m Hcheck] | [Hcheck | (m & records & Hcheck)]].
    + rewrite (pic_gen_denied _ _ _ _ _ _ _ _ Hcheck). by left.
    + rewrite (pic_gen_allowed _ _ _ _ _ _ _ _ Hcheck).
      apply (Hdraw _ (pic_gen_draw_respects env event description use_refs
                        ""%string)).
      by left.
    + rewrite (pic_gen_allowed _ _ _ _ _ _ _ _ Hcheck).
      apply (Hdraw _ (pic_gen_draw_respects env event description use_refs
                        m)).
      right. by exists records.
  - destruct (check_cases event (clock env) self)
      as [[m Hcheck] | [Hcheck | (m & records & Hcheck)]].
    + rewrite (figure_transform_denied _ _ _ _ _ _ Hcheck). by left.
    + rewrite (figure_transform_allowed _ _ _ _ _ _ Hcheck).
      apply (Hdraw _ (figure_transform_draw_respects env event ""%string)).
      by left.
    + rewrite (figure_transform_allowed _ _ _ _ _ _ Hcheck).
      apply (Hdraw _ (figure_transform_draw_respects env event m)).
      right. by exists records.
  - by right.
Qed.

(** Alice's draw fails at the generation client: one save was made, of the
    mapping the instance still holds. *)
Lemma X23_memory_and_saves_agree_witness :
  let env :=
    Sample.host_answering 1000 (Raise Sample.timeout_error) None
      (Raise Sample.timeout_error) in
  let run := pic_gen env Sample.alice_private "a cat" true (Sample.instance ∅) in
  saves (trace_of run) = [usage_records (self_of run)].
Proof.
  intros env run.
  destruct (X23_memory_and_saves_agree env (Sample.instance ∅)
              Sample.alice_private "a cat" true run (or_introl eq_refl))
    as [[Hnone _] | Hone]; [| exact Hone].
  by vm_compute in Hnone.
Defined.
